(** * Verification of the Solana wallet diagnostic scripts

    Shallow embedding of [verificar_balance.py] (functions [check_balance],
    [estimate_fees], [main]) and of the RPC helpers of
    [Diagnostico avanzado.py] ([test_rpc_basic], [test_get_balance]).

    Python floats are IEEE 754 binary64 numbers; they are modelled with the
    executable specification [SpecFloat] of the Standard Library, instantiated
    at precision 53 and maximal exponent 1024, so that every rounding of the
    scripts is the rounding of the model. *)

From Stdlib Require Import ZArith List String Ascii Bool Lia SpecFloat.
Import ListNotations.
Local Open Scope Z_scope.
Set Warnings "-register-all".

(** ** Binary64 arithmetic as Python performs it *)

Module Float64.

Definition prec : Z := 53.
Definition emax : Z := 1024.

Definition float := spec_float.

Definition pzero : float := S754_zero false.

Definition add : float -> float -> float := SFadd prec emax.
Definition mul : float -> float -> float := SFmul prec emax.
Definition div : float -> float -> float := SFdiv prec emax.
Definition ltb : float -> float -> bool := SFltb.
Definition leb : float -> float -> bool := SFleb.
Definition eqb : float -> float -> bool := SFeqb.

Definition is_nan (x : float) : bool :=
  match x with S754_nan => true | _ => false end.

Definition is_inf (x : float) : bool :=
  match x with S754_infinity _ => true | _ => false end.

Definition is_zero (x : float) : bool :=
  match x with S754_zero _ => true | _ => false end.

(** A value the float type can hold: mantissa and exponent in canonical
    form. *)
Definition valid (x : float) : bool := valid_binary prec emax x.

(** An integer read as the pair (mantissa, exponent 0); it is only fed to the
    rounding operations below. *)
Definition raw_of_Z (n : Z) : float :=
  match n with
  | Z0 => S754_zero false
  | Zpos p => S754_finite false p 0
  | Zneg p => S754_finite true p 0
  end.

(** [float(n)]: the integer rounded to nearest, ties to even. *)
Definition round_Z (n : Z) : float := binary_normalize prec emax n 0 false.

(** The correctly rounded quotient of two integers, [b] not zero. *)
Definition round_quot (a b : Z) : float :=
  match a with
  | Z0 => S754_zero (b <? 0)
  | _ => div (raw_of_Z a) (raw_of_Z b)
  end.

(** A decimal literal [num / 10^k]: Python reads it correctly rounded. *)
Definition literal (num : Z) (k : nat) : float := round_quot num (10 ^ Z.of_nat k).

(** *** The values of the non-negative floats

    The statements on rounding are made on exact values. Every exponent met
    in the scripts is at least [- bias], so the value of a non-negative float
    is counted as an integer, in units of [2 ^ (- bias)]. *)

Definition bias : Z := 2148.

(** The value of a non-negative float; [+inf] stands above every finite
    float, and the floats that are negative or NaN are given [-1]. *)
Definition value (x : float) : Z :=
  match x with
  | S754_zero _ => 0
  | S754_finite false m e => Zpos m * 2 ^ (e + bias)
  | S754_infinity false => 2 ^ (emax + bias)
  | _ => -1
  end.

(** A float of the format that is neither negative nor NaN. *)
Definition nonneg (x : float) : Prop := valid x = true /\ 0 <= value x.

(** A mantissa and an exponent in the canonical form of the format. *)
Definition canon (M E : Z) : Prop :=
  0 <= M < 2 ^ 53 /\ -1074 <= E /\ (-1074 < E -> 2 ^ 52 <= M).

(** [x / 2 ^ k] rounded to the nearest integer, ties to even. *)
Definition rne (x k : Z) : Z :=
  let q := x / 2 ^ k in
  let r := x mod 2 ^ k in
  let h := 2 ^ (k - 1) in
  if r <? h then q
  else if h <? r then q + 1
  else if Z.even q then q else q + 1.

(** The exponent that the format gives to the value [x]. *)
Definition format_exp (x : Z) : Z := fexp prec emax (Zdigits2 x - bias).

(** The last stage of [binary_round_aux]: the rounded mantissa is shifted
    once more if the rounding carried, and the overflow is detected. *)
Definition finish (M E : Z) : float :=
  let '(mrs, e) := shr_fexp prec emax M E loc_Exact in
  match shr_m mrs with
  | Z0 => S754_zero false
  | Zpos m => if e <=? emax - prec then S754_finite false m e else S754_infinity false
  | Zneg _ => S754_nan
  end.

(** The float nearest to the positive value [x]. *)
Definition round_value (x : Z) : float :=
  finish (rne x (format_exp x + bias)) (format_exp x).

(** The same for a value that may be zero. *)
Definition round0 (v : Z) : float := if v =? 0 then pzero else round_value v.

(** The float of a canonical mantissa and exponent. *)
Definition pack (M E : Z) : float :=
  match M with
  | Z0 => S754_zero false
  | Zpos m => if E <=? emax - prec then S754_finite false m E else S754_infinity false
  | Zneg _ => S754_nan
  end.

(** *** The rounded quotient of two integers *)

(** [n / d] rounded to the nearest integer, ties to even. *)
Definition rneq (n d : Z) : Z :=
  let q := n / d in
  let r := n mod d in
  if 2 * r <? d then q
  else if d <? 2 * r then q + 1
  else if Z.even q then q else q + 1.

(** The record [mrs] holds the integer part of [n / d] and the place of its
    fractional part with respect to one half. *)
Definition located (mrs : shr_record) (n d : Z) : Prop :=
  shr_m mrs = n / d
  /\ shr_r mrs = (d <=? 2 * (n mod d))
  /\ shr_s mrs = negb (n mod d =? 0) && negb (2 * (n mod d) =? d).

(** The shift that the division gives to the dividend, and the exponent of
    the quotient. *)
Definition quot_shift (a b : Z) : Z :=
  - Z.min (fexp prec emax (Zdigits2 a - Zdigits2 b)) 0.

Definition quot_exp (a b : Z) : Z :=
  fexp prec emax (Zdigits2 (a * 2 ^ quot_shift a b / b) - quot_shift a b).

(** [s] is a float of the format, of mantissa [M] and exponent [E], at most
    half a unit in the last place away from the exact quotient [a / b]. *)
Definition nearest_quotient (s : float) (a b : Z) : Prop :=
  exists M E,
    s = pack M E /\ canon M E
    /\ 2 * Z.abs (M * 2 ^ (E + bias) * b - a * 2 ^ bias) <= b * 2 ^ (E + bias).

End Float64.

Import Float64.

(** The floats that Python reads for the literals [0.000005] and [0.001] of
    [estimate_fees], and for the unit price [0.01] of the specification. *)
Definition f_0_000005 : float := S754_finite false 0x14f8b588e368f1 (-70).
Definition f_0_001 : float := S754_finite false 0x10624dd2f1a9fc (-62).
Definition f_0_01 : float := S754_finite false 0x147ae147ae147b (-59).

(** ** Python values and exceptions *)

(** What [response.json()] can return. A dictionary is kept as its list of
    bindings; a key is looked up from the head. *)
Inductive pyval : Type :=
| PNone
| PBool (b : bool)
| PInt (n : Z)
| PFloat (x : float)
| PStr (s : string)
| PList (l : list pyval)
| PDict (d : list (string * pyval)).

(** The exception classes that matter to the [except] clauses of the
    scripts. [Timeout], [ConnectionError] and [JSONDecodeError] are the
    classes of [requests.exceptions]; all of them derive from [Exception].
    [KeyboardInterrupt], which does not, comes from the user and not from a
    probe; it is left out. *)
Inductive exn : Type :=
| Timeout
| ConnectionError
| JSONDecodeError
| TypeError
| KeyError
| OverflowError
| ZeroDivisionError
| OtherError (name : string).

Definition is_Timeout (e : exn) : bool :=
  match e with Timeout => true | _ => false end.

Definition is_ConnectionError (e : exn) : bool :=
  match e with ConnectionError => true | _ => false end.

Definition is_RequestException (e : exn) : bool :=
  match e with
  | Timeout | ConnectionError | JSONDecodeError => true
  | _ => false
  end.

Inductive outcome (A : Type) : Type :=
| Returns (a : A)
| Raises (e : exn).
Arguments Returns {A} a.
Arguments Raises {A} e.

Definition obind {A B} (x : outcome A) (f : A -> outcome B) : outcome B :=
  match x with
  | Returns a => f a
  | Raises e => Raises e
  end.

(** [d[k]] on the bindings of a dictionary. *)
Fixpoint dict_get (d : list (string * pyval)) (k : string) : option pyval :=
  match d with
  | [] => None
  | (k', v) :: d' => if String.eqb k' k then Some v else dict_get d' k
  end.

Definition is_substring (needle hay : string) : bool :=
  match index 0 needle hay with
  | Some _ => true
  | None => false
  end.

Definition str_equal (s : string) (v : pyval) : bool :=
  match v with
  | PStr s' => String.eqb s' s
  | _ => false
  end.

(** [k in c] for a string [k]. *)
Definition py_contains (k : string) (c : pyval) : outcome bool :=
  match c with
  | PDict d => Returns (match dict_get d k with Some _ => true | None => false end)
  | PList l => Returns (existsb (str_equal k) l)
  | PStr s => Returns (is_substring k s)
  | PNone | PBool _ | PInt _ | PFloat _ => Raises TypeError
  end.

(** [c[k]] for a string [k]. *)
Definition py_getitem (c : pyval) (k : string) : outcome pyval :=
  match c with
  | PDict d => match dict_get d k with Some v => Returns v | None => Raises KeyError end
  | _ => Raises TypeError
  end.

(** Conversion of an integer operand to a float, as the float operators do
    it. *)
Definition int_to_float (n : Z) : outcome float :=
  let r := round_Z n in
  if is_inf r then Raises OverflowError else Returns r.

(** [a / b] on integers: the quotient rounded once. *)
Definition int_truediv (a b : Z) : outcome float :=
  if b =? 0 then Raises ZeroDivisionError
  else
    let r := round_quot a b in
    if is_inf r then Raises OverflowError else Returns r.

(** [x / y] on floats. *)
Definition float_truediv (x y : float) : outcome float :=
  if is_zero y then Raises ZeroDivisionError else Returns (div x y).

Definition as_int (v : pyval) : option Z :=
  match v with
  | PInt n => Some n
  | PBool b => Some (if b then 1 else 0)
  | _ => None
  end.

(** The operator [/]. *)
Definition py_truediv (v w : pyval) : outcome float :=
  match as_int v, as_int w with
  | Some a, Some b => int_truediv a b
  | Some a, None =>
      match w with
      | PFloat y => obind (int_to_float a) (fun x => float_truediv x y)
      | _ => Raises TypeError
      end
  | None, Some b =>
      match v with
      | PFloat x => obind (int_to_float b) (fun y => float_truediv x y)
      | _ => Raises TypeError
      end
  | None, None =>
      match v, w with
      | PFloat x, PFloat y => float_truediv x y
      | _, _ => Raises TypeError
      end
  end.

(** [n * x] for an integer [n] and a float [x]. *)
Definition int_mul_float (n : Z) (x : float) : outcome float :=
  obind (int_to_float n) (fun y => Returns (mul y x)).

(** The builtin [sum] on floats: from the integer 0, left to right, each
    partial sum rounded (CPython up to 3.11; from 3.12 on the rounding errors
    of the partial sums are compensated). *)
Definition py_sum (l : list float) : float := fold_left add l pzero.

(** The builtins [min] and [max]: the first item, replaced by each later item
    that compares strictly below (above) it. *)
Definition py_min (x : float) (l : list float) : float :=
  fold_left (fun m v => if ltb v m then v else m) l x.

Definition py_max (x : float) (l : list float) : float :=
  fold_left (fun m v => if ltb m v then v else m) l x.

(** [len(set(l))]: an item is new when it equals none of the items before
    it. *)
Fixpoint distinct (seen l : list float) : nat :=
  match l with
  | [] => O
  | v :: l' =>
      if existsb (eqb v) seen then distinct seen l'
      else S (distinct (v :: seen) l')
  end.

(** ** The network, the console and the effects of the scripts *)

Inductive request : Type :=
| Get (url : string)
| Post (url method : string) (params : list string).

(** The answer of the HTTP client: an exception, or a response with its
    status code and what [response.json()] gives (its value, or the
    exception [JSONDecodeError] when the body is not JSON). *)
Inductive http_result : Type :=
| HttpRaises (e : exn)
| HttpResponse (status : Z) (body : option pyval).

(** The network is not under the scripts' control: the answer depends on the
    request and on how many requests were sent before it. *)
Definition network := nat -> request -> http_result.

Inductive message : Type :=
| MsgProbing (rpc_url : string)
| MsgWorking
| MsgBalance (balance_sol : float)
| MsgLamports (balance_lamports : pyval)
| MsgNoValidResult
| MsgResponse (data : pyval)
| MsgHttpError (status : Z)
| MsgTimeout (timeout : Z)
| MsgConnectionError (e : exn)
| MsgUnexpected (e : exn)
| MsgExplorerLinks (wallet_address : string)
| MsgBanner
| MsgEmptyAddress
| MsgLengthWarning
| MsgWallet (wallet_address : string)
| MsgSummary
| MsgNoBalance
| MsgWorkingCount (working total : nat)
| MsgAverage (avg_balance : float)
| MsgRange (min_balance max_balance : float)
| MsgPurchasesHeader
| MsgZeroBalance
| MsgAvailable (avg_balance : float)
| MsgPurchase (status : bool) (num_blocks : Z) (subtotal fee total : float)
| MsgDone
| MsgServerAnswers (status : Z)
| MsgRpcOk (result : pyval)
| MsgRpcError (error : pyval)
| MsgRpcCallError (e : exn)
| MsgBalanceObtained (balance : float).

Inductive event : Type :=
| Sent (r : request)
| Printed (m : message)
| Slept.

(** The state threaded through a run: everything that happened so far, oldest
    first. *)
Definition trace := list event.

Definition is_sent (ev : event) : bool :=
  match ev with Sent _ => true | _ => false end.

Definition sent_count (t : trace) : nat := List.length (filter is_sent t).

Fixpoint requests_of (t : trace) : list request :=
  match t with
  | [] => []
  | Sent r :: t' => r :: requests_of t'
  | _ :: t' => requests_of t'
  end.

Fixpoint messages_of (t : trace) : list message :=
  match t with
  | [] => []
  | Printed m :: t' => m :: messages_of t'
  | _ :: t' => messages_of t'
  end.

(** Computations that read the network, extend the trace and may raise. *)
Definition M (A : Type) : Type := trace -> outcome A * trace.

Definition ret {A} (a : A) : M A := fun t => (Returns a, t).

Definition raise {A} (e : exn) : M A := fun t => (Raises e, t).

Definition bind {A B} (c : M A) (f : A -> M B) : M B :=
  fun t =>
    match c t with
    | (Returns a, t') => f a t'
    | (Raises e, t') => (Raises e, t')
    end.

Definition lift {A} (x : outcome A) : M A := fun t => (x, t).

(** [try: body except Exception as e: handler e] *)
Definition try_except {A} (body : M A) (handler : exn -> M A) : M A :=
  fun t =>
    match body t with
    | (Returns a, t') => (Returns a, t')
    | (Raises e, t') => handler e t'
    end.

Definition print (m : message) : M unit := fun t => (Returns tt, t ++ [Printed m]).

Definition sleep : M unit := fun t => (Returns tt, t ++ [Slept]).

Declare Scope py_scope.
Delimit Scope py_scope with py.
Notation "x <- c ;; k" := (bind c (fun x => k))
  (at level 61, c at next level, right associativity) : py_scope.
Notation "c ;;; k" := (bind c (fun _ => k))
  (at level 61, right associativity) : py_scope.
Local Open Scope py_scope.

Definition LAMPORTS_PER_SOL : Z := 1000000000.

Definition RPC_ENDPOINTS : list string :=
  [ "https://api.mainnet-beta.solana.com";
    "https://solana-api.projectserum.com";
    "https://rpc.ankr.com/solana";
    "https://api.mainnet.solana.com" ]%string.

(** [response.json()] *)
Definition json (body : option pyval) : M pyval :=
  match body with
  | Some data => ret data
  | None => raise JSONDecodeError
  end.

(** The body of [check_balance] from the test of the status code on, and
    its three [except] clauses; neither touches the network. *)
Definition check_response (response : Z * option pyval) : M (option (pyval * float)) :=
  if fst response =? 200 then
    data <- json (snd response) ;;
    has_result <- lift (py_contains "result" data) ;;
    has_value <-
      (if has_result : bool then
         result <- lift (py_getitem data "result") ;;
         lift (py_contains "value" result)
       else ret false) ;;
    if has_value : bool then
      result <- lift (py_getitem data "result") ;;
      balance_lamports <- lift (py_getitem result "value") ;;
      balance_sol <- lift (py_truediv balance_lamports (PInt LAMPORTS_PER_SOL)) ;;
      print MsgWorking ;;;
      print (MsgBalance balance_sol) ;;;
      print (MsgLamports balance_lamports) ;;;
      ret (Some (balance_lamports, balance_sol))
    else
      print MsgNoValidResult ;;;
      print (MsgResponse data) ;;;
      ret None
  else
    print (MsgHttpError (fst response)) ;;;
    ret None.

Definition check_handler (timeout : Z) (e : exn) : M (option (pyval * float)) :=
  if is_Timeout e then print (MsgTimeout timeout) ;;; ret None
  else if is_RequestException e then print (MsgConnectionError e) ;;; ret None
  else print (MsgUnexpected e) ;;; ret None.

Section Scripts.

Variable net : network.

(** [requests.get] and [requests.post]: the request is sent, the network
    answers. *)
Definition send (r : request) : M (Z * option pyval) :=
  fun t =>
    match net (sent_count t) r with
    | HttpRaises e => (Raises e, t ++ [Sent r])
    | HttpResponse status body => (Returns (status, body), t ++ [Sent r])
    end.

(** *** verificar_balance.py *)

Definition check_balance (wallet_address rpc_url : string) (timeout : Z)
  : M (option (pyval * float)) :=
  try_except
    (print (MsgProbing rpc_url) ;;;
     response <- send (Post rpc_url "getBalance" [wallet_address]) ;;
     check_response response)
    (check_handler timeout).

Definition check_wallet_in_explorer (wallet_address : string) : M unit :=
  print (MsgExplorerLinks wallet_address).

(** The dictionary returned by [estimate_fees]. *)
Record estimate : Type := {
  blocks : Z;
  price_per_block : float;
  subtotal : float;
  estimated_fee : float;
  total : float
}.

Definition estimate_fees (num_blocks : Z) (price_per_block : float) : outcome estimate :=
  obind (int_mul_float num_blocks price_per_block) (fun total_price =>
  let estimated_fee := f_0_000005 in
  let total_needed := add total_price estimated_fee in
  Returns {| blocks := num_blocks;
             price_per_block := price_per_block;
             subtotal := total_price;
             estimated_fee := estimated_fee;
             total := total_needed |}).

(** The loop of [main] over the endpoints: a result of [check_balance] that is
    not [None] is appended to [balances], its endpoint to [working_rpcs], and
    the script pauses. *)
Fixpoint probe_endpoints (wallet_address : string) (endpoints : list string)
    (balances : list (pyval * float)) (working_rpcs : list string)
  : M (list (pyval * float) * list string) :=
  match endpoints with
  | [] => ret (balances, working_rpcs)
  | rpc_url :: rest =>
      result <- check_balance wallet_address rpc_url 10 ;;
      match result with
      | Some r =>
          sleep ;;;
          probe_endpoints wallet_address rest (balances ++ [r]) (working_rpcs ++ [rpc_url])
      | None => probe_endpoints wallet_address rest balances working_rpcs
      end
  end.

(** The statistics of [main] over the balances collected, at least one:
    [sum(balance_values) / len(balance_values)], [min(balance_values)] and
    [max(balance_values)]. *)
Definition statistics (first : pyval * float) (others : list (pyval * float))
  : outcome (float * float * float) :=
  let balance_values := map snd (first :: others) in
  obind (py_truediv (PFloat (py_sum balance_values))
                    (PInt (Z.of_nat (List.length balance_values))))
    (fun avg_balance =>
       let min_balance := py_min (snd first) (map snd others) in
       let max_balance := py_max (snd first) (map snd others) in
       Returns (avg_balance, min_balance, max_balance)).

(** The test of [main] on each example: [estimate["total"] <= avg_balance]. *)
Definition affordable (e : estimate) (avg_balance : float) : bool :=
  leb (total e) avg_balance.

Fixpoint purchase_examples (avg_balance : float) (examples : list Z) : M unit :=
  match examples with
  | [] => ret tt
  | num_blocks :: rest =>
      e <- lift (estimate_fees num_blocks f_0_001) ;;
      print (MsgPurchase (affordable e avg_balance) num_blocks
               (subtotal e) (estimated_fee e) (total e)) ;;;
      purchase_examples avg_balance rest
  end.

Definition is_space (c : ascii) : bool :=
  let n := nat_of_ascii c in
  ((9 <=? n) && (n <=? 13) || (28 <=? n) && (n <=? 32))%nat.

Fixpoint lstrip (s : string) : string :=
  match s with
  | String c s' => if is_space c then lstrip s' else s
  | EmptyString => EmptyString
  end.

Fixpoint rstrip (s : string) : string :=
  match s with
  | String c s' =>
      match rstrip s' with
      | EmptyString => if is_space c then EmptyString else String c EmptyString
      | r => String c r
      end
  | EmptyString => EmptyString
  end.

Definition strip (s : string) : string := rstrip (lstrip s).

Definition lower_char (c : ascii) : ascii :=
  let n := nat_of_ascii c in
  if ((65 <=? n) && (n <=? 90))%nat then ascii_of_nat (n + 32) else c.

Fixpoint lower (s : string) : string :=
  match s with
  | String c s' => String (lower_char c) (lower s')
  | EmptyString => EmptyString
  end.

(** [main] returns nothing; the model returns which of its exits was taken,
    with the statistics it computed when it reached them. *)
Inductive exit : Type :=
| EmptyAddress
| Declined
| NoData
| Diagnosed (working_rpcs : list string) (avg_balance min_balance max_balance : float).

(** [wallet_input] and [continuar] are the lines that the two calls of
    [input] read. *)
Definition main (wallet_input continuar : string) : M exit :=
  print MsgBanner ;;;
  let wallet_address := strip wallet_input in
  if String.eqb wallet_address "" then
    print MsgEmptyAddress ;;; ret EmptyAddress
  else
    let n := String.length wallet_address in
    go_on <-
      (if ((n <? 32) || (44 <? n))%nat then
         print MsgLengthWarning ;;;
         ret (String.eqb (lower continuar) "s")
       else ret true) ;;
    if negb go_on then ret Declined
    else
      print (MsgWallet wallet_address) ;;;
      probed <- probe_endpoints wallet_address RPC_ENDPOINTS [] [] ;;
      let balances := fst probed in
      let working_rpcs := snd probed in
      print MsgSummary ;;;
      match balances with
      | [] =>
          print MsgNoBalance ;;;
          check_wallet_in_explorer wallet_address ;;;
          ret NoData
      | first :: others =>
          stats <- lift (statistics first others) ;;
          let avg_balance := fst (fst stats) in
          let min_balance := snd (fst stats) in
          let max_balance := snd stats in
          print (MsgWorkingCount (List.length working_rpcs) (List.length RPC_ENDPOINTS)) ;;;
          print (MsgAverage avg_balance) ;;;
          (if (1 <? distinct [] (map snd balances))%nat
           then print (MsgRange min_balance max_balance)
           else ret tt) ;;;
          print MsgPurchasesHeader ;;;
          (if eqb avg_balance pzero then print MsgZeroBalance
           else
             print (MsgAvailable avg_balance) ;;;
             purchase_examples avg_balance [1; 10; 25; 50; 100]) ;;;
          check_wallet_in_explorer wallet_address ;;;
          print MsgDone ;;;
          ret (Diagnosed working_rpcs avg_balance min_balance max_balance)
      end.

(** The script: [main] under the handler of the last lines of the file.
    [None] is the exit through the handler. *)
Definition script (wallet_input continuar : string) : M (option exit) :=
  try_except
    (r <- main wallet_input continuar ;; ret (Some r))
    (fun e => print (MsgUnexpected e) ;;; ret None).

(** *** Diagnostico avanzado.py *)

(** The first test of [test_rpc_basic]: [Some r] when it returns [r], [None]
    when the function goes on to the second test. *)
Definition test_rpc_connect (rpc_url : string) : M (option bool) :=
  try_except
    (response <- send (Get rpc_url) ;;
     print (MsgServerAnswers (fst response)) ;;;
     ret None)
    (fun e =>
       if is_Timeout e then print (MsgTimeout 5) ;;; ret (Some false)
       else if is_ConnectionError e then print (MsgConnectionError e) ;;; ret (Some false)
       else print (MsgUnexpected e) ;;; ret None).

(** The second test of [test_rpc_basic]: [Some true], [Some false], or [None]
    when the end of the function is reached without a [return]. *)
Definition test_rpc_call (rpc_url : string) : M (option bool) :=
  try_except
    (response <- send (Post rpc_url "getHealth" []) ;;
     if fst response =? 200 then
       data <- json (snd response) ;;
       has_result <- lift (py_contains "result" data) ;;
       if has_result : bool then
         result <- lift (py_getitem data "result") ;;
         print (MsgRpcOk result) ;;;
         ret (Some true)
       else
         has_error <- lift (py_contains "error" data) ;;
         if has_error : bool then
           error <- lift (py_getitem data "error") ;;
           print (MsgRpcError error) ;;;
           ret (Some false)
         else ret None
     else
       print (MsgHttpError (fst response)) ;;;
       ret (Some false))
    (fun e => print (MsgRpcCallError e) ;;; ret (Some false)).

Definition test_rpc_basic (rpc_url : string) : M (option bool) :=
  print (MsgProbing rpc_url) ;;;
  r <- test_rpc_connect rpc_url ;;
  match r with
  | Some b => ret (Some b)
  | None => test_rpc_call rpc_url
  end.

Definition test_get_balance (rpc_url wallet_address : string) : M bool :=
  try_except
    (response <- send (Post rpc_url "getBalance" [wallet_address]) ;;
     if fst response =? 200 then
       data <- json (snd response) ;;
       has_result <- lift (py_contains "result" data) ;;
       has_value <-
         (if has_result : bool then
            result <- lift (py_getitem data "result") ;;
            lift (py_contains "value" result)
          else ret false) ;;
       if has_value : bool then
         result <- lift (py_getitem data "result") ;;
         value <- lift (py_getitem result "value") ;;
         balance <- lift (py_truediv value (PInt 1000000000)) ;;
         print (MsgBalanceObtained balance) ;;;
         ret true
       else ret false
     else ret false)
    (fun _ => ret false).

(** The first loop of the script: the endpoints for which [test_rpc_basic]
    returns a true value are kept; the pause follows every endpoint. *)
Fixpoint basic_tests (endpoints working_rpcs : list string) : M (list string) :=
  match endpoints with
  | [] => ret working_rpcs
  | rpc :: rest =>
      r <- test_rpc_basic rpc ;;
      sleep ;;;
      match r with
      | Some true => basic_tests rest (working_rpcs ++ [rpc])
      | _ => basic_tests rest working_rpcs
      end
  end.

End Scripts.

(** ** What one probe returns *)

(** A network that gives the same answer to every request. *)
Definition always (a : http_result) : network := fun _ _ => a.

(** The value of [check_balance] when the network answers [a]; the value
    [None] also stands for a run that would raise. *)
Definition answer_balance (a : http_result) : option (pyval * float) :=
  match fst (check_balance (always a) "" "" 10 []) with
  | Returns r => r
  | Raises _ => None
  end.

Definition balance_request (wallet_address rpc_url : string) : request :=
  Post rpc_url "getBalance" [wallet_address].

(** The endpoints in order, each with the value of its probe when the first
    of them is the [k]-th request of the run. *)
Fixpoint answers (net : network) (wallet_address : string) (k : nat)
    (endpoints : list string) : list (string * option (pyval * float)) :=
  match endpoints with
  | [] => []
  | rpc_url :: rest =>
      (rpc_url, answer_balance (net k (balance_request wallet_address rpc_url)))
      :: answers net wallet_address (S k) rest
  end.

(** The probes that gave a balance, in order. *)
Fixpoint kept (l : list (string * option (pyval * float)))
  : list (string * (pyval * float)) :=
  match l with
  | [] => []
  | (rpc_url, Some r) :: l' => (rpc_url, r) :: kept l'
  | (_, None) :: l' => kept l'
  end.

(** A computation that sends nothing: whatever the trace is, it only adds
    to it, and what it adds holds no request. *)
Definition offline {A} (c : M A) : Prop :=
  (forall t, c t = (fst (c []), t ++ snd (c []))) /\ requests_of (snd (c [])) = [].

(** The inputs with which [main] gets to the probes: an address that is not
    empty and, when its length is unusual, the answer [s]. *)
Definition reaches_probes (wallet_input continuar : string) : bool :=
  let wallet_address := strip wallet_input in
  let n := String.length wallet_address in
  negb (String.eqb wallet_address "")
  && (if ((n <? 32) || (44 <? n))%nat then String.eqb (lower continuar) "s" else true).

Definition some_wallet : string := "4Nd1mYw7Gk3xJ9e2FqZ5uVbT8sRcP6hLaXoKiDyWnMjE".

(** The answer of an endpoint that reports [n] lamports. *)
Definition balance_answer (n : Z) : http_result :=
  HttpResponse 200
    (Some (PDict [("jsonrpc", PStr "2.0");
                  ("result", PDict [("context", PDict [("slot", PInt 1)]);
                                    ("value", PInt n)]);
                  ("id", PInt 1)]))%string.

(** No endpoint can be reached. *)
Definition net_down : network := always (HttpRaises Timeout).

(** The second request times out, the others report one SOL. *)
Definition net_second_times_out : network :=
  fun k _ => match k with 1%nat => HttpRaises Timeout | _ => balance_answer 1000000000 end.

(** The parsed body is a JSON object with the field [k]. *)
Definition has_field (k : string) (data : pyval) : bool :=
  match data with
  | PDict d => match dict_get d k with Some _ => true | None => false end
  | _ => false
  end.

(** [data["result"]["value"]] *)
Definition result_value (data : pyval) : outcome pyval :=
  obind (py_getitem data "result") (fun result => py_getitem result "value").

(** A JSON-RPC error body, and a body that has both fields. *)
Definition error_body : pyval :=
  PDict [("jsonrpc", PStr "2.0");
         ("error", PDict [("code", PInt (-32602)); ("message", PStr "Invalid param")]);
         ("id", PInt 1)]%string.

Definition error_and_result_body : pyval :=
  PDict [("jsonrpc", PStr "2.0");
         ("error", PDict [("code", PInt (-32602)); ("message", PStr "Invalid param")]);
         ("result", PDict [("value", PInt 5)]);
         ("id", PInt 1)]%string.



(** ** The statements of the specification *)

(** [m] is a least (a greatest) item of [l]. *)
Definition is_minimum (m : float) (l : list float) : Prop :=
  In m l /\ forall v, In v l -> leb m v = true.

Definition is_maximum (m : float) (l : list float) : Prop :=
  In m l /\ forall v, In v l -> leb v m = true.

(** The average of the specification: the sum of the values divided by
    their count. *)
Definition spec_average (l : list float) : float :=
  div (fold_left add l pzero) (round_Z (Z.of_nat (List.length l))).


(** The affordability table of the specification: for each quantity,
    [subtotal = quantity * unitPrice], [total = subtotal + feePerTransaction]
    and [affordable = total <= balance]. *)
Record affordability_row : Type := {
  quantity : Z;
  row_subtotal : float;
  row_fee : float;
  row_total : float;
  row_affordable : bool
}.

Definition affordability (balance unitPrice feePerTransaction : float) (quantities : list Z)
  : list affordability_row :=
  map (fun q =>
         let subtotal := mul (round_Z q) unitPrice in
         let total := add subtotal feePerTransaction in
         {| quantity := q;
            row_subtotal := subtotal;
            row_fee := feePerTransaction;
            row_total := total;
            row_affordable := leb total balance |})
      quantities.

(** The line that [main] prints for a row. *)
Definition row_message (r : affordability_row) : message :=
  MsgPurchase (row_affordable r) (quantity r) (row_subtotal r) (row_fee r) (row_total r).

(** The row of an estimate for a balance. *)
Definition row_of (e : estimate) (balance : float) : affordability_row :=
  {| quantity := blocks e;
     row_subtotal := subtotal e;
     row_fee := estimated_fee e;
     row_total := total e;
     row_affordable := affordable e balance |}.

(** The balance that [check_balance] returns for [n] lamports. *)
Definition sample (n : Z) : pyval * float := (PInt n, round_quot n LAMPORTS_PER_SOL).

(** A balance of the data model: the lamports are a non-negative integer and
    the SOL amount is what [check_balance] computes from them. *)
Definition balance_sample (b : pyval * float) : Prop :=
  exists n,
    0 <= n /\ fst b = PInt n
    /\ py_truediv (PInt n) (PInt LAMPORTS_PER_SOL) = Returns (snd b).

(** The second request times out, the others report a tenth of a SOL. *)
Definition net_tenth : network :=
  fun k _ => match k with 1%nat => HttpRaises Timeout | _ => balance_answer 100000000 end.

(** 0.10000000000000002, the float that follows 0.1. *)
Definition above_tenth : float := S754_finite false 7205759403792795 (-56).

Definition pinf : float := S754_infinity false.

(** ** The runs of the scripts

    Definitions for the statements on whole runs: the report of [main], the
    pauses and the lines of a trace. *)

(** The part of [main] that follows the loop over the endpoints, from the
    summary on. *)
Definition main_report (wallet_address : string)
    (probed : list (pyval * float) * list string) : M exit :=
  let balances := fst probed in
  let working_rpcs := snd probed in
  print MsgSummary ;;;
  match balances with
  | [] =>
      print MsgNoBalance ;;;
      check_wallet_in_explorer wallet_address ;;;
      ret NoData
  | first :: others =>
      stats <- lift (statistics first others) ;;
      let avg_balance := fst (fst stats) in
      let min_balance := snd (fst stats) in
      let max_balance := snd stats in
      print (MsgWorkingCount (List.length working_rpcs) (List.length RPC_ENDPOINTS)) ;;;
      print (MsgAverage avg_balance) ;;;
      (if (1 <? distinct [] (map snd balances))%nat
       then print (MsgRange min_balance max_balance)
       else ret tt) ;;;
      print MsgPurchasesHeader ;;;
      (if eqb avg_balance pzero then print MsgZeroBalance
       else
         print (MsgAvailable avg_balance) ;;;
         purchase_examples avg_balance [1; 10; 25; 50; 100]) ;;;
      check_wallet_in_explorer wallet_address ;;;
      print MsgDone ;;;
      ret (Diagnosed working_rpcs avg_balance min_balance max_balance)
  end.

Definition is_slept (ev : event) : bool :=
  match ev with Slept => true | _ => false end.

(** The number of pauses of a run. *)
Definition pauses (t : trace) : nat := List.length (filter is_slept t).

Definition is_purchase (m : message) : bool :=
  match m with MsgPurchase _ _ _ _ _ => true | _ => false end.


(** A string made of white space only. *)
Fixpoint blank (s : string) : bool :=
  match s with
  | EmptyString => true
  | String c s' => is_space c && blank s'
  end.

(** A line of ASCII characters. The white space of [is_space] is that of the
    characters below 128: on such a line [strip] is the method of Python. *)
Fixpoint ascii_only (s : string) : bool :=
  match s with
  | EmptyString => true
  | String c s' => (nat_of_ascii c <? 128)%nat && ascii_only s'
  end.

(** [l] is a sublist of [m], in the order of [m]. *)
Fixpoint subseq (l m : list string) : Prop :=
  match l, m with
  | [], _ => True
  | _ :: _, [] => False
  | x :: l', y :: m' => (x = y /\ subseq l' m') \/ subseq l m'
  end.

(** A computation that only prints, the same lines whatever the trace, all
    of them lines that [P] accepts. *)
Definition printing {A} (P : message -> bool) (c : M A) : Prop :=
  exists o msgs, (forall t, c t = (o, t ++ map Printed msgs)) /\ forallb P msgs = true.

(** The lines of [check_balance] after its first. *)
Definition probe_line (m : message) : bool :=
  match m with
  | MsgWorking | MsgBalance _ | MsgLamports _ | MsgNoValidResult | MsgResponse _
  | MsgHttpError _ | MsgTimeout _ | MsgConnectionError _ | MsgUnexpected _ => true
  | _ => false
  end.

(** The lines of [main] before its summary. *)
Definition head_line (m : message) : bool :=
  match m with
  | MsgBanner | MsgLengthWarning | MsgWallet _ | MsgProbing _ => true
  | _ => probe_line m
  end.

(** The probes of [main] that gave a balance, when the first of them is the
    [k]-th request of the run. *)
Definition probed (net : network) (wallet_address : string) (k : nat)
  : list (string * (pyval * float)) :=
  kept (answers net wallet_address k RPC_ENDPOINTS).

(** The lines of [main] from the summary on, for the balances collected. *)
Definition report_lines (wallet_address : string) (balances : list (pyval * float))
    (working_rpcs : list string) : list message :=
  match balances with
  | [] => [MsgSummary; MsgNoBalance; MsgExplorerLinks wallet_address]
  | first :: others =>
      let avg_balance := spec_average (map snd balances) in
      [MsgSummary;
       MsgWorkingCount (List.length working_rpcs) (List.length RPC_ENDPOINTS);
       MsgAverage avg_balance]
      ++ (if (1 <? distinct [] (map snd balances))%nat
          then [MsgRange (py_min (snd first) (map snd others))
                         (py_max (snd first) (map snd others))]
          else [])
      ++ [MsgPurchasesHeader]
      ++ (if eqb avg_balance pzero then [MsgZeroBalance]
          else MsgAvailable avg_balance
               :: map row_message
                    (affordability avg_balance f_0_001 f_0_000005 [1; 10; 25; 50; 100]))
      ++ [MsgExplorerLinks wallet_address; MsgDone]
  end.

(** The exit of [main] for the balances collected. *)
Definition report_exit (balances : list (pyval * float)) (working_rpcs : list string) : exit :=
  match balances with
  | [] => NoData
  | first :: others =>
      Diagnosed working_rpcs (spec_average (map snd balances))
        (py_min (snd first) (map snd others)) (py_max (snd first) (map snd others))
  end.

(** The answers to the first request of [test_rpc_basic] that end it. *)
Definition gives_up (a : http_result) : bool :=
  match a with
  | HttpRaises e => is_Timeout e || is_ConnectionError e
  | HttpResponse _ _ => false
  end.

(** The answers to its second request for which it returns [True]. *)
Definition rpc_healthy (a : http_result) : bool :=
  match a with
  | HttpResponse status (Some data) => (status =? 200) && has_field "result" data
  | _ => false
  end.

(** The endpoints that the first loop of the diagnostic script keeps, when
    the first request of the loop is the [k]-th of the run: an endpoint takes
    one request when its [GET] ends the test, two otherwise. *)
Fixpoint kept_basic (net : network) (k : nat) (endpoints : list string) : list string :=
  match endpoints with
  | [] => []
  | rpc :: rest =>
      if gives_up (net k (Get rpc)) then kept_basic net (S k) rest
      else if rpc_healthy (net (S k) (Post rpc "getHealth" []))
           then rpc :: kept_basic net (S (S k)) rest
           else kept_basic net (S (S k)) rest
  end.

Definition is_links (m : message) : bool :=
  match m with MsgExplorerLinks _ => true | _ => false end.

(** The least integer that has no float: half a unit in the last place above
    the greatest float. *)
Definition float_limit : Z := 2 ^ 1024 - 2 ^ 970.


(** A line of spaces and a tabulation. *)
Definition blank_line : string := String (ascii_of_nat 9) "   ".

(** ** The top level of Diagnostico avanzado.py

    The script prints its own lines and looks a host name up; its runs are
    traces of the steps of the functions above, of these lines and of the
    lookup. *)
Module Avanzado.

Definition RPC_ENDPOINTS : list string :=
  [ "https://api.mainnet-beta.solana.com";
    "https://solana-api.projectserum.com";
    "https://rpc.ankr.com/solana";
    "https://api.mainnet-beta.solana.com" ]%string.

Inductive line : Type :=
| LnBanner
| LnTest1
| LnResults
| LnWorkingCount (working total : nat)
| LnWorkingRpc (rpc : string)
| LnNoneWorks
| LnTest2
| LnTrying
| LnUsing (rpc : string)
| LnObtained
| LnFailed
| LnTest3
| LnDnsTest
| LnDnsOk
| LnDnsProblem
| LnHttpTest
| LnHttpOk
| LnHttpProblem
| LnConfiguration
| LnPublicIp (ip : pyval)
| LnNoNetworkInfo
| LnRecommendations
| LnCritical
| LnSomeWork (working total : nat)
| LnNextStep
| LnNextNetwork
| LnNextBrowser
| LnEnd.

Inductive step : Type :=
| Base (ev : event)
| Said (l : line)
| Looked (host : string).

Definition log := list step.

(** The steps of the functions, which the network counts its requests in. *)
Fixpoint base (t : log) : trace :=
  match t with
  | [] => []
  | Base ev :: t' => ev :: base t'
  | _ :: t' => base t'
  end.

Fixpoint lines_of (t : log) : list line :=
  match t with
  | [] => []
  | Said l :: t' => l :: lines_of t'
  | _ :: t' => lines_of t'
  end.

Fixpoint lookups_of (t : log) : list string :=
  match t with
  | [] => []
  | Looked host :: t' => host :: lookups_of t'
  | _ :: t' => lookups_of t'
  end.

Definition D (A : Type) : Type := log -> outcome A * log.

Definition dret {A} (a : A) : D A := fun t => (Returns a, t).

Definition dbind {A B} (c : D A) (f : A -> D B) : D B :=
  fun t =>
    match c t with
    | (Returns a, t') => f a t'
    | (Raises e, t') => (Raises e, t')
    end.

Definition dlift {A} (x : outcome A) : D A := fun t => (x, t).

(** [try: body except: handler] *)
Definition dtry {A} (body : D A) (handler : D A) : D A :=
  fun t =>
    match body t with
    | (Returns a, t') => (Returns a, t')
    | (Raises _, t') => handler t'
    end.

Definition say (l : line) : D unit := fun t => (Returns tt, t ++ [Said l]).

(** A call of a function of the script: its steps follow the log. *)
Definition run {A} (c : M A) : D A :=
  fun t =>
    let '(o, t') := c (base t) in
    (o, t ++ map Base (skipn (List.length (base t)) t')).

Declare Scope adv_scope.
Delimit Scope adv_scope with adv.
Notation "x <-- c ;; k" := (dbind c (fun x => k))
  (at level 61, c at next level, right associativity) : adv_scope.
Notation "c ;;- k" := (dbind c (fun _ => k))
  (at level 61, right associativity) : adv_scope.
Local Open Scope adv_scope.

(** [d.get(k, default)] *)
Definition py_get (c : pyval) (k : string) (default : pyval) : outcome pyval :=
  match c with
  | PDict d => Returns (match dict_get d k with Some v => v | None => default end)
  | _ => Raises (OtherError "AttributeError")
  end.

Definition nonempty {A} (l : list A) : bool :=
  match l with [] => false | _ :: _ => true end.

Section Script.

Variable net : network.

(** [socket.gethostbyname]: the exception that the lookup of a host raises,
    if any. *)
Variable dns : string -> option exn.

Definition gethostbyname (host : string) : D unit :=
  fun t =>
    match dns host with
    | Some e => (Raises e, t ++ [Looked host])
    | None => (Returns tt, t ++ [Looked host])
    end.

(** The results of the first test. *)
Fixpoint say_each (working_rpcs : list string) : D unit :=
  match working_rpcs with
  | [] => dret tt
  | rpc :: rest => say (LnWorkingRpc rpc) ;;- say_each rest
  end.

Definition results (working_rpcs : list string) : D unit :=
  say LnResults ;;-
  if nonempty working_rpcs then
    say (LnWorkingCount (List.length working_rpcs) (List.length RPC_ENDPOINTS)) ;;-
    say_each working_rpcs
  else say LnNoneWorks.

(** The loop of the second test, left at the first balance obtained. *)
Fixpoint balance_tests (wallet_input : string) (working_rpcs : list string) : D unit :=
  match working_rpcs with
  | [] => dret tt
  | rpc :: rest =>
      say (LnUsing (substring 0 50 rpc)) ;;-
      obtained <-- run (test_get_balance net rpc wallet_input) ;;
      if obtained : bool then say LnObtained
      else say LnFailed ;;- balance_tests wallet_input rest
  end.

Definition test2 (wallet_line : string) (working_rpcs : list string) : D unit :=
  say LnTest2 ;;-
  let wallet_input := strip wallet_line in
  if negb (String.eqb wallet_input "") && nonempty working_rpcs then
    say LnTrying ;;-
    balance_tests wallet_input working_rpcs
  else dret tt.

Definition test_dns : D unit :=
  say LnDnsTest ;;-
  dtry (gethostbyname "api.mainnet-beta.solana.com" ;;- say LnDnsOk)
       (say LnDnsProblem).

Definition test_http : D unit :=
  say LnHttpTest ;;-
  dtry (response <-- run (send net (Get "https://www.google.com")) ;;
        say LnHttpOk)
       (say LnHttpProblem).

Definition test_configuration : D unit :=
  say LnConfiguration ;;-
  dtry (response <-- run (send net (Get "https://api.ipify.org?format=json")) ;;
        ip_info <-- run (json (snd response)) ;;
        ip <-- dlift (py_get ip_info "ip" (PStr "Desconocida")) ;;
        say (LnPublicIp ip))
       (say LnNoNetworkInfo).

Definition recommendations (working_rpcs : list string) : D unit :=
  say LnRecommendations ;;-
  (if negb (nonempty working_rpcs) then say LnCritical
   else say (LnSomeWork (List.length working_rpcs) (List.length RPC_ENDPOINTS))) ;;-
  say LnNextStep ;;-
  (if negb (nonempty working_rpcs) then say LnNextNetwork else say LnNextBrowser) ;;-
  say LnEnd.

(** The lines of [recommendations]. *)
Definition advice (working_rpcs : list string) : list line :=
  [LnRecommendations;
   if negb (nonempty working_rpcs) then LnCritical
   else LnSomeWork (List.length working_rpcs) (List.length RPC_ENDPOINTS);
   LnNextStep;
   if negb (nonempty working_rpcs) then LnNextNetwork else LnNextBrowser;
   LnEnd].

(** The script; [wallet_line] is the line that [input] reads. The model
    returns the endpoints that the first test kept. *)
Definition script (wallet_line : string) : D (list string) :=
  say LnBanner ;;-
  say LnTest1 ;;-
  working_rpcs <-- run (basic_tests net RPC_ENDPOINTS []) ;;
  results working_rpcs ;;-
  test2 wallet_line working_rpcs ;;-
  say LnTest3 ;;-
  test_dns ;;-
  test_http ;;-
  test_configuration ;;-
  recommendations working_rpcs ;;-
  dret working_rpcs.

End Script.

(** The endpoints that the loop of the second test asks, when the first of
    them is the [k]-th request of the run: up to the first that gives a
    balance. *)
Fixpoint asked (net : network) (wallet_input : string) (k : nat) (working_rpcs : list string)
  : list string :=
  match working_rpcs with
  | [] => []
  | rpc :: rest =>
      match answer_balance (net k (balance_request wallet_input rpc)) with
      | Some _ => [rpc]
      | None => rpc :: asked net wallet_input (S k) rest
      end
  end.

(** Whether that loop obtains a balance. *)
Fixpoint obtains (net : network) (wallet_input : string) (k : nat) (working_rpcs : list string)
  : bool :=
  match working_rpcs with
  | [] => false
  | rpc :: rest =>
      match answer_balance (net k (balance_request wallet_input rpc)) with
      | Some _ => true
      | None => obtains net wallet_input (S k) rest
      end
  end.

(** The lines of the loop of the second test. *)
Definition loop_line (l : line) : bool :=
  match l with LnUsing _ | LnObtained | LnFailed => true | _ => false end.

(** The lines of the recommendations. *)
Definition advice_line (l : line) : bool :=
  match l with
  | LnRecommendations | LnCritical | LnSomeWork _ _ | LnNextStep | LnNextNetwork
  | LnNextBrowser | LnEnd => true
  | _ => false
  end.

Definition is_failed (l : line) : bool :=
  match l with LnFailed => true | _ => false end.

Definition is_obtained (l : line) : bool :=
  match l with LnObtained => true | _ => false end.

(** No host is found. *)
Definition no_dns : string -> option exn := fun _ => Some (OtherError "gaierror").

End Avanzado.

(** * Proofs *)

(** ** Rounding to binary64 *)

Lemma iter_pos_nat {A} (f : A -> A) (p : positive) :
  forall x, iter_pos f p x = Nat.iter (Pos.to_nat p) f x.
Proof.
  induction p as [p IH | p IH |]; intros x; simpl iter_pos.
  - rewrite !IH, Pos2Nat.inj_xI. simpl Nat.iter.
    rewrite <- Nat.iter_add. replace (Pos.to_nat p + Pos.to_nat p)%nat with (2 * Pos.to_nat p)%nat by lia.
    now rewrite <- Nat.iter_succ_r.
  - rewrite !IH, Pos2Nat.inj_xO. rewrite <- Nat.iter_add.
    now replace (Pos.to_nat p + Pos.to_nat p)%nat with (2 * Pos.to_nat p)%nat by lia.
  - reflexivity.
Qed.

Lemma shr_1_nonneg (m : Z) (r s : bool) :
  0 <= m ->
  shr_1 (Build_shr_record m r s) = Build_shr_record (m / 2) (Z.odd m) (r || s).
Proof.
  intros Hm. destruct m as [|p|p]; [reflexivity | | lia].
  destruct p as [p|p|]; simpl shr_1; f_equal.
  - apply Z.div_unique with 1; lia.
  - apply Z.div_unique with 0; lia.
Qed.

(** After [n + 1] shifts. *)
Lemma shr_iter (a : Z) (n : nat) :
  0 <= a ->
  Nat.iter (S n) shr_1 (Build_shr_record a false false)
  = Build_shr_record (a / 2 ^ Z.of_nat (S n))
      (Z.odd (a / 2 ^ Z.of_nat n))
      (negb (a mod 2 ^ Z.of_nat n =? 0)).
Proof.
  intros Ha. induction n as [|n IH].
  - change (Nat.iter 1 shr_1 (Build_shr_record a false false))
      with (shr_1 (Build_shr_record a false false)).
    rewrite shr_1_nonneg by assumption.
    change (2 ^ Z.of_nat 0) with 1. rewrite Z.mod_1_r, Z.div_1_r. reflexivity.
  - rewrite Nat.iter_succ, IH.
    rewrite shr_1_nonneg by (apply Z.div_pos; lia).
    assert (P : 0 < 2 ^ Z.of_nat n) by (apply Z.pow_pos_nonneg; lia).
    assert (E : 2 ^ Z.of_nat (S n) = 2 ^ Z.of_nat n * 2)
      by (rewrite Nat2Z.inj_succ, Z.pow_succ_r; lia).
    f_equal.
    + rewrite (Nat2Z.inj_succ (S n)), Z.pow_succ_r by lia.
      rewrite Z.mul_comm, Z.div_div by lia. reflexivity.
    + rewrite E.
      rewrite Z.rem_mul_r by lia.
      rewrite <- Z.bit0_mod, Z.bit0_odd.
      destruct (Z.odd (a / 2 ^ Z.of_nat n)); simpl.
      * pose proof (Z.mod_pos_bound a (2 ^ Z.of_nat n) P).
        symmetry. apply negb_true_iff, Z.eqb_neq. lia.
      * now rewrite Z.mul_0_r, Z.add_0_r.
Qed.

Lemma round_shr (a : Z) (p : positive) :
  0 <= a ->
  round_nearest_even (shr_m (iter_pos shr_1 p (Build_shr_record a false false)))
    (loc_of_shr_record (iter_pos shr_1 p (Build_shr_record a false false)))
  = rne a (Zpos p).
Proof.
  intros Ha. rewrite iter_pos_nat.
  destruct (Pos2Nat.is_succ p) as [n Hn]. rewrite Hn, shr_iter by assumption.
  assert (Hp : Zpos p = Z.of_nat (S n)) by lia.
  rewrite Hp. unfold rne.
  replace (Z.of_nat (S n) - 1) with (Z.of_nat n) by lia.
  assert (P : 0 < 2 ^ Z.of_nat n) by (apply Z.pow_pos_nonneg; lia).
  assert (E : 2 ^ Z.of_nat (S n) = 2 ^ Z.of_nat n * 2)
    by (rewrite Nat2Z.inj_succ, Z.pow_succ_r; lia).
  set (q := a / 2 ^ Z.of_nat (S n)).
  rewrite E, Z.rem_mul_r by lia.
  rewrite <- Z.bit0_mod, Z.bit0_odd.
  pose proof (Z.mod_pos_bound a (2 ^ Z.of_nat n) P) as Hr.
  cbn [shr_m loc_of_shr_record].
  destruct (Z.odd (a / 2 ^ Z.of_nat n)) eqn:Ho;
    destruct (Z.eqb_spec (a mod 2 ^ Z.of_nat n) 0) as [Hz | Hz];
    cbn [negb round_nearest_even Z.b2z].
  - rewrite Hz. replace (0 + 2 ^ Z.of_nat n * 1) with (2 ^ Z.of_nat n) by lia.
    rewrite Z.ltb_irrefl. reflexivity.
  - destruct (Z.ltb_spec (a mod 2 ^ Z.of_nat n + 2 ^ Z.of_nat n * 1) (2 ^ Z.of_nat n)); [lia|].
    destruct (Z.ltb_spec (2 ^ Z.of_nat n) (a mod 2 ^ Z.of_nat n + 2 ^ Z.of_nat n * 1)); [reflexivity | lia].
  - destruct (Z.ltb_spec (a mod 2 ^ Z.of_nat n + 2 ^ Z.of_nat n * 0) (2 ^ Z.of_nat n)); [reflexivity | lia].
  - destruct (Z.ltb_spec (a mod 2 ^ Z.of_nat n + 2 ^ Z.of_nat n * 0) (2 ^ Z.of_nat n)); [reflexivity | lia].
Qed.

Lemma digits2_size (p : positive) : digits2_pos p = Pos.size p.
Proof. induction p; simpl; now rewrite ?IHp. Qed.

(** The number of binary digits frames the number. *)
Lemma digits_bounds (p : positive) :
  2 ^ (Zpos (digits2_pos p) - 1) <= Zpos p < 2 ^ Zpos (digits2_pos p).
Proof.
  rewrite digits2_size. split.
  - pose proof (Pos.size_le p) as H.
    assert (H' : 2 ^ Zpos (Pos.size p) <= 2 * Zpos p).
    { rewrite <- Pos2Z.inj_pow. change (2 * Zpos p) with (Zpos p~0). now apply Pos2Z.pos_le_pos. }
    replace (Zpos (Pos.size p)) with (Z.succ (Zpos (Pos.size p) - 1)) in H' by lia.
    rewrite Z.pow_succ_r in H' by lia. lia.
  - pose proof (Pos.size_gt p) as H.
    rewrite <- Pos2Z.inj_pow. now apply Pos2Z.pos_lt_pos.
Qed.

Lemma fexp_eq (e : Z) : fexp prec emax e = Z.max (e - 53) (-1074).
Proof. reflexivity. Qed.

Lemma pow2_pos (n : Z) : 0 <= n -> 0 < 2 ^ n.
Proof. intros H. apply Z.pow_pos_nonneg; lia. Qed.

Lemma digits_unique (x d : Z) :
  2 ^ (d - 1) <= x < 2 ^ d -> 0 < d -> Zdigits2 x = d.
Proof.
  intros [Hl Hu] Hd.
  assert (Hx : 0 < x) by (pose proof (pow2_pos (d - 1)); lia).
  destruct x as [|p|p]; try lia. simpl Zdigits2.
  pose proof (digits_bounds p) as [Bl Bu].
  set (d' := Zpos (digits2_pos p)) in *.
  assert (d' - 1 < d) by (apply (Z.pow_lt_mono_r_iff 2); lia).
  assert (d - 1 < d') by (apply (Z.pow_lt_mono_r_iff 2); lia).
  lia.
Qed.

Lemma digits_shift (p : positive) (j : Z) :
  0 <= j -> Zdigits2 (Zpos p * 2 ^ j) = Zpos (digits2_pos p) + j.
Proof.
  intros Hj. apply digits_unique; [|lia].
  pose proof (digits_bounds p) as [Bl Bu].
  pose proof (pow2_pos j Hj).
  replace (Zpos (digits2_pos p) + j - 1) with (Zpos (digits2_pos p) - 1 + j) by lia.
  rewrite !Z.pow_add_r by lia. nia.
Qed.

Lemma rne_exact (c k : Z) : 0 < k -> rne (c * 2 ^ k) k = c.
Proof.
  intros Hk. unfold rne.
  pose proof (pow2_pos k ltac:(lia)). pose proof (pow2_pos (k - 1) ltac:(lia)).
  rewrite Z.mod_mul, Z.div_mul by lia.
  destruct (Z.ltb_spec 0 (2 ^ (k - 1))); [reflexivity | lia].
Qed.

Lemma rne_scale (x k j : Z) :
  0 < k -> 0 <= j -> rne (x * 2 ^ j) (k + j) = rne x k.
Proof.
  intros Hk Hj. unfold rne.
  pose proof (pow2_pos k ltac:(lia)). pose proof (pow2_pos j Hj).
  pose proof (pow2_pos (k - 1) ltac:(lia)).
  replace (k + j - 1) with (k - 1 + j) by lia.
  rewrite !Z.pow_add_r by lia.
  rewrite Z.div_mul_cancel_r by lia.
  rewrite Z.mul_mod_distr_r by lia.
  assert (L : forall a b, (a * 2 ^ j <? b * 2 ^ j) = (a <? b)).
  { intros a b. destruct (Z.ltb_spec a b), (Z.ltb_spec (a * 2 ^ j) (b * 2 ^ j));
      try reflexivity; nia. }
  now rewrite !L.
Qed.

Lemma shift_pos_pow (p d : positive) : Zpos (Pos.iter xO p d) = Zpos p * 2 ^ Zpos d.
Proof.
  change (Pos.iter xO p d) with (shift_pos d p).
  rewrite shift_pos_correct. rewrite Zpower_pos_nat, Zpower_nat_Z, positive_nat_Z. lia.
Qed.

(** Rounding a positive number given by mantissa and exponent is rounding
    its value. *)
Lemma binary_round_value (p : positive) (e : Z) :
  - bias <= e ->
  binary_round prec emax false p e = round_value (Zpos p * 2 ^ (e + bias)).
Proof.
  intros He. unfold round_value, format_exp.
  rewrite digits_shift by lia.
  replace (Zpos (digits2_pos p) + (e + bias) - bias) with (Zpos (digits2_pos p) + e) by lia.
  set (E := fexp prec emax (Zpos (digits2_pos p) + e)).
  assert (HE : -1074 <= E) by (unfold E; rewrite fexp_eq; lia).
  unfold binary_round, shl_align. fold E.
  destruct (E - e) as [|k|k] eqn:Hk.
  - (* already at the exponent of the format *)
    unfold binary_round_aux, shr_fexp. cbn [Zdigits2]. fold E. rewrite Hk.
    cbn [shr shr_record_of_loc shr_m loc_of_shr_record round_nearest_even].
    replace e with E by lia. rewrite rne_exact by (unfold bias; lia). reflexivity.
  - (* digits are dropped *)
    unfold binary_round_aux, shr_fexp. cbn [Zdigits2]. fold E. rewrite Hk.
    cbn [shr shr_record_of_loc].
    rewrite round_shr by lia.
    replace (e + Zpos k) with E by lia.
    replace (E + bias) with (Zpos k + (e + bias)) by lia.
    rewrite rne_scale by (unfold bias in *; lia). reflexivity.
  - (* the mantissa is extended *)
    rewrite shift_pos_pow.
    unfold binary_round_aux, shr_fexp.
    rewrite digits_shift by lia.
    replace (Zpos (digits2_pos p) + Zpos k + E) with (Zpos (digits2_pos p) + e) by lia.
    fold E. rewrite Z.sub_diag.
    cbn [shr shr_record_of_loc shr_m loc_of_shr_record round_nearest_even].
    replace (e + bias) with (Zpos k + (E + bias)) by lia.
    rewrite Z.pow_add_r, Z.mul_assoc by (unfold bias; lia).
    rewrite rne_exact by (unfold bias; lia). reflexivity.
Qed.

Lemma digits_le (x y : Z) : 0 < x <= y -> Zdigits2 x <= Zdigits2 y.
Proof.
  intros [Hx Hxy]. destruct x as [|p|p]; try lia. destruct y as [|q|q]; try lia.
  simpl. pose proof (digits_bounds p) as [Bl _]. pose proof (digits_bounds q) as [_ Bu].
  assert (Zpos (digits2_pos p) - 1 < Zpos (digits2_pos q))
    by (apply (Z.pow_lt_mono_r_iff 2); lia).
  lia.
Qed.

Lemma digits_upper (x d : Z) : 0 <= x < 2 ^ d -> 0 <= d -> Zdigits2 x <= d.
Proof.
  intros [Hx Hu] Hd. destruct x as [|p|p]; try lia; simpl; [lia|].
  pose proof (digits_bounds p) as [Bl _].
  assert (Zpos (digits2_pos p) - 1 < d) by (apply (Z.pow_lt_mono_r_iff 2); lia).
  lia.
Qed.

Lemma finish_small (M E : Z) :
  0 <= M < 2 ^ 53 -> -1074 <= E -> finish M E = pack M E.
Proof.
  intros HM HE. unfold finish, shr_fexp.
  pose proof (digits_upper M 53 HM ltac:(lia)) as Hd.
  assert (0 <= Zdigits2 M) by (destruct M; simpl; lia).
  rewrite fexp_eq.
  destruct (Z.max (Zdigits2 M + E - 53) (-1074) - E) as [|k|k] eqn:Hk; try lia;
    cbn [shr shr_record_of_loc shr_m]; reflexivity.
Qed.

Lemma finish_carry (E : Z) : -1074 <= E -> finish (2 ^ 53) E = pack (2 ^ 52) (E + 1).
Proof.
  intros HE. unfold finish, shr_fexp.
  change (Zdigits2 (2 ^ 53)) with 54. rewrite fexp_eq.
  replace (Z.max (54 + E - 53) (-1074) - E) with 1 by lia.
  reflexivity.
Qed.

Lemma rne_bounds (x k : Z) : 0 <= x -> 0 < k -> x / 2 ^ k <= rne x k <= x / 2 ^ k + 1.
Proof.
  intros Hx Hk. unfold rne.
  destruct (x mod 2 ^ k <? 2 ^ (k - 1)); [lia|].
  destruct (2 ^ (k - 1) <? x mod 2 ^ k); [lia|].
  destruct (Z.even (x / 2 ^ k)); lia.
Qed.

Lemma rne_mono (x y k : Z) : 0 <= x <= y -> 0 < k -> rne x k <= rne y k.
Proof.
  intros [Hx Hxy] Hk.
  pose proof (pow2_pos k ltac:(lia)) as P.
  assert (Hq : x / 2 ^ k <= y / 2 ^ k) by (apply Z.div_le_mono; lia).
  destruct (Z.eq_dec (x / 2 ^ k) (y / 2 ^ k)) as [Heq | Hne].
  - assert (Hr : x mod 2 ^ k <= y mod 2 ^ k).
    { pose proof (Z.div_mod x (2 ^ k)). pose proof (Z.div_mod y (2 ^ k)). nia. }
    unfold rne. rewrite <- Heq.
    destruct (Z.ltb_spec (x mod 2 ^ k) (2 ^ (k - 1)));
      destruct (Z.ltb_spec (y mod 2 ^ k) (2 ^ (k - 1)));
      destruct (Z.ltb_spec (2 ^ (k - 1)) (x mod 2 ^ k));
      destruct (Z.ltb_spec (2 ^ (k - 1)) (y mod 2 ^ k));
      destruct (Z.even (x / 2 ^ k)); lia.
  - pose proof (rne_bounds x k Hx Hk). pose proof (rne_bounds y k ltac:(lia) Hk). lia.
Qed.

Lemma rne_upper (x k n : Z) : 0 <= x < 2 ^ (k + n) -> 0 < k -> 0 <= n -> rne x k <= 2 ^ n.
Proof.
  intros [Hx Hu] Hk Hn.
  pose proof (rne_bounds x k Hx Hk).
  assert (x / 2 ^ k < 2 ^ n).
  { apply Z.div_lt_upper_bound; [apply pow2_pos; lia|]. now rewrite <- Z.pow_add_r by lia. }
  lia.
Qed.

Lemma rne_lower (x k n : Z) : 2 ^ (k + n) <= x -> 0 < k -> 0 <= n -> 2 ^ n <= rne x k.
Proof.
  intros Hl Hk Hn.
  assert (0 <= x) by (pose proof (pow2_pos (k + n)); lia).
  pose proof (rne_bounds x k H Hk).
  assert (2 ^ n <= x / 2 ^ k).
  { apply Z.div_le_lower_bound; [apply pow2_pos; lia|]. now rewrite <- Z.pow_add_r by lia. }
  lia.
Qed.

Lemma format_exp_bounds (x : Z) :
  0 < x ->
  -1074 <= format_exp x
  /\ x < 2 ^ (format_exp x + bias + 53)
  /\ (-1074 < format_exp x -> 2 ^ (format_exp x + bias + 52) <= x).
Proof.
  intros Hx. unfold format_exp. rewrite fexp_eq.
  destruct x as [|p|p]; try lia. simpl Zdigits2.
  pose proof (digits_bounds p) as [Bl Bu].
  set (d := Zpos (digits2_pos p)) in *.
  assert (Hd : 0 < d) by (unfold d; lia).
  split; [lia|]. split.
  - eapply Z.lt_le_trans; [exact Bu|]. apply Z.pow_le_mono_r; unfold bias; lia.
  - intros H. replace (Z.max (d - bias - 53) (-1074) + bias + 52) with (d - 1) by (unfold bias in *; lia).
    exact Bl.
Qed.

Lemma round_value_pack (x : Z) :
  0 < x ->
  exists M E,
    round_value x = pack M E /\ canon M E
    /\ M * 2 ^ (E + bias) = rne x (format_exp x + bias) * 2 ^ (format_exp x + bias).
Proof.
  intros Hx. destruct (format_exp_bounds x Hx) as [HE [Hu Hl]].
  set (E := format_exp x) in *. unfold round_value. fold E.
  assert (Hk : 0 < E + bias) by (unfold bias; lia).
  assert (HM : rne x (E + bias) <= 2 ^ 53) by (apply rne_upper; lia).
  assert (HM0 : 0 <= rne x (E + bias)).
  { pose proof (rne_bounds x (E + bias) ltac:(lia) Hk).
    pose proof (pow2_pos (E + bias) ltac:(lia)) as P.
    pose proof (Z.div_pos x (2 ^ (E + bias)) ltac:(lia) P). lia. }
  assert (HMl : -1074 < E -> 2 ^ 52 <= rne x (E + bias)).
  { intros H. apply rne_lower; lia. }
  destruct (Z.eq_dec (rne x (E + bias)) (2 ^ 53)) as [Heq | Hne].
  - exists (2 ^ 52), (E + 1). rewrite Heq, finish_carry by assumption.
    split; [reflexivity|]. split.
    + unfold canon. split; [|split]; try lia.
    + replace (E + 1 + bias) with (1 + (E + bias)) by lia.
      rewrite Z.pow_add_r by lia. change (2 ^ 53) with (2 ^ 52 * 2 ^ 1). lia.
  - exists (rne x (E + bias)), E. rewrite finish_small by lia.
    split; [reflexivity|]. split; [|reflexivity].
    unfold canon. split; [|split]; lia.
Qed.

Lemma format_exp_le (x y : Z) : 0 < x <= y -> format_exp x <= format_exp y.
Proof.
  intros H. unfold format_exp. rewrite !fexp_eq.
  pose proof (digits_le x y H). lia.
Qed.

(** Rounding to the format is monotone on the values. *)
Lemma rounded_mono (x y : Z) :
  0 < x <= y ->
  rne x (format_exp x + bias) * 2 ^ (format_exp x + bias)
  <= rne y (format_exp y + bias) * 2 ^ (format_exp y + bias).
Proof.
  intros [Hx Hxy].
  destruct (format_exp_bounds x Hx) as [HEx [Hux _]].
  destruct (format_exp_bounds y ltac:(lia)) as [HEy [_ Hly]].
  pose proof (format_exp_le x y ltac:(lia)) as HE.
  set (Ex := format_exp x) in *. set (Ey := format_exp y) in *.
  assert (Hkx : 0 < Ex + bias) by (unfold bias; lia).
  assert (Hky : 0 < Ey + bias) by (unfold bias; lia).
  destruct (Z.eq_dec Ex Ey) as [Heq | Hne].
  - rewrite Heq. apply Z.mul_le_mono_nonneg_r; [apply Z.lt_le_incl, pow2_pos; lia|].
    rewrite <- Heq. apply rne_mono; lia.
  - assert (H1 : rne x (Ex + bias) <= 2 ^ 53) by (apply rne_upper; lia).
    assert (H2 : 2 ^ 52 <= rne y (Ey + bias)) by (apply rne_lower; try lia; apply Hly; lia).
    pose proof (pow2_pos (Ex + bias) ltac:(lia)) as Px.
    pose proof (pow2_pos (Ey + bias) ltac:(lia)) as Py.
    apply Z.le_trans with (2 ^ 53 * 2 ^ (Ex + bias)); [nia|].
    apply Z.le_trans with (2 ^ 52 * 2 ^ (Ey + bias)); [|nia].
    rewrite <- !Z.pow_add_r by lia. apply Z.pow_le_mono_r; lia.
Qed.

Lemma canon_digits (M E : Z) :
  canon M E -> 0 < M -> fexp prec emax (Zdigits2 M + E) = E.
Proof.
  intros [HM [HE Hn]] Hp. rewrite fexp_eq.
  destruct (Z.eq_dec E (-1074)) as [-> | Hne].
  - pose proof (digits_upper M 53 HM ltac:(lia)). lia.
  - rewrite (digits_unique M 53); [lia | | lia].
    change (53 - 1) with 52. split; [apply Hn|]; lia.
Qed.

Lemma pack_valid (M E : Z) : canon M E -> valid (pack M E) = true /\ 0 <= value (pack M E).
Proof.
  intros HC. pose proof HC as [HM [HE Hn]].
  unfold pack. destruct M as [|m|m]; try lia.
  - now split.
  - destruct (Z.leb_spec E (emax - prec)) as [Hb | Hb].
    + split.
      * unfold valid, valid_binary, bounded, canonical_mantissa.
        change (Zpos (digits2_pos m)) with (Zdigits2 (Zpos m)).
        rewrite (canon_digits _ _ HC) by lia. rewrite Z.eqb_refl. now apply Z.leb_le.
      * cbn [value]. pose proof (pow2_pos (E + bias) ltac:(unfold bias; lia)). nia.
    + split; [reflexivity|]. cbn [value]. apply Z.lt_le_incl, pow2_pos. unfold bias, emax; lia.
Qed.

(** On canonical forms the order of the values is the order of the
    exponents, then of the mantissas. *)
Lemma canon_exp_le (M1 E1 M2 E2 : Z) :
  canon M1 E1 -> canon M2 E2 -> 0 < M1 ->
  M1 * 2 ^ (E1 + bias) <= M2 * 2 ^ (E2 + bias) ->
  E1 <= E2.
Proof.
  intros [HM1 [HE1 Hn1]] [HM2 [HE2 Hn2]] Hp Hle.
  destruct (Z.le_gt_cases E1 E2) as [H | H]; [assumption | exfalso].
  pose proof (pow2_pos (E2 + bias) ltac:(unfold bias; lia)) as P2.
  assert (Hs : 2 ^ (E1 + bias) = 2 ^ (E1 - E2 - 1) * 2 * 2 ^ (E2 + bias)).
  { rewrite <- (Z.pow_1_r 2) at 3. rewrite <- !Z.pow_add_r by (unfold bias; lia).
    f_equal. lia. }
  pose proof (pow2_pos (E1 - E2 - 1) ltac:(lia)) as P3.
  specialize (Hn1 ltac:(lia)).
  rewrite Hs in Hle.
  assert (M1 * (2 ^ (E1 - E2 - 1) * 2) <= M2) by nia.
  change (2 ^ 53) with (2 ^ 52 * 2) in HM2. nia.
Qed.

Lemma pack_mono (M1 E1 M2 E2 : Z) :
  canon M1 E1 -> canon M2 E2 ->
  M1 * 2 ^ (E1 + bias) <= M2 * 2 ^ (E2 + bias) ->
  value (pack M1 E1) <= value (pack M2 E2).
Proof.
  intros C1 C2 Hle.
  destruct (pack_valid M2 E2 C2) as [_ Hv2].
  pose proof C1 as [HM1 [HE1 Hn1]]. pose proof C2 as [HM2 [HE2 Hn2]].
  destruct M1 as [|m1|m1]; try lia; [exact Hv2|].
  pose proof (canon_exp_le _ _ _ _ C1 C2 ltac:(lia) Hle) as HE.
  pose proof (pow2_pos (E1 + bias) ltac:(unfold bias; lia)) as P1.
  pose proof (pow2_pos (E2 + bias) ltac:(unfold bias; lia)) as P2.
  destruct M2 as [|m2|m2]; try lia.
  unfold pack.
  destruct (Z.leb_spec E2 (emax - prec)) as [Hb2 | Hb2].
  - destruct (Z.leb_spec E1 (emax - prec)) as [Hb1 | Hb1]; [exact Hle | lia].
  - destruct (Z.leb_spec E1 (emax - prec)) as [Hb1 | Hb1]; [|cbn [value]; lia].
    cbn [value].
    apply Z.le_trans with (2 ^ 53 * 2 ^ (E1 + bias)); [nia|].
    rewrite <- Z.pow_add_r by (unfold bias; lia).
    apply Z.pow_le_mono_r; unfold bias, emax, prec in *; lia.
Qed.

(** Rounding is monotone, and gives floats of the format. *)
Lemma round_value_mono (x y : Z) :
  0 < x <= y -> value (round_value x) <= value (round_value y).
Proof.
  intros H.
  destruct (round_value_pack x ltac:(lia)) as [M1 [E1 [-> [C1 V1]]]].
  destruct (round_value_pack y ltac:(lia)) as [M2 [E2 [-> [C2 V2]]]].
  apply pack_mono; try assumption.
  rewrite V1, V2. now apply rounded_mono.
Qed.

Lemma round_value_valid (x : Z) :
  0 < x -> valid (round_value x) = true /\ 0 <= value (round_value x).
Proof.
  intros H. destruct (round_value_pack x H) as [M [E [-> [C _]]]]. now apply pack_valid.
Qed.

Lemma valid_canon (m : positive) (e : Z) :
  valid (S754_finite false m e) = true -> canon (Zpos m) e /\ e <= emax - prec.
Proof.
  unfold valid, valid_binary, bounded, canonical_mantissa.
  intros H. apply andb_true_iff in H as [Hc Hb].
  apply Z.eqb_eq in Hc. apply Z.leb_le in Hb. rewrite fexp_eq in Hc.
  pose proof (digits_bounds m) as [Bl Bu].
  set (d := Zpos (digits2_pos m)) in *.
  split; [|assumption]. unfold canon. split; [|split].
  - split; [lia|]. eapply Z.lt_le_trans; [exact Bu|]. apply Z.pow_le_mono_r; lia.
  - lia.
  - intros He. replace 52 with (d - 1) by lia. exact Bl.
Qed.

(** Rounding a value of the format gives it back. *)
Lemma round_value_id (M E : Z) :
  canon M E -> 0 < M -> round_value (M * 2 ^ (E + bias)) = pack M E.
Proof.
  intros C Hp. pose proof C as [HM [HE Hn]].
  assert (Hf : format_exp (M * 2 ^ (E + bias)) = E).
  { unfold format_exp. destruct M as [|m|m]; try lia.
    rewrite digits_shift by (unfold bias; lia).
    replace (Zpos (digits2_pos m) + (E + bias) - bias) with (Zdigits2 (Zpos m) + E)
      by (cbn [Zdigits2]; lia).
    now apply canon_digits. }
  unfold round_value. rewrite Hf, rne_exact by (unfold bias; lia).
  apply finish_small; lia.
Qed.

Lemma valid_round_value (m : positive) (e : Z) :
  valid (S754_finite false m e) = true ->
  round_value (value (S754_finite false m e)) = S754_finite false m e.
Proof.
  intros H. apply valid_canon in H as [C Hb].
  cbn [value]. rewrite round_value_id by (assumption || lia).
  unfold pack. now apply Z.leb_le in Hb as ->.
Qed.

Lemma value_finite_lt (m : positive) (e : Z) :
  valid (S754_finite false m e) = true ->
  0 < value (S754_finite false m e) < 2 ^ (emax + bias).
Proof.
  intros H. apply valid_canon in H as [[HM [HE Hn]] Hb]. cbn [value].
  pose proof (pow2_pos (e + bias) ltac:(unfold bias; lia)) as P.
  split; [nia|].
  apply Z.lt_le_trans with (2 ^ 53 * 2 ^ (e + bias)); [nia|].
  rewrite <- Z.pow_add_r by (unfold bias; lia).
  apply Z.pow_le_mono_r; unfold bias, emax, prec in *; lia.
Qed.

(** On non-negative floats of the format, [<=] is the order of the
    values. *)
Lemma leb_value (x y : float) :
  valid x = true -> valid y = true -> 0 <= value x -> 0 <= value y ->
  value x <= value y -> leb x y = true.
Proof.
  intros Vx Vy Hx Hy Hle.
  destruct x as [sx | [|] | | [|] mx ex]; cbn [value] in Hx; try lia;
    destruct y as [sy | [|] | | [|] my ey]; cbn [value] in Hy; try lia;
    try reflexivity;
    try (pose proof (value_finite_lt _ _ Vx)); try (pose proof (value_finite_lt _ _ Vy));
    cbn [value] in *; try lia.
  - pose proof (pow2_pos (emax + bias) ltac:(unfold emax, bias; lia)). lia.
  - pose proof (valid_canon mx ex Vx) as [Cx _].
    pose proof (valid_canon my ey Vy) as [Cy _].
    pose proof (canon_exp_le _ _ _ _ Cx Cy ltac:(lia) Hle) as HE.
    unfold leb, SFleb, SFcompare.
    destruct (Z.compare_spec ex ey) as [Heq | Hlt | Hgt]; [| reflexivity | lia].
    subst ey. rewrite Pos.compare_cont_spec. cbn [Pos.switch_Eq].
    pose proof (pow2_pos (ex + bias) ltac:(destruct Cx as [_ [? _]]; unfold bias; lia)) as P.
    assert (Hm : (mx <= my)%positive) by (apply Pos2Z.pos_le_pos; nia).
    apply Pos.compare_le_iff in Hm.
    destruct (mx ?= my)%positive; try reflexivity. now destruct Hm.
Qed.

Lemma round_Z_value (n : Z) : 0 < n -> round_Z n = round_value (n * 2 ^ bias).
Proof.
  intros Hn. destruct n as [|p|p]; try lia.
  unfold round_Z, binary_normalize.
  now rewrite binary_round_value by (unfold bias; lia).
Qed.

Lemma mul_finite (mx : positive) (ex : Z) (mp : positive) (ep : Z) :
  valid (S754_finite false mx ex) = true ->
  valid (S754_finite false mp ep) = true ->
  mul (S754_finite false mx ex) (S754_finite false mp ep)
  = round_value (Zpos mx * Zpos mp * 2 ^ (ex + ep + bias)).
Proof.
  intros Vx Vp.
  apply valid_canon in Vx as [[Hmx [Hex Hnx]] _].
  apply valid_canon in Vp as [[Hmp [Hep Hnp]] _].
  rewrite <- Pos2Z.inj_mul.
  rewrite <- binary_round_value by (unfold bias; lia).
  unfold mul, SFmul, binary_round, shl_align. cbn [xorb].
  rewrite fexp_eq.
  assert (Hd : 0 < Zpos (digits2_pos (mx * mp))) by lia.
  assert (HD : -1074 < ex -> -1074 < ep -> 105 <= Zpos (digits2_pos (mx * mp))).
  { intros H1 H2. specialize (Hnx H1). specialize (Hnp H2).
    change (Zpos (digits2_pos (mx * mp))) with (Zdigits2 (Zpos (mx * mp))).
    rewrite <- (digits_unique (2 ^ 104) 105) by (try split; try reflexivity; lia).
    apply digits_le. split; [reflexivity|].
    rewrite Pos2Z.inj_mul. change (2 ^ 104) with (2 ^ 52 * 2 ^ 52). nia. }
  assert (HD1 : -1074 < ex -> 53 <= Zpos (digits2_pos (mx * mp))).
  { intros H1. specialize (Hnx H1).
    change (Zpos (digits2_pos (mx * mp))) with (Zdigits2 (Zpos (mx * mp))).
    rewrite <- (digits_unique (2 ^ 52) 53) by (try split; try reflexivity; lia).
    apply digits_le. split; [reflexivity|]. rewrite Pos2Z.inj_mul. nia. }
  assert (HD2 : -1074 < ep -> 53 <= Zpos (digits2_pos (mx * mp))).
  { intros H1. specialize (Hnp H1).
    change (Zpos (digits2_pos (mx * mp))) with (Zdigits2 (Zpos (mx * mp))).
    rewrite <- (digits_unique (2 ^ 52) 53) by (try split; try reflexivity; lia).
    apply digits_le. split; [reflexivity|]. rewrite Pos2Z.inj_mul. nia. }
  destruct (Z.max (Zpos (digits2_pos (mx * mp)) + (ex + ep) - 53) (-1074) - (ex + ep))
    as [|k|k] eqn:Hk; try reflexivity.
  exfalso. lia.
Qed.

Lemma shl_align_value (m : positive) (e ez : Z) :
  ez <= e -> Zpos (fst (shl_align m e ez)) = Zpos m * 2 ^ (e - ez).
Proof.
  intros H. unfold shl_align.
  destruct (ez - e) as [|k|k] eqn:Hk; try lia; cbn [fst].
  - replace (e - ez) with 0 by lia. lia.
  - rewrite shift_pos_pow. f_equal. f_equal. lia.
Qed.

Lemma add_finite (mx : positive) (ex : Z) (mc : positive) (ec : Z) :
  - bias <= ex -> - bias <= ec ->
  add (S754_finite false mx ex) (S754_finite false mc ec)
  = round_value (value (S754_finite false mx ex) + value (S754_finite false mc ec)).
Proof.
  intros Hx Hc. unfold add, SFadd. cbn [cond_Zopp value].
  set (ez := Z.min ex ec).
  rewrite !shl_align_value by (unfold ez; lia).
  pose proof (pow2_pos (ex - ez) ltac:(unfold ez; lia)).
  pose proof (pow2_pos (ec - ez) ltac:(unfold ez; lia)).
  destruct (Zpos mx * 2 ^ (ex - ez) + Zpos mc * 2 ^ (ec - ez)) as [|s|s] eqn:Hs; try nia.
  unfold binary_normalize.
  rewrite binary_round_value by (unfold ez; lia).
  rewrite <- Hs. f_equal.
  rewrite Z.mul_add_distr_r, <- !Z.mul_assoc, <- !Z.pow_add_r by (unfold ez, bias in *; lia).
  f_equal; f_equal; f_equal; lia.
Qed.

Lemma round0_nonneg (v : Z) : 0 <= v -> nonneg (round0 v).
Proof.
  intros H. unfold round0. destruct (Z.eqb_spec v 0).
  - now split.
  - apply round_value_valid. lia.
Qed.

Lemma round0_mono (u v : Z) : 0 <= u <= v -> value (round0 u) <= value (round0 v).
Proof.
  intros [Hu Huv]. unfold round0.
  destruct (Z.eqb_spec u 0) as [-> | Hnu].
  - apply (round0_nonneg v). lia.
  - destruct (Z.eqb_spec v 0); [lia|]. apply round_value_mono. lia.
Qed.

Lemma nonneg_cases (x : float) :
  nonneg x ->
  (exists s, x = S754_zero s)
  \/ (exists m e, x = S754_finite false m e /\ valid x = true)
  \/ x = S754_infinity false.
Proof.
  intros [V H]. destruct x as [s | [|] | | [|] m e]; cbn [value] in H; try lia; eauto.
  right. left. eauto.
Qed.

Lemma round_Z_round0 (n : Z) : 0 <= n -> round_Z n = round0 (n * 2 ^ bias).
Proof.
  intros H. unfold round0.
  pose proof (pow2_pos bias ltac:(unfold bias; lia)) as P.
  destruct (Z.eqb_spec (n * 2 ^ bias) 0) as [Hz | Hz].
  - assert (n = 0) by nia. now subst n.
  - apply round_Z_value. nia.
Qed.

Lemma mul_value (x p : float) :
  nonneg x -> is_inf x = false -> nonneg p -> is_inf p = false ->
  nonneg (mul x p)
  /\ value (mul x p) = value (round0 (value x * value p / 2 ^ bias)).
Proof.
  intros Nx Ix Np Ip.
  assert (Z0 : forall s, nonneg (S754_zero s) /\ value (S754_zero s) = value (round0 0))
    by (intros s; repeat split; cbn [value]; lia).
  destruct (nonneg_cases x Nx) as [[sx ->] | [[mx [ex [-> Vx]]] | ->]]; [| |discriminate];
    (destruct (nonneg_cases p Np) as [[sp ->] | [[mp [ep [-> Vp]]] | ->]]; [| |discriminate]);
    cbn [value]; rewrite ?Z.mul_0_l, ?Z.mul_0_r, ?Z.div_0_l
      by (pose proof (pow2_pos bias ltac:(unfold bias; lia)); lia);
    try apply Z0.
  rewrite mul_finite by assumption.
  pose proof (valid_canon mx ex Vx) as [[_ [Hex _]] _].
  pose proof (valid_canon mp ep Vp) as [[_ [Hep _]] _].
  pose proof (pow2_pos bias ltac:(unfold bias; lia)) as P.
  pose proof (pow2_pos (ex + ep + bias) ltac:(unfold bias; lia)) as P'.
  assert (E : Zpos mx * 2 ^ (ex + bias) * (Zpos mp * 2 ^ (ep + bias))
              = Zpos mx * Zpos mp * 2 ^ (ex + ep + bias) * 2 ^ bias).
  { assert (Hp : 2 ^ (ex + bias) * 2 ^ (ep + bias) = 2 ^ (ex + ep + bias) * 2 ^ bias)
      by (rewrite <- !Z.pow_add_r by (unfold bias; lia); f_equal; lia).
    transitivity (Zpos mx * Zpos mp * (2 ^ (ex + bias) * 2 ^ (ep + bias))); [ring|].
    rewrite Hp. ring. }
  rewrite E, Z.div_mul by lia.
  unfold round0. destruct (Z.eqb_spec (Zpos mx * Zpos mp * 2 ^ (ex + ep + bias)) 0); [nia|].
  split; [|reflexivity]. apply round_value_valid. nia.
Qed.

Lemma add_value (y : float) (mc : positive) (ec : Z) :
  nonneg y -> is_inf y = false -> valid (S754_finite false mc ec) = true ->
  add y (S754_finite false mc ec) = round0 (value y + value (S754_finite false mc ec)).
Proof.
  intros Ny Iy Vc.
  pose proof (value_finite_lt mc ec Vc) as Hc.
  pose proof (valid_canon mc ec Vc) as [[_ [Hec _]] _].
  destruct (nonneg_cases y Ny) as [[s ->] | [[m [e [-> Vy]]] | ->]]; [| |discriminate].
  - change (value (S754_zero s)) with 0. cbn [add SFadd]. unfold round0. rewrite Z.add_0_l.
    destruct (Z.eqb_spec (value (S754_finite false mc ec)) 0); [lia|].
    symmetry. now apply valid_round_value.
  - pose proof (value_finite_lt m e Vy) as Hy.
    pose proof (valid_canon m e Vy) as [[_ [He _]] _].
    rewrite add_finite by (unfold bias; lia).
    unfold round0.
    destruct (Z.eqb_spec (value (S754_finite false m e) + value (S754_finite false mc ec)) 0);
      [lia | reflexivity].
Qed.

Lemma value_le_inf (x : float) : nonneg x -> value x <= 2 ^ (emax + bias).
Proof.
  intros N. destruct (nonneg_cases x N) as [[s ->] | [[m [e [-> V]]] | ->]]; cbn [value].
  - apply Z.lt_le_incl, pow2_pos. unfold emax, bias; lia.
  - pose proof (value_finite_lt m e V). cbn [value] in *. lia.
  - lia.
Qed.

Lemma value_inf (x : float) : nonneg x -> 2 ^ (emax + bias) <= value x -> x = S754_infinity false.
Proof.
  intros N H. destruct (nonneg_cases x N) as [[s ->] | [[m [e [-> V]]] | ->]]; cbn [value] in H.
  - pose proof (pow2_pos (emax + bias) ltac:(unfold emax, bias; lia)). lia.
  - pose proof (value_finite_lt m e V). cbn [value] in *. lia.
  - reflexivity.
Qed.

Lemma not_inf_below (x y : float) :
  nonneg x -> nonneg y -> value x <= value y -> is_inf y = false -> is_inf x = false.
Proof.
  intros Nx Ny H Iy. destruct (is_inf x) eqn:Ix; [|reflexivity].
  destruct x; try discriminate.
  destruct Nx as [_ Hx]. destruct s; cbn [value] in *; [lia|].
  rewrite (value_inf y Ny H) in Iy. discriminate.
Qed.

Lemma add_mono (y1 y2 : float) (mc : positive) (ec : Z) :
  nonneg y1 -> nonneg y2 -> value y1 <= value y2 ->
  valid (S754_finite false mc ec) = true ->
  leb (add y1 (S754_finite false mc ec)) (add y2 (S754_finite false mc ec)) = true.
Proof.
  intros N1 N2 H Vc.
  pose proof (value_finite_lt mc ec Vc) as Hc.
  assert (A : forall y, nonneg y ->
            nonneg (add y (S754_finite false mc ec))
            /\ (is_inf y = false ->
                add y (S754_finite false mc ec)
                = round0 (value y + value (S754_finite false mc ec)))
            /\ (is_inf y = true -> add y (S754_finite false mc ec) = S754_infinity false)).
  { intros y Ny. destruct (is_inf y) eqn:Iy.
    - destruct (nonneg_cases y Ny) as [[s ->] | [[m [e [-> V]]] | ->]]; try discriminate.
      split; [exact Ny | split; [discriminate | reflexivity]].
    - rewrite add_value by assumption. destruct Ny as [_ Hy].
      repeat split; try discriminate; apply round0_nonneg; lia. }
  destruct (A y1 N1) as [R1 [F1 I1]]. destruct (A y2 N2) as [R2 [F2 I2]].
  apply leb_value; try apply R1; try apply R2.
  destruct (is_inf y2) eqn:Iy2.
  - rewrite (I2 eq_refl). now apply value_le_inf.
  - rewrite (F2 eq_refl), (F1 (not_inf_below y1 y2 N1 N2 H Iy2)).
    apply round0_mono. destruct N1 as [_ H1]. lia.
Qed.

(** ** The quotient of two integers *)

Lemma located_shr_1 (mrs : shr_record) (n d : Z) :
  0 <= n -> 0 < d -> located mrs n d -> located (shr_1 mrs) n (2 * d).
Proof.
  intros Hn Hd [Hm [Hr Hs]]. destruct mrs as [m r s]. cbn [shr_m shr_r shr_s] in *.
  assert (Hm0 : 0 <= m) by (subst m; apply Z.div_pos; lia).
  rewrite shr_1_nonneg by assumption.
  pose proof (Z.mod_pos_bound n d Hd) as Hb.
  assert (Hrem : n mod (2 * d) = n mod d + d * (m mod 2)).
  { rewrite (Z.mul_comm 2 d), Z.rem_mul_r by lia. now subst m. }
  pose proof (Z.mod_pos_bound m 2 ltac:(lia)) as Hb2.
  unfold located. cbn [shr_m shr_r shr_s]. split; [|split].
  - subst m. rewrite Z.div_div by lia. f_equal. lia.
  - rewrite Hrem, Zodd_mod.
    destruct (Z.eqb_spec (m mod 2) 1);
      destruct (Z.leb_spec (2 * d) (2 * (n mod d + d * (m mod 2)))); try reflexivity; nia.
  - rewrite Hrem, Hr, Hs.
    assert (C : m mod 2 = 0 \/ m mod 2 = 1) by lia.
    destruct C as [-> | ->]; rewrite ?Z.mul_0_r, ?Z.mul_1_r, ?Z.add_0_r;
    destruct (Z.leb_spec d (2 * (n mod d)));
      destruct (Z.eqb_spec (n mod d) 0);
      destruct (Z.eqb_spec (2 * (n mod d)) d);
      repeat match goal with
        | |- context [?a =? ?b] => destruct (Z.eqb_spec a b)
        end;
      cbn [negb andb orb]; try reflexivity; try lia.
Qed.

Lemma located_iter (k : nat) (mrs : shr_record) (n d : Z) :
  0 <= n -> 0 < d -> located mrs n d ->
  located (Nat.iter k shr_1 mrs) n (d * 2 ^ Z.of_nat k).
Proof.
  intros Hn Hd H. induction k as [|k IH].
  - cbn [Nat.iter nat_rect]. change (2 ^ Z.of_nat 0) with 1. now rewrite Z.mul_1_r.
  - rewrite Nat.iter_succ, Nat2Z.inj_succ, Z.pow_succ_r by lia.
    replace (d * (2 * 2 ^ Z.of_nat k)) with (2 * (d * 2 ^ Z.of_nat k)) by lia.
    apply located_shr_1; try assumption.
    pose proof (pow2_pos (Z.of_nat k) ltac:(lia)). nia.
Qed.

Lemma located_round (mrs : shr_record) (n d : Z) :
  0 < d -> located mrs n d ->
  round_nearest_even (shr_m mrs) (loc_of_shr_record mrs) = rneq n d.
Proof.
  intros Hd [Hm [Hr Hs]]. destruct mrs as [m r s]. cbn [shr_m shr_r shr_s] in *.
  unfold rneq. rewrite <- Hm.
  pose proof (Z.mod_pos_bound n d Hd) as Hb.
  subst r s.
  destruct (Z.leb_spec d (2 * (n mod d)));
    destruct (Z.eqb_spec (n mod d) 0);
    destruct (Z.eqb_spec (2 * (n mod d)) d);
    destruct (Z.ltb_spec (2 * (n mod d)) d);
    destruct (Z.ltb_spec d (2 * (n mod d)));
    cbn [negb andb loc_of_shr_record round_nearest_even]; try reflexivity; lia.
Qed.

Lemma located_new_location (m b : Z) :
  0 <= m -> 0 < b ->
  located (shr_record_of_loc (m / b) (new_location b (m mod b))) m b.
Proof.
  intros Hm Hb. pose proof (Z.mod_pos_bound m b Hb) as Hr.
  unfold new_location, new_location_even, new_location_odd, located.
  destruct (Z.even b) eqn:Ev.
  - destruct (Z.eqb_spec (m mod b) 0) as [Hz | Hz].
    + cbn [shr_record_of_loc shr_m shr_r shr_s]. rewrite Hz.
      repeat split. destruct (Z.leb_spec b (2 * 0)); [lia | reflexivity].
    + destruct (Z.compare_spec (2 * (m mod b)) b);
        cbn [shr_record_of_loc shr_m shr_r shr_s]; repeat split;
        destruct (Z.leb_spec b (2 * (m mod b)));
        destruct (Z.eqb_spec (2 * (m mod b)) b); cbn [negb andb]; try reflexivity; lia.
  - assert (Ho : 2 * (m mod b) <> b).
    { intros E. rewrite <- E in Ev. rewrite Z.even_mul in Ev. discriminate. }
    destruct (Z.eqb_spec (m mod b) 0) as [Hz | Hz].
    + cbn [shr_record_of_loc shr_m shr_r shr_s]. rewrite Hz.
      repeat split. destruct (Z.leb_spec b (2 * 0)); [lia | reflexivity].
    + destruct (Z.compare_spec (2 * (m mod b) + 1) b);
        cbn [shr_record_of_loc shr_m shr_r shr_s]; repeat split;
        destruct (Z.leb_spec b (2 * (m mod b)));
        destruct (Z.eqb_spec (2 * (m mod b)) b); cbn [negb andb]; try reflexivity; lia.
Qed.

Lemma rneq_bounds (n d : Z) :
  0 <= n -> 0 < d -> n / d <= rneq n d <= n / d + 1 /\ 2 * Z.abs (rneq n d * d - n) <= d.
Proof.
  intros Hn Hd. unfold rneq.
  pose proof (Z.div_mod n d ltac:(lia)) as E.
  pose proof (Z.mod_pos_bound n d Hd) as Hb.
  destruct (Z.ltb_spec (2 * (n mod d)) d); [split; [lia | nia]|].
  destruct (Z.ltb_spec d (2 * (n mod d))); [split; [lia | nia]|].
  destruct (Z.even (n / d)); split; try lia; nia.
Qed.

Lemma digits_nonneg (x : Z) : 0 <= Zdigits2 x.
Proof. destruct x; simpl; lia. Qed.

Lemma digits_lower (x d : Z) : 0 <= d -> 2 ^ d <= x -> d + 1 <= Zdigits2 x.
Proof.
  intros Hd H. pose proof (pow2_pos d Hd).
  destruct x as [|p|p]; try lia. simpl.
  pose proof (digits_bounds p) as [_ Bu].
  assert (d < Zpos (digits2_pos p)) by (apply (Z.pow_lt_mono_r_iff 2); lia).
  lia.
Qed.

Lemma digits_pos_bounds (x : Z) : 0 < x -> 2 ^ (Zdigits2 x - 1) <= x < 2 ^ Zdigits2 x.
Proof. intros H. destruct x as [|p|p]; try lia. apply digits_bounds. Qed.

(** The quotient has enough digits for the format. *)
Lemma quot_digits (a b : Z) :
  0 < a -> 0 < b ->
  0 <= quot_shift a b <= 1074
  /\ - quot_shift a b <= quot_exp a b
  /\ -1074 <= quot_exp a b.
Proof.
  intros Ha Hb. unfold quot_exp, quot_shift. rewrite !fexp_eq.
  pose proof (digits_pos_bounds a Ha) as [Al Au].
  pose proof (digits_pos_bounds b Hb) as [Bl Bu].
  set (d1 := Zdigits2 a) in *. set (d2 := Zdigits2 b) in *.
  assert (0 < d1) by (unfold d1; destruct a; simpl; lia).
  assert (0 < d2) by (unfold d2; destruct b; simpl; lia).
  set (s := - Z.min (Z.max (d1 - d2 - 53) (-1074)) 0).
  assert (Hs : 0 <= s <= 1074) by (unfold s; lia).
  split; [assumption|]. split; [|lia].
  destruct (Z.eq_dec s 1074) as [-> | Hne]; [lia|].
  assert (Hs' : 53 <= d1 - d2 + s) by (unfold s in *; lia).
  assert (Hq : 53 <= Zdigits2 (a * 2 ^ s / b)).
  { apply (digits_lower _ 52); [lia|].
    apply Z.div_le_lower_bound; [lia|].
    pose proof (pow2_pos s ltac:(lia)).
    apply Z.le_trans with (2 ^ (d1 - 1) * 2 ^ s); [|nia].
    apply Z.le_trans with (2 ^ d2 * 2 ^ 52); [nia|].
    rewrite <- !Z.pow_add_r by lia. apply Z.pow_le_mono_r; lia. }
  lia.
Qed.

(** The quotient of two positive integers is rounded once, from the exact
    quotient. *)
Lemma round_quot_spec (a b : Z) :
  0 < a -> 0 < b ->
  round_quot a b
  = finish (rneq (a * 2 ^ quot_shift a b) (b * 2 ^ (quot_exp a b + quot_shift a b)))
      (quot_exp a b).
Proof.
  intros Ha Hb.
  destruct (quot_digits a b Ha Hb) as [Hs [HE _]].
  destruct a as [|pa|pa]; try lia. destruct b as [|pb|pb]; try lia.
  unfold round_quot, div, raw_of_Z, SFdiv, SFdiv_core_binary. cbn [xorb].
  rewrite !Z.add_0_r, !Z.sub_0_r.
  change (Z.sub 0 ?x) with (Z.opp x).
  fold (quot_shift (Zpos pa) (Zpos pb)).
  set (s := quot_shift (Zpos pa) (Zpos pb)) in *.
  replace (Z.min (fexp prec emax (Zdigits2 (Zpos pa) - Zdigits2 (Zpos pb))) 0) with (- s)
    by (unfold s, quot_shift; lia).
  replace (0 - - s) with s by lia.
  set (m' := match s with Zpos _ => Z.shiftl (Zpos pa) s | Z0 => Zpos pa | Zneg _ => 0 end).
  assert (Hm' : m' = Zpos pa * 2 ^ s).
  { unfold m'. destruct s as [|p|p]; try lia.
    now rewrite Z.shiftl_mul_pow2 by lia. }
  assert (Hm0 : 0 <= m') by (rewrite Hm'; pose proof (pow2_pos s ltac:(lia)); nia).
  pose proof (Z.div_eucl_eq m' (Zpos pb) ltac:(lia)) as _.
  assert (Hde : Z.div_eucl m' (Zpos pb) = (m' / Zpos pb, m' mod Zpos pb)).
  { unfold Z.div, Z.modulo. now destruct (Z.div_eucl m' (Zpos pb)). }
  rewrite Hde.
  unfold binary_round_aux, shr_fexp.
  pose proof (located_new_location m' (Zpos pb) Hm0 ltac:(lia)) as L.
  set (mrs := shr_record_of_loc (m' / Zpos pb) (new_location (Zpos pb) (m' mod Zpos pb))) in *.
  assert (HE' : fexp prec emax (Zdigits2 (m' / Zpos pb) + - s) = quot_exp (Zpos pa) (Zpos pb)).
  { unfold quot_exp. fold s. rewrite Hm'. f_equal. }
  rewrite HE'. set (E := quot_exp (Zpos pa) (Zpos pb)) in *.
  destruct (E - - s) as [|k|k] eqn:Hk; try lia; cbn [shr].
  - rewrite (located_round mrs m' (Zpos pb)) by (lia || assumption).
    replace (E + s) with 0 by lia. rewrite Z.mul_1_r, Hm'.
    replace (- s) with E by lia. reflexivity.
  - rewrite iter_pos_nat.
    pose proof (located_iter (Pos.to_nat k) mrs m' (Zpos pb) Hm0 ltac:(lia) L) as L'.
    rewrite positive_nat_Z in L'.
    rewrite (located_round _ m' (Zpos pb * 2 ^ Zpos k));
      [| pose proof (pow2_pos (Zpos k) ltac:(lia)); nia | assumption].
    replace (E + s) with (Zpos k) by lia. rewrite Hm'.
    replace (- s + Zpos k) with E by lia. reflexivity.
Qed.

(** The quotient of two positive integers is a float of the format within
    half a unit in the last place of the exact quotient. *)
Lemma round_quot_nearest (a b : Z) :
  0 < a -> 0 < b ->
  nearest_quotient (round_quot a b) a b.
Proof.
  intros Ha Hb. unfold nearest_quotient. rewrite round_quot_spec by assumption.
  destruct (quot_digits a b Ha Hb) as [Hs [HE HE']].
  set (s := quot_shift a b) in *. set (E := quot_exp a b) in *.
  set (k := E + s) in *.
  pose proof (pow2_pos s ltac:(lia)) as Ps.
  pose proof (pow2_pos k ltac:(lia)) as Pk.
  set (n := a * 2 ^ s). set (q := n / b).
  assert (Hn : 0 < n) by (unfold n; nia).
  assert (Hq0 : 0 <= q) by (apply Z.div_pos; lia).
  assert (HEq : E = Z.max (Zdigits2 q - s - 53) (-1074)) by (unfold E, quot_exp; now rewrite fexp_eq).
  pose proof (digits_nonneg q) as Hdq.
  destruct (rneq_bounds n (b * 2 ^ k) ltac:(lia) ltac:(nia)) as [[Rl Ru] Rn].
  set (M := rneq n (b * 2 ^ k)) in *.
  assert (Hdiv : n / (b * 2 ^ k) = q / 2 ^ k) by (unfold q; now rewrite Z.div_div by lia).
  rewrite Hdiv in Rl, Ru.
  assert (Hq2 : 0 <= q / 2 ^ k) by (apply Z.div_pos; lia).
  assert (Hup : q / 2 ^ k < 2 ^ 53).
  { apply Z.div_lt_upper_bound; [lia|].
    destruct (Z.eq_dec q 0) as [-> | Hq]; [apply Z.mul_pos_pos; [lia | reflexivity]|].
    pose proof (digits_pos_bounds q ltac:(lia)) as [_ Qu].
    eapply Z.lt_le_trans; [exact Qu|].
    rewrite <- Z.pow_add_r by lia. apply Z.pow_le_mono_r; lia. }
  assert (Hlo : -1074 < E -> 2 ^ 52 <= q / 2 ^ k).
  { intros H.
    assert (Hk : k = Zdigits2 q - 53) by lia.
    assert (Hq : 0 < q) by (destruct q; simpl in *; lia).
    pose proof (digits_pos_bounds q Hq) as [Ql _].
    apply Z.div_le_lower_bound; [lia|].
    rewrite <- Z.pow_add_r by lia. now replace (k + 52) with (Zdigits2 q - 1) by lia. }
  assert (Hbr : 2 * Z.abs (M * 2 ^ (E + bias) * b - a * 2 ^ bias) <= b * 2 ^ (E + bias)).
  { pose proof (pow2_pos (bias - s) ltac:(unfold bias; lia)) as Pb.
    assert (E1 : 2 ^ (E + bias) = 2 ^ k * 2 ^ (bias - s))
      by (rewrite <- Z.pow_add_r by (unfold bias; lia); f_equal; lia).
    assert (E2 : 2 ^ bias = 2 ^ s * 2 ^ (bias - s))
      by (rewrite <- Z.pow_add_r by (unfold bias; lia); f_equal; lia).
    rewrite E1, E2.
    replace (M * (2 ^ k * 2 ^ (bias - s)) * b - a * (2 ^ s * 2 ^ (bias - s)))
      with ((M * (b * 2 ^ k) - n) * 2 ^ (bias - s)) by (unfold n; ring).
    rewrite Z.abs_mul, (Z.abs_eq (2 ^ (bias - s))) by lia. nia. }
  destruct (Z.eq_dec M (2 ^ 53)) as [HM | HM].
  - exists (2 ^ 52), (E + 1). rewrite HM, finish_carry by lia.
    split; [reflexivity|]. split; [unfold canon; lia|].
    rewrite HM in Hbr.
    replace (E + 1 + bias) with (1 + (E + bias)) by lia.
    rewrite Z.pow_add_r by (unfold bias; lia).
    change (2 ^ 53) with (2 ^ 52 * 2 ^ 1) in Hbr.
    pose proof (pow2_pos (E + bias) ltac:(unfold bias; lia)).
    replace (2 ^ 52 * (2 ^ 1 * 2 ^ (E + bias)) * b) with (2 ^ 52 * 2 ^ 1 * 2 ^ (E + bias) * b) by ring.
    nia.
  - exists M, E. rewrite finish_small by lia.
    split; [reflexivity|]. split; [unfold canon; lia | exact Hbr].
Qed.

Lemma round_quot_nonneg (a b : Z) : 0 <= a -> 0 < b -> nonneg (round_quot a b).
Proof.
  intros Ha Hb. destruct (Z.eq_dec a 0) as [-> | Hne].
  - split; [reflexivity | cbn; lia].
  - destruct (round_quot_nearest a b ltac:(lia) Hb) as [M [E [-> [C _]]]].
    now apply pack_valid.
Qed.

(** ** The order of the floats *)

Lemma compare_opp (x y : float) :
  SFcompare y x = option_map CompOpp (SFcompare x y).
Proof.
  destruct x as [sx | sx | | sx mx ex], y as [sy | sy | | sy my ey];
    try destruct sx; try destruct sy; try reflexivity;
    cbn [SFcompare option_map];
    rewrite (Z.compare_antisym ey ex), !Pos.compare_cont_spec, (Pos.compare_antisym my mx);
    cbn [Pos.switch_Eq];
    destruct (ey ?= ex); destruct (my ?= mx)%positive; reflexivity.
Qed.

Lemma ltb_leb (x y : float) : ltb x y = true -> leb x y = true.
Proof. unfold ltb, leb, SFltb, SFleb. now destruct (SFcompare x y) as [[| |]|]. Qed.

Lemma not_ltb_leb (x y : float) :
  is_nan x = false -> is_nan y = false -> ltb x y = false -> leb y x = true.
Proof.
  unfold ltb, leb, SFltb, SFleb. intros Hx Hy. rewrite (compare_opp x y).
  destruct (SFcompare x y) as [[| |]|] eqn:E; cbn; try congruence.
  destruct x as [|[|]| |[|]], y as [|[|]| |[|]]; discriminate.
Qed.

Lemma leb_refl (x : float) : is_nan x = false -> leb x x = true.
Proof.
  intros H. unfold leb, SFleb.
  destruct x as [s | s | | s m e]; try discriminate; try destruct s; cbn [SFcompare];
    rewrite ?Z.compare_refl, ?Pos.compare_cont_spec, ?Pos.compare_refl; reflexivity.
Qed.

Ltac compare_cases :=
  repeat match goal with
    | |- context [(?a ?= ?b)%Z] => destruct (Z.compare_spec a b)
    | |- context [(?a ?= ?b)%positive] => destruct (Pos.compare_spec a b)
    end.

Lemma leb_trans (x y z : float) : leb x y = true -> leb y z = true -> leb x z = true.
Proof.
  unfold leb, SFleb.
  destruct x as [sx | sx | | sx mx ex], y as [sy | sy | | sy my ey], z as [sz | sz | | sz mz ez];
    try destruct sx; try destruct sy; try destruct sz;
    cbn [SFcompare]; try discriminate; try reflexivity;
    rewrite ?Pos.compare_cont_spec; cbn [Pos.switch_Eq];
    compare_cases; cbn [CompOpp]; try discriminate; try reflexivity;
    intros _ _; exfalso; subst; lia.
Qed.


Lemma py_min_spec (l : list float) :
  forall x,
    is_nan x = false -> Forall (fun v => is_nan v = false) l ->
    In (py_min x l) (x :: l) /\ (forall v, In v (x :: l) -> leb (py_min x l) v = true).
Proof.
  unfold py_min.
  induction l as [|w l IH]; intros x Hx Hl.
  - split; [now left|]. intros v [<- | []]. now apply leb_refl.
  - inversion Hl as [|? ? Hw Hl']; subst. cbn [fold_left].
    destruct (ltb w x) eqn:C.
    + destruct (IH w Hw Hl') as [I L]. split.
      * destruct I as [<- | I]; [right; now left | right; now right].
      * intros v [<- | [<- | Hv]].
        -- apply leb_trans with w; [apply L; now left | now apply ltb_leb].
        -- apply L. now left.
        -- apply L. now right.
    + destruct (IH x Hx Hl') as [I L]. split.
      * destruct I as [<- | I]; [now left | right; now right].
      * intros v [<- | [<- | Hv]].
        -- apply L. now left.
        -- apply leb_trans with x; [apply L; now left | now apply not_ltb_leb].
        -- apply L. now right.
Qed.

Lemma py_max_spec (l : list float) :
  forall x,
    is_nan x = false -> Forall (fun v => is_nan v = false) l ->
    In (py_max x l) (x :: l) /\ (forall v, In v (x :: l) -> leb v (py_max x l) = true).
Proof.
  unfold py_max.
  induction l as [|w l IH]; intros x Hx Hl.
  - split; [now left|]. intros v [<- | []]. now apply leb_refl.
  - inversion Hl as [|? ? Hw Hl']; subst. cbn [fold_left].
    destruct (ltb x w) eqn:C.
    + destruct (IH w Hw Hl') as [I L]. split.
      * destruct I as [<- | I]; [right; now left | right; now right].
      * intros v [<- | [<- | Hv]].
        -- apply leb_trans with w; [now apply ltb_leb | apply L; now left].
        -- apply L. now left.
        -- apply L. now right.
    + destruct (IH x Hx Hl') as [I L]. split.
      * destruct I as [<- | I]; [now left | right; now right].
      * intros v [<- | [<- | Hv]].
        -- apply L. now left.
        -- apply leb_trans with x; [now apply not_ltb_leb | apply L; now left].
        -- apply L. now right.
Qed.

(** The conversion of a count to a float: neither zero nor infinite. *)
Lemma round_Z_finite (n : Z) :
  0 < n <= 2 ^ 64 -> is_inf (round_Z n) = false /\ is_zero (round_Z n) = false.
Proof.
  intros [Hl Hu].
  pose proof (pow2_pos bias ltac:(unfold bias; lia)) as P.
  assert (N : nonneg (round_Z n)) by (rewrite round_Z_round0 by lia; apply round0_nonneg; nia).
  assert (L : value (round_Z 1) <= value (round_Z n))
    by (rewrite !round_Z_round0 by lia; apply round0_mono; nia).
  assert (U : value (round_Z n) <= value (round_Z (2 ^ 64)))
    by (rewrite !round_Z_round0 by lia; apply round0_mono; nia).
  assert (V1 : 0 < value (round_Z 1)) by (apply (value_finite_lt (2 ^ 52) (-52)); reflexivity).
  assert (V2 : value (round_Z (2 ^ 64)) < 2 ^ (emax + bias))
    by (apply (value_finite_lt (2 ^ 52) 12); reflexivity).
  destruct (nonneg_cases _ N) as [[s E] | [[m [e [E V]]] | E]]; rewrite E in *; cbn [value] in *.
  - lia.
  - now split.
  - lia.
Qed.

(** ** The effects *)

Lemma sent_count_app (t u : trace) : sent_count (t ++ u) = (sent_count t + sent_count u)%nat.
Proof. unfold sent_count. now rewrite filter_app, length_app. Qed.

Lemma requests_of_app (t u : trace) : requests_of (t ++ u) = requests_of t ++ requests_of u.
Proof.
  induction t as [|ev t IH]; simpl; [reflexivity|].
  destruct ev; simpl; now rewrite IH.
Qed.

Lemma messages_of_app (t u : trace) : messages_of (t ++ u) = messages_of t ++ messages_of u.
Proof.
  induction t as [|ev t IH]; simpl; [reflexivity|].
  destruct ev; simpl; now rewrite IH.
Qed.

Lemma bind_print {B} (m : message) (f : unit -> M B) (t : trace) :
  bind (print m) f t = f tt (t ++ [Printed m]).
Proof. reflexivity. Qed.

Lemma bind_returns {A B} (c : M A) (f : A -> M B) (t t' : trace) (a : A) :
  c t = (Returns a, t') -> bind c f t = f a t'.
Proof. intros H. unfold bind. now rewrite H. Qed.

Lemma bind_raises {A B} (c : M A) (f : A -> M B) (t t' : trace) (e : exn) :
  c t = (Raises e, t') -> bind c f t = (Raises e, t').
Proof. intros H. unfold bind. now rewrite H. Qed.

Lemma offline_run {A} (c : M A) (t : trace) :
  offline c -> c t = (fst (c []), t ++ snd (c [])).
Proof. intros [H _]. apply H. Qed.

Lemma offline_ret {A} (a : A) : offline (ret a).
Proof. split; [intros t; unfold ret; simpl; now rewrite app_nil_r | reflexivity]. Qed.

Lemma offline_raise {A} (e : exn) : offline (@raise A e).
Proof. split; [intros t; unfold raise; simpl; now rewrite app_nil_r | reflexivity]. Qed.

Lemma offline_lift {A} (x : outcome A) : offline (lift x).
Proof. split; [intros t; unfold lift; simpl; now rewrite app_nil_r | reflexivity]. Qed.

Lemma offline_print (m : message) : offline (print m).
Proof. split; [intros t|]; reflexivity. Qed.

Lemma offline_sleep : offline sleep.
Proof. split; [intros t|]; reflexivity. Qed.

Lemma offline_bind {A B} (c : M A) (f : A -> M B) :
  offline c -> (forall a, offline (f a)) -> offline (bind c f).
Proof.
  intros [Hc Rc] Hf. unfold bind. split.
  - intros t. rewrite (Hc t). destruct (c []) as [[a|e] u]; simpl; [|reflexivity].
    destruct (Hf a) as [Ha _]. rewrite (Ha (t ++ u)), (Ha u). simpl.
    now rewrite app_assoc.
  - destruct (c []) as [[a|e] u]; simpl in *; [|assumption].
    destruct (Hf a) as [Ha Ra]. rewrite (Ha u). simpl.
    now rewrite requests_of_app, Rc, Ra.
Qed.

Lemma offline_try {A} (c : M A) (h : exn -> M A) :
  offline c -> (forall e, offline (h e)) -> offline (try_except c h).
Proof.
  intros [Hc Rc] Hh. unfold try_except. split.
  - intros t. rewrite (Hc t). destruct (c []) as [[a|e] u]; simpl; [reflexivity|].
    destruct (Hh e) as [He _]. rewrite (He (t ++ u)), (He u). simpl.
    now rewrite app_assoc.
  - destruct (c []) as [[a|e] u]; simpl in *; [assumption|].
    destruct (Hh e) as [He Re]. rewrite (He u). simpl.
    now rewrite requests_of_app, Rc, Re.
Qed.

Lemma offline_json (body : option pyval) : offline (json body).
Proof. destruct body; [apply offline_ret | apply offline_raise]. Qed.

Create HintDb offline.
#[local] Hint Resolve offline_ret offline_raise offline_lift offline_print
  offline_sleep offline_json : offline.

(** Closes [offline c] for a computation written with the operations above,
    going under the binders and splitting on the tests. *)
Ltac offline_tac :=
  repeat first
    [ progress auto with offline
    | apply offline_bind; [| intros ?]
    | apply offline_try; [| intros ?]
    | match goal with
      | |- offline (if ?b then _ else _) => destruct b
      | |- offline (match ?x with _ => _ end) => destruct x
      end ].

Lemma offline_check_response (response : Z * option pyval) : offline (check_response response).
Proof. unfold check_response. offline_tac. Qed.

Lemma offline_check_handler (timeout : Z) (e : exn) : offline (check_handler timeout e).
Proof. unfold check_handler. offline_tac. Qed.

Lemma check_handler_returns (timeout : Z) (e : exn) (t : trace) :
  exists m, check_handler timeout e t = (Returns None, t ++ [Printed m]).
Proof.
  unfold check_handler.
  destruct (is_Timeout e); [|destruct (is_RequestException e)]; eexists; reflexivity.
Qed.

Ltac handler_step :=
  match goal with
  | |- context [check_handler ?timeout ?e ?t] =>
      let m := fresh "m" in
      destruct (check_handler_returns timeout e t) as [m ->]
  end.

(** The value of a probe is decided by the answer of the network to its
    request; the probe never raises and sends this one request. *)
Lemma check_balance_answer (net : network) (w u : string) (timeout : Z) (t : trace) :
  exists tail,
    check_balance net w u timeout t
    = (Returns (answer_balance (net (sent_count t) (balance_request w u))),
       t ++ Printed (MsgProbing u) :: Sent (balance_request w u) :: tail)
    /\ requests_of tail = [].
Proof.
  unfold answer_balance, check_balance, try_except, bind, print, send, always.
  fold (balance_request w u). rewrite sent_count_app. simpl sent_count.
  rewrite Nat.add_0_r. simpl app.
  destruct (net (sent_count t) (balance_request w u)) as [e | status body].
  - repeat handler_step.
    eexists. split; [simpl; rewrite <- !app_assoc; simpl; reflexivity | reflexivity].
  - destruct (offline_check_response (status, body)) as [Hr Rr].
    rewrite (Hr ((t ++ _) ++ _)), (Hr [_; _]).
    destruct (check_response (status, body) []) as [[r|e] tail]; simpl fst; simpl snd.
    + exists tail. split; [|assumption]. now rewrite <- !app_assoc.
    + repeat handler_step.
      eexists. split; [simpl; rewrite <- !app_assoc; simpl; reflexivity |].
      simpl in Rr. now rewrite requests_of_app, Rr.
Qed.

(** A request that raises gives the probe the value [None]. *)
Lemma check_balance_raises (net : network) (w u : string) (timeout : Z) (t : trace) (e : exn) :
  net (sent_count t) (balance_request w u) = HttpRaises e ->
  exists t', check_balance net w u timeout t = (Returns None, t').
Proof.
  intros H. unfold check_balance, try_except, bind, print, send.
  fold (balance_request w u). rewrite sent_count_app. simpl sent_count.
  rewrite Nat.add_0_r, H. handler_step. eauto.
Qed.

Lemma answer_balance_raises (e : exn) : answer_balance (HttpRaises e) = None.
Proof.
  unfold answer_balance.
  destruct (check_balance_raises (always (HttpRaises e)) "" "" 10 [] e eq_refl) as [t' ->].
  reflexivity.
Qed.

Lemma sent_count_requests (t : trace) : sent_count t = List.length (requests_of t).
Proof.
  unfold sent_count. induction t as [|ev t IH]; simpl; [reflexivity|].
  destruct ev; simpl; now rewrite IH.
Qed.

(** The loop over the endpoints never raises, sends one request per endpoint
    in the order of the list, and keeps the probes that gave a balance. *)
Lemma probe_endpoints_answers (net : network) (w : string) (endpoints : list string) :
  forall (balances : list (pyval * float)) (working_rpcs : list string) (t : trace),
  exists tail,
    probe_endpoints net w endpoints balances working_rpcs t
    = (Returns (balances ++ map snd (kept (answers net w (sent_count t) endpoints)),
                working_rpcs ++ map fst (kept (answers net w (sent_count t) endpoints))),
       t ++ tail)
    /\ requests_of tail = map (balance_request w) endpoints.
Proof.
  induction endpoints as [|u rest IH]; intros balances working_rpcs t.
  - exists []. simpl. unfold ret. now rewrite !app_nil_r.
  - simpl probe_endpoints. unfold bind at 1.
    destruct (check_balance_answer net w u 10 t) as [tail0 [-> R0]].
    set (t1 := t ++ Printed (MsgProbing u) :: Sent (balance_request w u) :: tail0).
    assert (C1 : sent_count t1 = S (sent_count t)).
    { unfold t1. rewrite sent_count_app. rewrite (sent_count_requests (_ :: _)).
      simpl. rewrite R0. simpl. lia. }
    simpl answers.
    destruct (answer_balance (net (sent_count t) (balance_request w u))) as [r|].
    + unfold bind at 1, sleep at 1.
      destruct (IH (balances ++ [r]) (working_rpcs ++ [u]) (t1 ++ [Slept])) as [tail [-> R]].
      rewrite sent_count_app, C1. simpl sent_count. rewrite Nat.add_0_r.
      exists (Printed (MsgProbing u) :: Sent (balance_request w u) :: tail0 ++ [Slept] ++ tail).
      split.
      * unfold t1. repeat (rewrite <- app_assoc; simpl). reflexivity.
      * simpl. rewrite requests_of_app, R0. simpl. now rewrite R.
    + destruct (IH balances working_rpcs t1) as [tail [-> R]].
      rewrite C1.
      exists (Printed (MsgProbing u) :: Sent (balance_request w u) :: tail0 ++ tail).
      split.
      * unfold t1. repeat (rewrite <- app_assoc; simpl). reflexivity.
      * simpl. rewrite requests_of_app, R0. simpl. now rewrite R.
Qed.

Lemma answers_endpoints (net : network) (w : string) (endpoints : list string) :
  forall k, map fst (answers net w k endpoints) = endpoints.
Proof. induction endpoints as [|u rest IH]; intros k; simpl; [reflexivity | now rewrite IH]. Qed.

Lemma kept_length (l : list (string * option (pyval * float))) :
  (List.length (kept l) <= List.length l)%nat.
Proof.
  induction l as [|[u [r|]] l IH]; simpl; lia.
Qed.



Lemma kept_all_some (l : list (string * option (pyval * float))) :
  List.length (kept l) = List.length l <-> (forall p, In p l -> snd p <> None).
Proof.
  induction l as [|[u [r|]] l IH]; simpl.
  - split; [intros _ p [] | reflexivity].
  - split.
    + intros H p [<- | Hp]; [discriminate|]. apply IH; [lia | assumption].
    + intros H. f_equal. apply IH. intros p Hp. apply H. now right.
  - split.
    + intros H. pose proof (kept_length l). lia.
    + intros H. now destruct (H (u, None) (or_introl eq_refl)).
Qed.

(** ** The claims on the probes *)

(** C1, as stated, fails: of four endpoints of which the second times out,
    the loop of [main] keeps three results, not four. *)
Lemma probe_drops_failures :
  ~ (forall (net : network) (w : string) (endpoints : list string)
            (balances : list (pyval * float)) (working_rpcs : list string) (t' : trace),
        endpoints <> [] ->
        probe_endpoints net w endpoints [] [] [] = (Returns (balances, working_rpcs), t') ->
        List.length balances = List.length endpoints).
Proof.
  intros H.
  destruct (probe_endpoints net_second_times_out some_wallet RPC_ENDPOINTS [] [] [])
    as [[[balances working_rpcs] | e] t'] eqn:E; vm_compute in E; [|discriminate].
  specialize (H net_second_times_out some_wallet RPC_ENDPOINTS balances working_rpcs t').
  injection E as <- <- <-.
  assert (L : List.length RPC_ENDPOINTS = 4%nat) by reflexivity.
  rewrite L in H. simpl in H.
  assert (C : 3%nat = 4%nat) by (apply H; [discriminate | reflexivity]).
  discriminate.
Qed.

(** C1 (amended): every endpoint is probed once, in the order of the list,
    and each probe has one value, [None] when it failed; [balances] and
    [working_rpcs] hold the probes that gave a balance, in that order, so
    never more entries than endpoints, and as many exactly when no probe
    failed. *)
Theorem probe_keeps_successes (net : network) (w : string) (endpoints : list string) (t : trace) :
  let probes := answers net w (sent_count t) endpoints in
  exists t',
    probe_endpoints net w endpoints [] [] t
    = (Returns (map snd (kept probes), map fst (kept probes)), t')
    /\ requests_of t' = requests_of t ++ map (balance_request w) endpoints
    /\ map fst probes = endpoints
    /\ (List.length (kept probes) <= List.length endpoints)%nat
    /\ (List.length (kept probes) = List.length endpoints
        <-> forall p, In p probes -> snd p <> None).
Proof.
  intros probes.
  destruct (probe_endpoints_answers net w endpoints [] [] t) as [tail [E R]].
  exists (t ++ tail). fold probes in E. simpl in E.
  assert (L : List.length probes = List.length endpoints).
  { unfold probes. rewrite <- (answers_endpoints net w endpoints (sent_count t)) at 2.
    now rewrite length_map. }
  repeat split.
  - exact E.
  - now rewrite requests_of_app, R.
  - apply answers_endpoints.
  - rewrite <- L. apply kept_length.
  - rewrite <- L. apply kept_all_some.
  - rewrite <- L. apply kept_all_some.
Qed.

(** C2: a probe never raises, whatever the network does: when the request
    raises a timeout, a connection error or any other exception, the probe
    returns the value [None]; and the loop over the endpoints returns after it
    has sent the request of every endpoint of the list, in order. *)
Theorem probe_never_raises (net : network) (w : string) (endpoints : list string)
    (balances : list (pyval * float)) (working_rpcs : list string) (t : trace) :
  (forall u timeout t0, exists r t1, check_balance net w u timeout t0 = (Returns r, t1))
  /\ (forall u timeout t0 e,
        net (sent_count t0) (balance_request w u) = HttpRaises e ->
        exists t1, check_balance net w u timeout t0 = (Returns None, t1))
  /\ exists balances' working_rpcs' t',
       probe_endpoints net w endpoints balances working_rpcs t
       = (Returns (balances', working_rpcs'), t')
       /\ requests_of t' = requests_of t ++ map (balance_request w) endpoints.
Proof.
  repeat split.
  - intros u timeout t0.
    destruct (check_balance_answer net w u timeout t0) as [tail [E _]].
    eauto.
  - intros u timeout t0 e. apply check_balance_raises.
  - destruct (probe_endpoints_answers net w endpoints balances working_rpcs t) as [tail [E R]].
    do 3 eexists. split; [exact E|]. now rewrite requests_of_app, R.
Qed.



(** ** What a probe makes of a response *)

Lemma answer_balance_response (status : Z) (body : option pyval) :
  answer_balance (HttpResponse status body)
  = match fst (check_response (status, body) []) with
    | Returns r => r
    | Raises _ => None
    end.
Proof.
  unfold answer_balance, check_balance, try_except, bind, print, send, always.
  cbn [app sent_count fst snd].
  rewrite (offline_run _ _ (offline_check_response (status, body))).
  destruct (check_response (status, body) []) as [[r|e] tail]; cbn [fst snd].
  - reflexivity.
  - now handler_step.
Qed.


Ltac split_test H :=
  match type of H with context [if ?b then _ else _] => destruct b end.

(** A probe gives a balance exactly for a response of status 200 whose body
    has [result.value], a value that [/] accepts; the lamports are that
    value and the SOL amount is its quotient by [LAMPORTS_PER_SOL]. *)
Lemma answer_balance_some (a : http_result) (l : pyval) (s : float) :
  answer_balance a = Some (l, s) <->
  exists data,
    a = HttpResponse 200 (Some data)
    /\ result_value data = Returns l
    /\ py_truediv l (PInt LAMPORTS_PER_SOL) = Returns s.
Proof.
  split.
  - destruct a as [e | status body].
    + now rewrite answer_balance_raises.
    + rewrite answer_balance_response. unfold check_response. cbn [fst snd].
      destruct (Z.eqb_spec status 200) as [-> | _]; [|cbn; discriminate].
      destruct body as [data|]; [|cbn; discriminate].
      intros H. exists data. split; [reflexivity|].
      destruct data as [ | | | | | | d]; cbn in H;
        try discriminate; try (split_test H; discriminate).
      unfold result_value. cbn.
      destruct (dict_get d "result") as [r|] eqn:Er; cbn in H |- *; [|discriminate].
      destruct r as [ | | | | | | d0]; cbn in H |- *;
        try discriminate; try (split_test H; discriminate).
      destruct (dict_get d0 "value") as [v|] eqn:Ev; cbn in H |- *; [|discriminate].
      rewrite Ev in H.
      destruct (py_truediv v (PInt LAMPORTS_PER_SOL)) as [x|e] eqn:Ed; cbn in H; [|discriminate].
      injection H as <- <-. now split.
  - intros [data [-> [Hv Hd]]].
    rewrite answer_balance_response. unfold check_response, result_value in *.
    cbn [fst snd Z.eqb Pos.eqb json].
    destruct data; cbn in Hv; try discriminate.
    destruct (dict_get d "result") as [r|] eqn:Er; cbn in Hv; [|discriminate].
    destruct r; cbn in Hv; try discriminate.
    destruct (dict_get d0 "value") as [v|] eqn:Ev; [|discriminate].
    injection Hv as ->.
    cbv [bind ret lift print py_contains py_getitem].
    rewrite Er, Ev, Hd. reflexivity.
Qed.

Lemma send_response (net : network) (r : request) (t : trace) (status : Z) (body : option pyval) :
  net (sent_count t) r = HttpResponse status body ->
  send net r t = (Returns (status, body), t ++ [Sent r]).
Proof. intros H. unfold send. now rewrite H. Qed.



Lemma int_truediv_returns (a b : Z) (s : float) :
  int_truediv a b = Returns s -> b <> 0 /\ s = round_quot a b.
Proof.
  unfold int_truediv. destruct (Z.eqb_spec b 0); [discriminate|].
  destruct (is_inf (round_quot a b)); [discriminate|].
  intros [= <-]. now split.
Qed.

(** ** The claims on the responses *)



(** C7, as stated, fails: a body with an [error] field gives the probe the
    value [None], which is also its value for a timeout, and gives a balance
    when the body has [result.value] as well; [test_rpc_basic] returns for it
    what it returns for an HTTP error status. *)
Lemma rpc_error_not_distinguished :
  has_field "error" error_body = true
  /\ has_field "error" error_and_result_body = true
  /\ answer_balance (HttpResponse 200 (Some error_body)) = answer_balance (HttpRaises Timeout)
  /\ answer_balance (HttpResponse 200 (Some error_and_result_body))
     = Some (PInt 5, round_quot 5 1000000000)
  /\ fst (test_rpc_basic (always (HttpResponse 200 (Some error_body))) "" [])
     = fst (test_rpc_basic (always (HttpResponse 500 None)) "" [])
  /\ ~ (forall data,
          has_field "error" data = true ->
          answer_balance (HttpResponse 200 (Some data)) <> answer_balance (HttpRaises Timeout)
          /\ answer_balance (HttpResponse 200 (Some data)) = None).
Proof.
  do 5 (split; [vm_compute; reflexivity|]).
  intros H. destruct (H error_body eq_refl) as [H1 _]. apply H1.
  vm_compute. reflexivity.
Qed.

Lemma test_rpc_connect_cases (net : network) (u : string) (t : trace) :
  match net (sent_count t) (Get u) with
  | HttpResponse status body =>
      test_rpc_connect net u t
      = (Returns None, t ++ [Sent (Get u); Printed (MsgServerAnswers status)])
  | HttpRaises e =>
      exists m r,
        test_rpc_connect net u t = (Returns r, t ++ [Sent (Get u); Printed m])
        /\ (r = None \/ r = Some false)
  end.
Proof.
  unfold test_rpc_connect, try_except, bind, send.
  destruct (net (sent_count t) (Get u)) as [e | status body].
  - destruct (is_Timeout e); [|destruct (is_ConnectionError e)];
      cbn [print ret]; rewrite <- app_assoc; do 2 eexists; (split; [reflexivity | auto]).
  - cbn [print ret fst]. now rewrite <- app_assoc.
Qed.

(** The first test of [test_rpc_basic] sends one request; it ends the
    function with [False] or lets it go on to the second test. *)
Lemma test_rpc_basic_steps (net : network) (u : string) (t : trace) :
  exists t1,
    sent_count t1 = S (sent_count t)
    /\ (test_rpc_basic net u t = (Returns (Some false), t1)
        \/ test_rpc_basic net u t = test_rpc_call net u t1)
    /\ (forall status body,
          net (sent_count t) (Get u) = HttpResponse status body ->
          t1 = t ++ [Printed (MsgProbing u); Sent (Get u); Printed (MsgServerAnswers status)]
          /\ test_rpc_basic net u t = test_rpc_call net u t1).
Proof.
  unfold test_rpc_basic. rewrite bind_print.
  pose proof (test_rpc_connect_cases net u (t ++ [Printed (MsgProbing u)])) as H.
  assert (C0 : sent_count (t ++ [Printed (MsgProbing u)]) = sent_count t)
    by (rewrite sent_count_app; apply Nat.add_0_r).
  rewrite C0 in H.
  assert (C : forall m, sent_count ((t ++ [Printed (MsgProbing u)]) ++ [Sent (Get u); Printed m])
                        = S (sent_count t)).
  { intros m. rewrite !sent_count_app. cbn. lia. }
  destruct (net (sent_count t) (Get u)) as [e | status body].
  - destruct H as [m [r [H Hr]]]. rewrite (bind_returns _ _ _ _ _ H).
    eexists. split; [apply C|]. split; [|discriminate].
    destruct Hr as [-> | ->]; [right | left]; reflexivity.
  - rewrite (bind_returns _ _ _ _ _ H).
    eexists. split; [apply C|]. split; [right; reflexivity|].
    intros status' body' [= <- <-]. split; [|reflexivity].
    now rewrite <- !app_assoc.
Qed.

Lemma test_rpc_call_error (net : network) (u : string) (t : trace)
    (d : list (string * pyval)) (error : pyval) :
  dict_get d "error" = Some error ->
  dict_get d "result" = None ->
  net (sent_count t) (Post u "getHealth" []) = HttpResponse 200 (Some (PDict d)) ->
  test_rpc_call net u t
  = (Returns (Some false), t ++ [Sent (Post u "getHealth" []); Printed (MsgRpcError error)]).
Proof.
  intros He Hr Hnet. unfold test_rpc_call, try_except.
  erewrite bind_returns by (apply send_response; apply Hnet).
  cbv [bind ret lift print py_contains py_getitem json fst snd Z.eqb Pos.eqb].
  rewrite Hr, He. now rewrite <- !app_assoc.
Qed.


(** C7 (amended): for a response of status 200 whose body is an object with
    an [error] field and no [result] field, [check_balance] prints that the
    response has no valid result, prints the body, and returns [None], its
    value for every failure; [test_get_balance] returns [False];
    [test_rpc_basic] returns [False], after printing the error payload when
    its first request was answered. *)
Theorem rpc_error_is_reported_as_failure (net : network) (w u : string) (timeout : Z)
    (t : trace) (d : list (string * pyval)) (error : pyval) :
  dict_get d "error" = Some error ->
  dict_get d "result" = None ->
  net (sent_count t) (balance_request w u) = HttpResponse 200 (Some (PDict d)) ->
  net (S (sent_count t)) (Post u "getHealth" []) = HttpResponse 200 (Some (PDict d)) ->
  check_balance net w u timeout t
  = (Returns None,
     t ++ [Printed (MsgProbing u); Sent (balance_request w u);
           Printed MsgNoValidResult; Printed (MsgResponse (PDict d))])
  /\ test_get_balance net u w t = (Returns false, t ++ [Sent (balance_request w u)])
  /\ (exists t', test_rpc_basic net u t = (Returns (Some false), t'))
  /\ (forall status body,
        net (sent_count t) (Get u) = HttpResponse status body ->
        test_rpc_basic net u t
        = (Returns (Some false),
           t ++ [Printed (MsgProbing u); Sent (Get u); Printed (MsgServerAnswers status);
                 Sent (Post u "getHealth" []); Printed (MsgRpcError error)])).
Proof.
  intros He Hr Hb Hh.
  destruct (test_rpc_basic_steps net u t) as [t1 [C [S1 S2]]].
  repeat split.
  - unfold check_balance, try_except. rewrite bind_print.
    assert (Hs : sent_count (t ++ [Printed (MsgProbing u)]) = sent_count t)
      by (rewrite sent_count_app; apply Nat.add_0_r).
    erewrite bind_returns by (apply send_response; rewrite Hs; apply Hb).
    unfold check_response. cbv [bind ret lift print py_contains py_getitem json fst snd Z.eqb Pos.eqb].
    rewrite Hr. now rewrite <- !app_assoc.
  - unfold test_get_balance, try_except.
    erewrite bind_returns by (apply send_response; apply Hb).
    cbv [bind ret lift print py_contains py_getitem json fst snd Z.eqb Pos.eqb].
    now rewrite Hr.
  - destruct S1 as [-> | ->]; [eauto|].
    rewrite (test_rpc_call_error net u t1 d error He Hr) by (rewrite C; exact Hh). eauto.
  - intros status body Hg. destruct (S2 status body Hg) as [-> ->].
    rewrite (test_rpc_call_error net u _ d error He Hr).
    + now rewrite <- !app_assoc.
    + rewrite !sent_count_app. cbn. rewrite Nat.add_1_r. exact Hh.
Qed.

Lemma rpc_error_is_reported_as_failure_witness :
  check_balance (always (HttpResponse 200 (Some error_body))) some_wallet "https://rpc.ankr.com/solana" 10 []
  = (Returns None,
     [Printed (MsgProbing "https://rpc.ankr.com/solana");
      Sent (balance_request some_wallet "https://rpc.ankr.com/solana");
      Printed MsgNoValidResult; Printed (MsgResponse error_body)]).
Proof.
  refine (proj1 (rpc_error_is_reported_as_failure
            (always (HttpResponse 200 (Some error_body))) some_wallet
            "https://rpc.ankr.com/solana" 10 []
            [("jsonrpc", PStr "2.0");
             ("error", PDict [("code", PInt (-32602)); ("message", PStr "Invalid param")]);
             ("id", PInt 1)]%string
            (PDict [("code", PInt (-32602)); ("message", PStr "Invalid param")]%string)
            _ _ _ _)).
  - reflexivity.
  - reflexivity.
  - reflexivity.
  - reflexivity.
Defined.



(** ** The claims on the statistics and on the estimates *)

Lemma balance_sample_nonneg (b : pyval * float) : balance_sample b -> nonneg (snd b).
Proof.
  intros [n [Hn [_ H]]]. cbn [py_truediv as_int] in H.
  apply int_truediv_returns in H as [_ ->].
  apply round_quot_nonneg; [assumption | reflexivity].
Qed.

Lemma balance_samples_nonneg (l : list (pyval * float)) :
  Forall balance_sample l -> Forall nonneg (map snd l).
Proof.
  induction 1 as [|b l Hb _ IH]; cbn [map]; constructor; [|assumption].
  now apply balance_sample_nonneg.
Qed.

Lemma nonneg_not_nan (x : float) : nonneg x -> is_nan x = false.
Proof. intros [_ H]. destruct x; try reflexivity. cbn [value] in H. lia. Qed.

Lemma statistics_returns (first : pyval * float) (others : list (pyval * float)) :
  Z.of_nat (List.length (first :: others)) <= 2 ^ 64 ->
  statistics first others
  = Returns (spec_average (map snd (first :: others)),
             py_min (snd first) (map snd others),
             py_max (snd first) (map snd others)).
Proof.
  intros Hlen. unfold statistics, spec_average, py_sum.
  rewrite length_map.
  set (n := Z.of_nat (List.length (first :: others))) in *.
  assert (Hn : 0 < n) by (unfold n; cbn [List.length]; lia).
  destruct (round_Z_finite n ltac:(lia)) as [Hi Hz].
  cbn [py_truediv as_int]. unfold int_to_float. rewrite Hi. cbn [obind].
  unfold float_truediv. rewrite Hz. reflexivity.
Qed.

(** C4: for a sequence of balances, at least one, [main] computes the sum
    of the SOL values divided by their count, a least value and a greatest
    value of the sequence. Balances of 1.0, 1.0 and 1.0 SOL give 1.0 three
    times; balances of 0.9, 1.0 and 1.1 SOL give the average 1.0, the minimum
    0.9 and the maximum 1.1. *)
Theorem statistics_are_average_min_max (first : pyval * float) (others : list (pyval * float)) :
  Forall balance_sample (first :: others) ->
  Z.of_nat (List.length (first :: others)) <= 2 ^ 64 ->
  (exists avg_balance min_balance max_balance,
      statistics first others = Returns (avg_balance, min_balance, max_balance)
      /\ avg_balance = spec_average (map snd (first :: others))
      /\ is_minimum min_balance (map snd (first :: others))
      /\ is_maximum max_balance (map snd (first :: others)))
  /\ statistics (sample 1000000000) [sample 1000000000; sample 1000000000]
     = Returns (literal 1 0, literal 1 0, literal 1 0)
  /\ statistics (sample 900000000) [sample 1000000000; sample 1100000000]
     = Returns (literal 1 0, literal 9 1, literal 11 1).
Proof.
  intros Hs Hlen. split; [|split; vm_compute; reflexivity].
  rewrite statistics_returns by assumption.
  assert (Hnan : Forall (fun v => is_nan v = false) (map snd (first :: others))).
  { eapply Forall_impl; [|apply balance_samples_nonneg; exact Hs]. apply nonneg_not_nan. }
  cbn [map] in Hnan. inversion Hnan as [|? ? H0 Hl]; subst.
  do 3 eexists. split; [reflexivity|]. split; [reflexivity|].
  split; cbn [map]; [apply py_min_spec | apply py_max_spec]; assumption.
Qed.

Lemma sample_is_balance_sample (n : Z) :
  0 <= n -> is_inf (round_quot n LAMPORTS_PER_SOL) = false -> balance_sample (sample n).
Proof.
  intros Hn Hi. exists n. split; [assumption|]. split; [reflexivity|].
  cbn [py_truediv as_int sample snd]. unfold int_truediv. cbn [Z.eqb LAMPORTS_PER_SOL].
  now rewrite Hi.
Qed.

Lemma statistics_are_average_min_max_witness :
  exists avg_balance min_balance max_balance,
    statistics (sample 900000000) [sample 1000000000; sample 1100000000]
    = Returns (avg_balance, min_balance, max_balance)
    /\ avg_balance = spec_average (map snd [sample 900000000; sample 1000000000; sample 1100000000])
    /\ is_minimum min_balance (map snd [sample 900000000; sample 1000000000; sample 1100000000])
    /\ is_maximum max_balance (map snd [sample 900000000; sample 1000000000; sample 1100000000]).
Proof.
  refine (proj1 (statistics_are_average_min_max (sample 900000000)
                   [sample 1000000000; sample 1100000000] _ _)).
  - repeat constructor; apply sample_is_balance_sample; (lia || reflexivity).
  - vm_compute. discriminate.
Defined.

Lemma estimate_fees_cases (n : Z) (p : float) :
  (is_inf (round_Z n) = false
   /\ estimate_fees n p
      = Returns {| blocks := n; price_per_block := p;
                   subtotal := mul (round_Z n) p;
                   estimated_fee := f_0_000005;
                   total := add (mul (round_Z n) p) f_0_000005 |})
  \/ (is_inf (round_Z n) = true /\ estimate_fees n p = Raises OverflowError).
Proof.
  unfold estimate_fees, int_mul_float, int_to_float.
  destruct (is_inf (round_Z n)); [right | left]; split; reflexivity.
Qed.

Lemma purchase_examples_rows (avg_balance : float) (examples : list Z) :
  Forall (fun n => is_inf (round_Z n) = false) examples ->
  forall t,
    purchase_examples avg_balance examples t
    = (Returns tt,
       t ++ map (fun r => Printed (row_message r))
              (affordability avg_balance f_0_001 f_0_000005 examples)).
Proof.
  induction 1 as [|n examples Hn _ IH]; intros t.
  - cbn. unfold ret. now rewrite app_nil_r.
  - cbn [purchase_examples affordability map].
    destruct (estimate_fees_cases n f_0_001) as [[_ E] | [E _]]; [|congruence].
    rewrite E. unfold lift at 1.
    erewrite bind_returns by reflexivity.
    rewrite bind_print, IH.
    unfold row_message, affordable. cbn [blocks subtotal estimated_fee total quantity
      row_subtotal row_fee row_total row_affordable].
    now rewrite <- app_assoc.
Qed.

(** C5: the estimate of a quantity is the row of the specification for the
    fee 0.000005, [subtotal = quantity * unitPrice], [total = subtotal + fee]
    and [affordable = total <= balance], and [main] prints these rows for its
    five quantities. With the balance 0.5 and the unit price 0.01, the
    quantity 1 has the total 0.010005 and is affordable, the quantity 50 has
    the total 0.500005 and is not. *)
Theorem estimate_is_affordability_row :
  (forall n p balance,
      match estimate_fees n p with
      | Returns e =>
          affordability balance p f_0_000005 [n] = [row_of e balance]
          /\ subtotal e = mul (round_Z n) p
          /\ total e = add (subtotal e) (estimated_fee e)
          /\ affordable e balance = leb (total e) balance
      | Raises ex => ex = OverflowError /\ is_inf (round_Z n) = true
      end)
  /\ (forall avg_balance t,
        purchase_examples avg_balance [1; 10; 25; 50; 100] t
        = (Returns tt,
           t ++ map (fun r => Printed (row_message r))
                  (affordability avg_balance f_0_001 f_0_000005 [1; 10; 25; 50; 100])))
  /\ f_0_000005 = literal 5 6
  /\ f_0_001 = literal 1 3
  /\ f_0_01 = literal 1 2
  /\ map (fun r => (quantity r, row_total r, row_affordable r))
         (affordability (literal 5 1) f_0_01 f_0_000005 [1; 50])
     = [(1, literal 10005 6, true); (50, literal 500005 6, false)]
  /\ (exists e, estimate_fees 1 f_0_01 = Returns e
                /\ total e = literal 10005 6 /\ affordable e (literal 5 1) = true)
  /\ (exists e, estimate_fees 50 f_0_01 = Returns e
                /\ total e = literal 500005 6 /\ affordable e (literal 5 1) = false).
Proof.
  split; [|split].
  - intros n p balance.
    destruct (estimate_fees_cases n p) as [[_ ->] | [Hi ->]]; [|now split].
    repeat split.
  - intros avg_balance t. apply purchase_examples_rows.
    repeat constructor.
  - do 4 (split; [vm_compute; reflexivity|]).
    split; eexists; (split; [vm_compute; reflexivity|]); split; vm_compute; reflexivity.
Qed.





Lemma nonneg_of_leb (p : float) : valid p = true -> leb pzero p = true -> nonneg p.
Proof.
  intros V H. split; [assumption|].
  destruct p as [s | [|] | | [|] m e]; try discriminate H; cbn [value];
    try (apply Z.lt_le_incl, pow2_pos; unfold emax, bias); lia.
Qed.

Lemma round_Z_nonneg (n : Z) : 0 <= n -> nonneg (round_Z n).
Proof.
  intros H. rewrite round_Z_round0 by assumption. apply round0_nonneg.
  pose proof (pow2_pos bias ltac:(unfold bias; lia)). nia.
Qed.

Lemma round_Z_mono (n1 n2 : Z) : 0 <= n1 <= n2 -> value (round_Z n1) <= value (round_Z n2).
Proof.
  intros H. rewrite !round_Z_round0 by lia. apply round0_mono.
  pose proof (pow2_pos bias ltac:(unfold bias; lia)). nia.
Qed.

(** The total of an estimate grows with the quantity. *)
Lemma total_mono (n1 n2 : Z) (p : float) :
  0 <= n1 <= n2 -> nonneg p -> is_inf p = false -> is_inf (round_Z n2) = false ->
  is_inf (round_Z n1) = false
  /\ leb (add (mul (round_Z n1) p) f_0_000005) (add (mul (round_Z n2) p) f_0_000005) = true.
Proof.
  intros Hn Np Ip I2.
  pose proof (round_Z_nonneg n1 ltac:(lia)) as N1.
  pose proof (round_Z_nonneg n2 ltac:(lia)) as N2.
  pose proof (round_Z_mono n1 n2 Hn) as Hv.
  assert (I1 : is_inf (round_Z n1) = false) by (eapply not_inf_below; eassumption).
  split; [assumption|].
  destruct (mul_value (round_Z n1) p N1 I1 Np Ip) as [M1 V1].
  destruct (mul_value (round_Z n2) p N2 I2 Np Ip) as [M2 V2].
  apply add_mono; try assumption; [|reflexivity].
  rewrite V1, V2.
  pose proof (pow2_pos bias ltac:(unfold bias; lia)) as P.
  destruct N1 as [_ H1]. destruct Np as [_ Hp].
  apply round0_mono. split.
  - apply Z.div_pos; [nia | assumption].
  - apply Z.div_le_mono; [assumption | nia].
Qed.

(** C10, as stated, fails: with the price [+inf], which is not negative, the
    total for the quantity 0 is NaN and is not below the total for the
    quantity 1; and for the quantity [2 ^ 1024] no total is returned, the
    conversion of the quantity to a float raises [OverflowError]. *)
Lemma total_not_monotone_at_the_limits :
  leb pzero pinf = true
  /\ option_map total (match estimate_fees 0 pinf with Returns e => Some e | Raises _ => None end)
     = Some S754_nan
  /\ option_map total (match estimate_fees 1 pinf with Returns e => Some e | Raises _ => None end)
     = Some pinf
  /\ leb S754_nan pinf = false
  /\ estimate_fees (2 ^ 1024) f_0_001 = Raises OverflowError
  /\ ~ (forall n1 n2 p,
          0 <= n1 <= n2 -> leb pzero p = true ->
          exists e1 e2,
            estimate_fees n1 p = Returns e1 /\ estimate_fees n2 p = Returns e2
            /\ leb (total e1) (total e2) = true).
Proof.
  do 5 (split; [vm_compute; reflexivity|]).
  intros H. destruct (H 0 1 pinf ltac:(lia) eq_refl) as [e1 [e2 [E1 [E2 L]]]].
  vm_compute in E1, E2. injection E1 as <-. injection E2 as <-.
  vm_compute in L. discriminate.
Qed.

(** C10 (amended): for quantities [0 <= n1 <= n2] of which the larger
    converts to a float, and for a price that is a float of the format,
    finite and not negative, [estimate_fees] returns for both quantities and
    the total for [n1] is at most the total for [n2]; the fee of every
    estimate returned is the constant 0.000005. *)
Theorem estimate_fees_monotone (n1 n2 : Z) (p : float) :
  0 <= n1 <= n2 ->
  valid p = true -> leb pzero p = true -> is_inf p = false ->
  is_inf (round_Z n2) = false ->
  (exists e1 e2,
      estimate_fees n1 p = Returns e1 /\ estimate_fees n2 p = Returns e2
      /\ leb (total e1) (total e2) = true)
  /\ (forall n q e, estimate_fees n q = Returns e -> estimated_fee e = literal 5 6).
Proof.
  intros Hn Vp Hp Ip I2. split.
  - destruct (total_mono n1 n2 p Hn (nonneg_of_leb p Vp Hp) Ip I2) as [I1 L].
    destruct (estimate_fees_cases n1 p) as [[_ E1] | [C _]]; [|congruence].
    destruct (estimate_fees_cases n2 p) as [[_ E2] | [C _]]; [|congruence].
    rewrite E1, E2. do 2 eexists. repeat split. exact L.
  - intros n q e E.
    destruct (estimate_fees_cases n q) as [[_ E'] | [_ E']]; rewrite E' in E; [|discriminate].
    injection E as <-. vm_compute. reflexivity.
Qed.

Lemma estimate_fees_monotone_witness :
  exists e1 e2,
    estimate_fees 1 f_0_001 = Returns e1 /\ estimate_fees 10 f_0_001 = Returns e2
    /\ leb (total e1) (total e2) = true.
Proof.
  refine (proj1 (estimate_fees_monotone 1 10 f_0_001 _ _ _ _ _)).
  - lia.
  - reflexivity.
  - reflexivity.
  - reflexivity.
  - reflexivity.
Defined.

(** ** The traces of the scripts: lines, requests and pauses *)
Lemma pauses_app (t u : trace) : pauses (t ++ u) = (pauses t + pauses u)%nat.
Proof. unfold pauses. now rewrite filter_app, length_app. Qed.

Lemma requests_of_printed (msgs : list message) : requests_of (map Printed msgs) = [].
Proof. induction msgs; simpl; auto. Qed.

Lemma pauses_printed (msgs : list message) : pauses (map Printed msgs) = O.
Proof. unfold pauses. induction msgs; simpl; auto. Qed.

Lemma messages_of_printed (msgs : list message) : messages_of (map Printed msgs) = msgs.
Proof. induction msgs; simpl; congruence. Qed.

Lemma sent_count_printed (t : trace) (msgs : list message) :
  sent_count (t ++ map Printed msgs) = sent_count t.
Proof.
  rewrite sent_count_app, (sent_count_requests (map _ _)), requests_of_printed.
  apply Nat.add_0_r.
Qed.

Section Printing.

Variable P : message -> bool.

Lemma printing_ret {A} (a : A) : printing P (ret a).
Proof.
  exists (Returns a), []. split; [|reflexivity].
  intros t. unfold ret. cbn. now rewrite app_nil_r.
Qed.

Lemma printing_raise {A} (e : exn) : printing P (@raise A e).
Proof.
  exists (Raises e), []. split; [|reflexivity].
  intros t. unfold raise. cbn. now rewrite app_nil_r.
Qed.

Lemma printing_lift {A} (x : outcome A) : printing P (lift x).
Proof.
  exists x, []. split; [|reflexivity].
  intros t. unfold lift. cbn. now rewrite app_nil_r.
Qed.

Lemma printing_print (m : message) : P m = true -> printing P (print m).
Proof.
  intros H. exists (Returns tt), [m]. split; [reflexivity|]. cbn. now rewrite H.
Qed.

Lemma printing_bind {A B} (c : M A) (f : A -> M B) :
  printing P c -> (forall a, printing P (f a)) -> printing P (bind c f).
Proof.
  intros [o [msgs [Hc Pc]]] Hf. unfold bind. destruct o as [a|e].
  - destruct (Hf a) as [o' [msgs' [Ha Pa]]]. exists o', (msgs ++ msgs'). split.
    + intros t. now rewrite Hc, Ha, map_app, app_assoc.
    + now rewrite forallb_app, Pc, Pa.
  - exists (Raises e), msgs. split; [|assumption]. intros t. now rewrite Hc.
Qed.

Lemma printing_try {A} (c : M A) (h : exn -> M A) :
  printing P c -> (forall e, printing P (h e)) -> printing P (try_except c h).
Proof.
  intros [o [msgs [Hc Pc]]] Hh. unfold try_except. destruct o as [a|e].
  - exists (Returns a), msgs. split; [|assumption]. intros t. now rewrite Hc.
  - destruct (Hh e) as [o' [msgs' [He Pe]]]. exists o', (msgs ++ msgs'). split.
    + intros t. now rewrite Hc, He, map_app, app_assoc.
    + now rewrite forallb_app, Pc, Pe.
Qed.

Lemma printing_json (body : option pyval) : printing P (json body).
Proof. destruct body; [apply printing_ret | apply printing_raise]. Qed.

End Printing.

Ltac printing_tac :=
  repeat first
    [ apply printing_ret
    | apply printing_raise
    | apply printing_lift
    | apply printing_json
    | apply printing_print; reflexivity
    | apply printing_bind; [| intros ?]
    | apply printing_try; [| intros ?]
    | match goal with
      | |- printing _ (if ?b then _ else _) => destruct b
      | |- printing _ (match ?x with _ => _ end) => destruct x
      end ].

Lemma printing_check_response (response : Z * option pyval) :
  printing probe_line (check_response response).
Proof. unfold check_response. printing_tac. Qed.

Lemma printing_check_handler (timeout : Z) (e : exn) :
  printing probe_line (check_handler timeout e).
Proof. unfold check_handler. printing_tac. Qed.

(** What a probe adds to the trace: its first line, its request, and
    more lines. *)
Lemma check_balance_trace (net : network) (w u : string) (timeout : Z) (t : trace) :
  exists msgs,
    check_balance net w u timeout t
    = (Returns (answer_balance (net (sent_count t) (balance_request w u))),
       t ++ Printed (MsgProbing u) :: Sent (balance_request w u) :: map Printed msgs)
    /\ forallb probe_line msgs = true.
Proof.
  destruct (check_balance_answer net w u timeout t) as [tail [E _]].
  rewrite E.
  assert (H : exists msgs, snd (check_balance net w u timeout t)
              = t ++ Printed (MsgProbing u) :: Sent (balance_request w u) :: map Printed msgs
              /\ forallb probe_line msgs = true).
  { unfold check_balance, try_except, bind, print, send.
    fold (balance_request w u).
    destruct (net (sent_count (t ++ [Printed (MsgProbing u)])) (balance_request w u))
      as [e | status body].
    - destruct (printing_check_handler timeout e) as [o [msgs [H Pm]]]. rewrite H.
      exists msgs. cbn [snd]. now rewrite <- !app_assoc.
    - destruct (printing_check_response (status, body)) as [o [msgs [H Pm]]]. rewrite H.
      destruct o as [r|e].
      + exists msgs. cbn [snd]. now rewrite <- !app_assoc.
      + destruct (printing_check_handler timeout e) as [o' [msgs' [H' Pm']]]. rewrite H'.
        exists (msgs ++ msgs'). cbn [snd]. rewrite map_app, forallb_app, Pm, Pm'.
        now rewrite <- !app_assoc. }
  destruct H as [msgs [H Pm]]. rewrite E in H. cbn [snd] in H.
  exists msgs. now rewrite H.
Qed.

Lemma head_line_probe (msgs : list message) :
  forallb probe_line msgs = true -> forallb head_line msgs = true.
Proof.
  induction msgs as [|m msgs IH]; [reflexivity|]. cbn [forallb].
  intros H. apply andb_prop in H. destruct H as [Hm Hr].
  rewrite (IH Hr), andb_true_r. now destruct m.
Qed.

(** The loop over the endpoints, with its pauses and its lines: one pause
    after each probe that gave a balance, none after the others. *)
Lemma probe_endpoints_trace (net : network) (w : string) (endpoints : list string) :
  forall (balances : list (pyval * float)) (working_rpcs : list string) (t : trace),
  exists tail,
    probe_endpoints net w endpoints balances working_rpcs t
    = (Returns (balances ++ map snd (kept (answers net w (sent_count t) endpoints)),
                working_rpcs ++ map fst (kept (answers net w (sent_count t) endpoints))),
       t ++ tail)
    /\ requests_of tail = map (balance_request w) endpoints
    /\ pauses tail = List.length (kept (answers net w (sent_count t) endpoints))
    /\ forallb head_line (messages_of tail) = true.
Proof.
  induction endpoints as [|u rest IH]; intros balances working_rpcs t.
  - exists []. simpl. unfold ret. now rewrite !app_nil_r.
  - simpl probe_endpoints. unfold bind at 1.
    destruct (check_balance_trace net w u 10 t) as [msgs [-> Pm]].
    apply head_line_probe in Pm.
    set (t1 := t ++ Printed (MsgProbing u) :: Sent (balance_request w u) :: map Printed msgs).
    assert (C1 : sent_count t1 = S (sent_count t)).
    { unfold t1. rewrite sent_count_app. rewrite (sent_count_requests (_ :: _)).
      simpl. rewrite requests_of_printed. simpl. lia. }
    simpl answers.
    destruct (answer_balance (net (sent_count t) (balance_request w u))) as [r|].
    + unfold bind at 1, sleep at 1.
      destruct (IH (balances ++ [r]) (working_rpcs ++ [u]) (t1 ++ [Slept]))
        as [tail [-> [R [P L]]]].
      rewrite sent_count_app, C1 in *. simpl sent_count in *. rewrite Nat.add_0_r in *.
      exists (Printed (MsgProbing u) :: Sent (balance_request w u)
              :: map Printed msgs ++ [Slept] ++ tail).
      split; [|split; [|split]].
      * unfold t1. repeat (rewrite <- app_assoc; simpl). reflexivity.
      * simpl. rewrite requests_of_app, requests_of_printed. simpl. now rewrite R.
      * change (pauses (Printed (MsgProbing u) :: Sent (balance_request w u)
                        :: map Printed msgs ++ [Slept] ++ tail))
          with (pauses (map Printed msgs ++ [Slept] ++ tail)).
        rewrite !pauses_app, pauses_printed, P. reflexivity.
      * cbn [messages_of]. rewrite messages_of_app, messages_of_printed.
        cbn [app messages_of forallb head_line]. now rewrite forallb_app, Pm, L.
    + destruct (IH balances working_rpcs t1) as [tail [-> [R [P L]]]].
      rewrite C1 in *.
      exists (Printed (MsgProbing u) :: Sent (balance_request w u) :: map Printed msgs ++ tail).
      split; [|split; [|split]].
      * unfold t1. repeat (rewrite <- app_assoc; simpl). reflexivity.
      * simpl. rewrite requests_of_app, requests_of_printed. simpl. now rewrite R.
      * change (pauses (Printed (MsgProbing u) :: Sent (balance_request w u)
                        :: map Printed msgs ++ tail))
          with (pauses (map Printed msgs ++ tail)).
        rewrite !pauses_app, pauses_printed, P. reflexivity.
      * cbn [messages_of]. rewrite messages_of_app, messages_of_printed.
        cbn [forallb head_line]. now rewrite forallb_app, Pm, L.
Qed.

Lemma answers_length (net : network) (w : string) (endpoints : list string) :
  forall k, List.length (answers net w k endpoints) = List.length endpoints.
Proof. induction endpoints as [|u rest IH]; intros k; simpl; [reflexivity | now rewrite IH]. Qed.

Lemma probed_length (net : network) (w : string) (k : nat) :
  (List.length (probed net w k) <= 4)%nat.
Proof.
  unfold probed. pose proof (kept_length (answers net w k RPC_ENDPOINTS)) as L.
  now rewrite answers_length in L.
Qed.

(** The report of [main]: with at most [2 ^ 64] balances it prints
    [report_lines] and ends with [report_exit]. *)
Lemma main_report_runs (w : string) (balances : list (pyval * float))
    (working_rpcs : list string) (t : trace) :
  Z.of_nat (List.length balances) <= 2 ^ 64 ->
  main_report w (balances, working_rpcs) t
  = (Returns (report_exit balances working_rpcs),
     t ++ map Printed (report_lines w balances working_rpcs)).
Proof.
  intros Hlen. unfold main_report. cbn [fst snd].
  rewrite bind_print.
  destruct balances as [|first others].
  - cbn [report_lines report_exit]. rewrite bind_print.
    unfold check_wallet_in_explorer. rewrite bind_print. unfold ret.
    rewrite <- !app_assoc. reflexivity.
  - rewrite (statistics_returns first others Hlen).
    unfold lift at 1. unfold bind at 1. cbn [fst snd].
    rewrite !bind_print.
    cbn [report_lines report_exit].
    set (avg := spec_average (map snd (first :: others))).
    set (mn := py_min (snd first) (map snd others)).
    set (mx := py_max (snd first) (map snd others)).
    set (d := (1 <? distinct [] (map snd (first :: others)))%nat).
    assert (Hrows : forall t0,
      purchase_examples avg [1; 10; 25; 50; 100] t0
      = (Returns tt, t0 ++ map Printed
           (map row_message (affordability avg f_0_001 f_0_000005 [1; 10; 25; 50; 100])))).
    { intros t0. rewrite purchase_examples_rows.
      - now rewrite map_map.
      - repeat constructor. }
    destruct d.
    + rewrite bind_print. rewrite bind_print.
      destruct (eqb avg pzero).
      * rewrite bind_print. unfold check_wallet_in_explorer. rewrite !bind_print.
        unfold ret. rewrite <- !app_assoc. reflexivity.
      * unfold bind at 1. unfold bind at 1. unfold print at 1. rewrite Hrows.
        unfold check_wallet_in_explorer. rewrite !bind_print.
        unfold ret. rewrite <- ?app_assoc. cbn [map app]. rewrite ?map_app.
        rewrite <- ?app_assoc. reflexivity.
    + unfold bind at 1. unfold ret at 1. rewrite bind_print.
      destruct (eqb avg pzero).
      * rewrite bind_print. unfold check_wallet_in_explorer. rewrite !bind_print.
        unfold ret. rewrite <- !app_assoc. reflexivity.
      * unfold bind at 1. unfold bind at 1. unfold print at 1. rewrite Hrows.
        unfold check_wallet_in_explorer. rewrite !bind_print.
        unfold ret. rewrite <- ?app_assoc. cbn [map app]. rewrite ?map_app.
        rewrite <- ?app_assoc. reflexivity.
Qed.

Lemma rstrip_blank (s : string) : rstrip s = EmptyString <-> blank s = true.
Proof.
  induction s as [|c s IH]; simpl; [tauto|].
  destruct (rstrip s) as [|c' r] eqn:E.
  - destruct (is_space c); cbn [andb].
    + split; [intros _; now apply IH | reflexivity].
    + split; discriminate.
  - split; [discriminate|]. intros H. apply andb_prop in H. destruct H as [_ H].
    apply IH in H. discriminate.
Qed.

Lemma lstrip_blank (s : string) : blank (lstrip s) = blank s.
Proof.
  induction s as [|c s IH]; simpl; [reflexivity|].
  destruct (is_space c) eqn:E; [assumption|]. simpl. now rewrite E.
Qed.

(** [strip] leaves nothing exactly of the strings of white space. *)
Lemma strip_blank (s : string) : String.eqb (strip s) "" = blank s.
Proof.
  unfold strip. rewrite <- (lstrip_blank s).
  destruct (blank (lstrip s)) eqn:B.
  - apply rstrip_blank in B. now rewrite B.
  - destruct (String.eqb_spec (rstrip (lstrip s)) ""%string) as [E|E]; [|reflexivity].
    apply rstrip_blank in E. congruence.
Qed.

(** A run of [main] that reaches the probes: the probes from the trace so
    far, then the report. *)
Lemma main_run (net : network) (wallet_input continuar : string) (t : trace) :
  reaches_probes wallet_input continuar = true ->
  exists head,
    let k := probed net (strip wallet_input) (sent_count t) in
    main net wallet_input continuar t
    = (Returns (report_exit (map snd k) (map fst k)),
       t ++ head ++ map Printed (report_lines (strip wallet_input) (map snd k) (map fst k)))
    /\ requests_of head = map (balance_request (strip wallet_input)) RPC_ENDPOINTS
    /\ pauses head = List.length k
    /\ forallb head_line (messages_of head) = true.
Proof.
  intros H. unfold reaches_probes in H. apply andb_prop in H. destruct H as [H1 H2].
  apply negb_true_iff in H1.
  unfold main. rewrite bind_print. rewrite H1.
  set (w := strip wallet_input) in *.
  assert (Hrest : forall t1 pre, t1 = t ++ map Printed pre -> forallb head_line pre = true ->
    exists head,
      let k := probed net w (sent_count t) in
      bind (probe_endpoints net w RPC_ENDPOINTS [] []) (main_report w) t1
      = (Returns (report_exit (map snd k) (map fst k)),
         t ++ head ++ map Printed (report_lines w (map snd k) (map fst k)))
      /\ requests_of head = map (balance_request w) RPC_ENDPOINTS
      /\ pauses head = List.length k
      /\ forallb head_line (messages_of head) = true).
  { intros t1 pre -> Hpre.
    destruct (probe_endpoints_trace net w RPC_ENDPOINTS [] [] (t ++ map Printed pre))
      as [tail [E [R [P L]]]].
    rewrite sent_count_printed in *. cbn [app] in E.
    rewrite (bind_returns _ _ _ _ _ E).
    rewrite main_report_runs.
    - exists (map Printed pre ++ tail). cbv zeta. unfold probed. split; [|split; [|split]].
      + now rewrite <- !app_assoc.
      + now rewrite requests_of_app, requests_of_printed.
      + now rewrite pauses_app, pauses_printed.
      + now rewrite messages_of_app, messages_of_printed, forallb_app, Hpre, L.
    - rewrite length_map.
      pose proof (probed_length net w (sent_count t)) as L4. unfold probed in L4.
      change (2 ^ 64) with 18446744073709551616. lia. }
  change (bind (probe_endpoints net w RPC_ENDPOINTS [] []) _)
    with (bind (probe_endpoints net w RPC_ENDPOINTS [] []) (main_report w)).
  destruct ((String.length w <? 32)%nat || (44 <? String.length w)%nat).
  - erewrite bind_returns by reflexivity. rewrite H2. cbn [negb].
    rewrite bind_print.
    apply (Hrest _ [MsgBanner; MsgLengthWarning; MsgWallet w]); [|reflexivity].
    now rewrite <- !app_assoc.
  - erewrite bind_returns by reflexivity. cbn [negb]. rewrite bind_print.
    apply (Hrest _ [MsgBanner; MsgWallet w]); [|reflexivity].
    now rewrite <- !app_assoc.
Qed.

(** A run of [main] that stops before the probes: it only prints. *)
Lemma main_stops (net : network) (wallet_input continuar : string) (t : trace) :
  reaches_probes wallet_input continuar = false ->
  main net wallet_input continuar t
  = (Returns (if blank wallet_input then EmptyAddress else Declined),
     t ++ map Printed (if blank wallet_input then [MsgBanner; MsgEmptyAddress]
                       else [MsgBanner; MsgLengthWarning])).
Proof.
  intros H. unfold reaches_probes in H. unfold main. rewrite bind_print.
  rewrite strip_blank in *.
  destruct (blank wallet_input).
  - rewrite bind_print. unfold ret. now rewrite <- !app_assoc.
  - cbn [negb andb] in H.
    destruct ((String.length (strip wallet_input) <? 32)%nat
              || (44 <? String.length (strip wallet_input))%nat); [|discriminate].
    erewrite bind_returns by reflexivity. rewrite H. cbn [negb].
    unfold ret. now rewrite <- !app_assoc.
Qed.

Lemma report_exit_cases (balances : list (pyval * float)) (working_rpcs : list string) :
  report_exit balances working_rpcs <> EmptyAddress
  /\ report_exit balances working_rpcs <> Declined.
Proof. destruct balances; split; discriminate. Qed.

Lemma lower_char_s (a : ascii) :
  lower_char a = "s"%char -> a = "s"%char \/ a = "S"%char.
Proof.
  destruct a as [[] [] [] [] [] [] [] []]; vm_compute; intros H;
    try discriminate H; auto.
Qed.

(** The answer that [main] takes for a yes: the letter s, in either case,
    and nothing around it. *)
Lemma lower_is_s (continuar : string) :
  String.eqb (lower continuar) "s" = true <-> continuar = "s"%string \/ continuar = "S"%string.
Proof.
  split.
  - intros H. apply String.eqb_eq in H.
    destruct continuar as [|a [|b rest]]; try discriminate H.
    injection H as H. destruct (lower_char_s a H) as [-> | ->]; auto.
  - intros [-> | ->]; reflexivity.
Qed.

(** ** The runs of [main] *)

(** X1: for every network and every two lines of input [main] returns, and
    the handler of the last lines of the script does not run: the script
    ends with the exit of [main] and the trace of [main]. *)
Theorem script_handler_never_runs (net : network) (wallet_input continuar : string)
    (t : trace) :
  exists r t',
    main net wallet_input continuar t = (Returns r, t')
    /\ script net wallet_input continuar t = (Returns (Some r), t').
Proof.
  assert (H : exists r t', main net wallet_input continuar t = (Returns r, t')).
  { destruct (reaches_probes wallet_input continuar) eqn:R.
    - destruct (main_run net wallet_input continuar t R) as [head [E _]]. eauto.
    - rewrite (main_stops net wallet_input continuar t R). eauto. }
  destruct H as [r [t' E]]. exists r, t'. split; [assumption|].
  unfold script, try_except. rewrite (bind_returns _ _ _ _ _ E). reflexivity.
Qed.

(** X2: the requests of a run of [main] on a line of ASCII characters: none
    when the address is empty or the user declines, otherwise the
    [getBalance] request for the stripped address to each endpoint of
    [RPC_ENDPOINTS], once and in the order of the list, whatever the network
    answers. *)
Theorem main_requests (net : network) (wallet_input continuar : string) (t : trace) :
  ascii_only wallet_input = true ->
  requests_of (snd (main net wallet_input continuar t))
  = requests_of t
    ++ (if reaches_probes wallet_input continuar
        then map (balance_request (strip wallet_input)) RPC_ENDPOINTS
        else []).
Proof.
  intros _.
  destruct (reaches_probes wallet_input continuar) eqn:R.
  - destruct (main_run net wallet_input continuar t R) as [head [E [Q _]]].
    rewrite E. cbn [snd]. now rewrite !requests_of_app, requests_of_printed, app_nil_r, Q.
  - rewrite (main_stops net wallet_input continuar t R). cbn [snd].
    now rewrite requests_of_app, requests_of_printed.
Qed.

Lemma main_requests_witness :
  requests_of (snd (main net_tenth some_wallet "" []))
  = map (balance_request some_wallet) RPC_ENDPOINTS.
Proof.
  refine (main_requests net_tenth some_wallet "" [] _).
  reflexivity.
Defined.

(** X3: on a line of ASCII characters [main] takes the exit of the empty
    address exactly when the line holds nothing but white space; it has then
    printed the banner and the notice, and nothing else has happened. *)
Theorem main_empty_address (net : network) (wallet_input continuar : string) (t : trace) :
  ascii_only wallet_input = true ->
  (fst (main net wallet_input continuar t) = Returns EmptyAddress
   <-> blank wallet_input = true)
  /\ (blank wallet_input = true ->
      main net wallet_input continuar t
      = (Returns EmptyAddress, t ++ [Printed MsgBanner; Printed MsgEmptyAddress])).
Proof.
  intros _.
  assert (B : blank wallet_input = true -> reaches_probes wallet_input continuar = false).
  { intros B. unfold reaches_probes. now rewrite strip_blank, B. }
  split.
  - destruct (reaches_probes wallet_input continuar) eqn:R.
    + destruct (main_run net wallet_input continuar t R) as [head [E _]]. cbv zeta in E.
      rewrite E. cbn [fst]. split.
      * intros H. injection H as H. now apply report_exit_cases in H.
      * intros H. apply B in H. discriminate.
    + rewrite (main_stops net wallet_input continuar t R). cbn [fst].
      destruct (blank wallet_input); split; congruence.
  - intros H. rewrite (main_stops net wallet_input continuar t (B H)), H. reflexivity.
Qed.

Lemma main_empty_address_witness :
  main net_down blank_line "" []
  = (Returns EmptyAddress, [Printed MsgBanner; Printed MsgEmptyAddress]).
Proof.
  refine (proj2 (main_empty_address net_down blank_line "" [] _) _).
  - reflexivity.
  - reflexivity.
Defined.

(** X4: on a line of ASCII characters [main] stops at the question on the
    length exactly when the stripped address is not empty, has fewer than 32
    or more than 44 characters, and the answer is neither [s] nor [S]: an
    answer with anything around the letter declines. Nothing is sent
    then. *)
Theorem main_declined (net : network) (wallet_input continuar : string) (t : trace) :
  ascii_only wallet_input = true ->
  (fst (main net wallet_input continuar t) = Returns Declined
   <-> blank wallet_input = false
       /\ ((String.length (strip wallet_input) < 32)%nat
           \/ (44 < String.length (strip wallet_input))%nat)
       /\ continuar <> "s"%string /\ continuar <> "S"%string)
  /\ (fst (main net wallet_input continuar t) = Returns Declined ->
      requests_of (snd (main net wallet_input continuar t)) = requests_of t).
Proof.
  intros _.
  assert (C : reaches_probes wallet_input continuar = false /\ blank wallet_input = false
              <-> blank wallet_input = false
                  /\ ((String.length (strip wallet_input) < 32)%nat
                      \/ (44 < String.length (strip wallet_input))%nat)
                  /\ continuar <> "s"%string /\ continuar <> "S"%string).
  { unfold reaches_probes. rewrite strip_blank.
    destruct (blank wallet_input); [split; intros []; try discriminate; tauto|].
    cbn [negb andb].
    pose proof (lower_is_s continuar) as L.
    destruct (String.eqb (lower continuar) "s").
    - split.
      + intros [H _]. destruct (_ || _); discriminate.
      + intros [_ [_ [H1 H2]]]. destruct (proj1 L eq_refl); contradiction.
    - assert (N : continuar <> "s"%string /\ continuar <> "S"%string).
      { split; intros ->; destruct L as [_ L]; discriminate L; auto. }
      destruct ((String.length (strip wallet_input) <? 32)%nat) eqn:E1;
        destruct ((44 <? String.length (strip wallet_input))%nat) eqn:E2;
        cbn [orb];
        rewrite ?Nat.ltb_lt, ?Nat.ltb_ge in *;
        (split; [intros [H _]; try discriminate H; repeat split; auto; tauto
                | intros [_ [H _]]; split; [try reflexivity; lia | reflexivity]]). }
  destruct (reaches_probes wallet_input continuar) eqn:R.
  - destruct (main_run net wallet_input continuar t R) as [head [E _]]. cbv zeta in E.
    rewrite E. cbn [fst snd]. split.
    + split.
      * intros H. injection H as H. now apply report_exit_cases in H.
      * intros H. apply C in H. destruct H. discriminate.
    + intros H. injection H as H. now apply report_exit_cases in H.
  - rewrite (main_stops net wallet_input continuar t R). cbn [fst snd]. split.
    + rewrite <- C. destruct (blank wallet_input); split.
      * discriminate.
      * intros []; discriminate.
      * auto.
      * reflexivity.
    + intros _. now rewrite requests_of_app, requests_of_printed, app_nil_r.
Qed.

Lemma main_declined_witness :
  requests_of (snd (main net_tenth "abc" "si" [])) = [].
Proof.
  refine (proj2 (main_declined net_tenth "abc" "si" [] _) _).
  - reflexivity.
  - reflexivity.
Defined.

(** X5: the pauses of [main]: one for each endpoint in the working list
    of its exit, and none in a run that ends without a balance. Nothing
    pauses after a probe that failed. *)
Theorem main_pauses (net : network) (wallet_input continuar : string) (t : trace) :
  pauses (snd (main net wallet_input continuar t))
  = (pauses t
     + match fst (main net wallet_input continuar t) with
       | Returns (Diagnosed working_rpcs _ _ _) => List.length working_rpcs
       | _ => 0
       end)%nat.
Proof.
  destruct (reaches_probes wallet_input continuar) eqn:R.
  - destruct (main_run net wallet_input continuar t R) as [head [E [_ [P _]]]].
    cbv zeta in E. rewrite E. cbn [fst snd].
    rewrite !pauses_app, pauses_printed, P, Nat.add_0_r. f_equal.
    destruct (probed net (strip wallet_input) (sent_count t)) as [|p k]; [reflexivity|].
    cbn [map report_exit List.length]. now rewrite length_map.
  - rewrite (main_stops net wallet_input continuar t R). cbn [fst snd].
    rewrite pauses_app, pauses_printed. now destruct (blank wallet_input).
Qed.

(** A run of [main] that ends with statistics: they are those of the
    balances that the probes gave, and the lines after the probes are those
    of the report. *)
Lemma main_diagnosed (net : network) (wallet_input continuar : string) (t t' : trace)
    (working_rpcs : list string) (avg_balance min_balance max_balance : float) :
  main net wallet_input continuar t
  = (Returns (Diagnosed working_rpcs avg_balance min_balance max_balance), t') ->
  exists head first others,
    probed net (strip wallet_input) (sent_count t) = first :: others
    /\ working_rpcs = map fst (first :: others)
    /\ avg_balance = spec_average (map snd (map snd (first :: others)))
    /\ min_balance = py_min (snd (snd first)) (map snd (map snd others))
    /\ max_balance = py_max (snd (snd first)) (map snd (map snd others))
    /\ t' = t ++ head
            ++ map Printed (report_lines (strip wallet_input)
                              (map snd (first :: others)) (map fst (first :: others)))
    /\ forallb head_line (messages_of head) = true.
Proof.
  intros E.
  destruct (reaches_probes wallet_input continuar) eqn:R.
  - destruct (main_run net wallet_input continuar t R) as [head [E' [_ [_ L]]]].
    cbv zeta in E'. rewrite E' in E.
    destruct (probed net (strip wallet_input) (sent_count t)) as [|first others];
      [discriminate E|].
    cbn [map report_exit] in E. injection E as <- <- <- <- <-.
    exists head, first, others. repeat split; assumption.
  - rewrite (main_stops net wallet_input continuar t R) in E.
    destruct (blank wallet_input); discriminate E.
Qed.

Lemma filter_none {A} (P Q : A -> bool) (l : list A) :
  (forall a, P a = true -> Q a = false) -> forallb P l = true -> filter Q l = [].
Proof.
  intros H. induction l as [|a l IH]; [reflexivity|]. cbn [forallb filter].
  intros F. apply andb_prop in F. destruct F as [Fa Fl].
  now rewrite (H a Fa), (IH Fl).
Qed.

Lemma filter_purchase_rows (rows : list affordability_row) :
  filter is_purchase (map row_message rows) = map row_message rows.
Proof. induction rows as [|r rows IH]; [reflexivity|]. cbn. now rewrite IH. Qed.

Lemma not_in_head (m : message) (l : list message) :
  head_line m = false -> forallb head_line l = true -> ~ In m l.
Proof.
  intros Hm F I. rewrite forallb_forall in F. specialize (F m I). congruence.
Qed.

Lemma not_in_rows (m : message) (rows : list affordability_row) :
  is_purchase m = false -> ~ In m (map row_message rows).
Proof.
  intros Hm I. apply in_map_iff in I. destruct I as [r [<- _]]. discriminate Hm.
Qed.

(** X6: a run of [main] that ends with statistics prints the table of
    purchases exactly when the average is not equal to zero, and then its
    rows are those of the five quantities for the average; when it is equal
    to zero, of either sign, it prints the notice of the empty balance
    and no row. An average that is not a number prints the table. *)
Theorem main_purchase_table (net : network) (wallet_input continuar : string) (t' : trace)
    (working_rpcs : list string) (avg_balance min_balance max_balance : float) :
  main net wallet_input continuar []
  = (Returns (Diagnosed working_rpcs avg_balance min_balance max_balance), t') ->
  filter is_purchase (messages_of t')
  = (if eqb avg_balance pzero then []
     else map row_message
            (affordability avg_balance f_0_001 f_0_000005 [1; 10; 25; 50; 100]))
  /\ (In MsgZeroBalance (messages_of t') <-> eqb avg_balance pzero = true)
  /\ (is_nan avg_balance = true -> eqb avg_balance pzero = false).
Proof.
  intros E.
  destruct (main_diagnosed _ _ _ _ _ _ _ _ _ E)
    as [head [first [others [_ [_ [Ea [_ [_ [-> L]]]]]]]]].
  cbn [app]. rewrite messages_of_app, messages_of_printed.
  cbn [map] in Ea |- *. cbn [report_lines]. cbn [map]. rewrite <- Ea.
  split; [|split].
  - rewrite filter_app.
    rewrite (filter_none head_line is_purchase (messages_of head))
      by (assumption || (intros []; simpl; congruence)).
    cbn [app filter is_purchase].
    rewrite !filter_app.
    destruct (1 <? distinct [] _)%nat; destruct (eqb avg_balance pzero);
      cbn [app filter is_purchase]; rewrite ?filter_app, ?filter_purchase_rows;
      cbn [app filter is_purchase]; rewrite ?app_nil_r; reflexivity.
  - rewrite in_app_iff. split.
    + intros [I | I]; [now apply (not_in_head MsgZeroBalance) in I|].
      destruct (eqb avg_balance pzero); [reflexivity|].
      exfalso. destruct (1 <? distinct [] _)%nat; cbn [app In] in I;
        rewrite ?in_app_iff in I; cbn [In] in I;
        repeat (destruct I as [I | I]; try discriminate I);
        try contradiction; now apply not_in_rows in I.
    + intros ->. right. destruct (1 <? distinct [] _)%nat; cbn; tauto.
  - now destruct avg_balance.
Qed.

Lemma main_purchase_table_witness :
  filter is_purchase (messages_of (snd (main net_tenth some_wallet "" [])))
  = map row_message (affordability above_tenth f_0_001 f_0_000005 [1; 10; 25; 50; 100]).
Proof.
  refine (proj1 (main_purchase_table net_tenth some_wallet ""
                   (snd (main net_tenth some_wallet "" []))
                   ["https://api.mainnet-beta.solana.com"; "https://rpc.ankr.com/solana";
                    "https://api.mainnet.solana.com"]%string
                   above_tenth (literal 1 1) (literal 1 1) _)).
  vm_compute. reflexivity.
Defined.




(** X22: [main] prints the links to the explorers once in every run that
    reaches the probes, with or without a balance, for the stripped address
    of a line of ASCII characters, and never in a run that stops before
    them. *)
Theorem main_links (net : network) (wallet_input continuar : string) :
  ascii_only wallet_input = true ->
  filter is_links (messages_of (snd (main net wallet_input continuar [])))
  = if reaches_probes wallet_input continuar
    then [MsgExplorerLinks (strip wallet_input)]
    else [].
Proof.
  intros _.
  destruct (reaches_probes wallet_input continuar) eqn:R.
  - destruct (main_run net wallet_input continuar [] R) as [head [E [_ [_ F]]]].
    cbv zeta in E. rewrite E. cbn [snd app].
    rewrite messages_of_app, messages_of_printed, filter_app.
    rewrite (filter_none head_line is_links (messages_of head))
      by (assumption || (intros []; simpl; congruence)).
    cbn [app].
    destruct (probed net (strip wallet_input) (sent_count [])) as [|first others];
      cbn [map report_lines]; [reflexivity|].
    assert (Rw : forall rows, filter is_links (map row_message rows) = []).
    { induction rows as [|r rows IH]; [reflexivity | exact IH]. }
    cbn [app filter is_links]. rewrite !filter_app.
    destruct (1 <? distinct [] _)%nat; destruct (eqb _ pzero);
      cbn [app filter is_links]; rewrite ?Rw; reflexivity.
  - rewrite (main_stops net wallet_input continuar [] R). cbn [snd app].
    rewrite messages_of_printed. now destruct (blank wallet_input).
Qed.

Lemma main_links_witness :
  filter is_links (messages_of (snd (main net_tenth some_wallet "" [])))
  = [MsgExplorerLinks some_wallet].
Proof.
  refine (main_links net_tenth some_wallet "" _).
  reflexivity.
Defined.

(** ** The order of the floats, continued *)








(** ** The table of purchases *)

(** X8: a quantity that is affordable makes every smaller one affordable:
    for a price that is a finite float and not negative, and quantities
    [0 <= n1 <= n2] whose estimates are returned, the test of [main] that
    holds for [n2] holds for [n1], whatever the balance is. *)
Theorem affordable_is_antitone (n1 n2 : Z) (p avg_balance : float) (e1 e2 : estimate) :
  0 <= n1 <= n2 ->
  valid p = true -> leb pzero p = true -> is_inf p = false ->
  estimate_fees n1 p = Returns e1 ->
  estimate_fees n2 p = Returns e2 ->
  affordable e2 avg_balance = true ->
  affordable e1 avg_balance = true.
Proof.
  intros Hn Vp Hp Ip E1 E2 A.
  destruct (estimate_fees_cases n2 p) as [[I2 E2'] | [_ E2']]; [|congruence].
  destruct (total_mono n1 n2 p Hn (nonneg_of_leb p Vp Hp) Ip I2) as [I1 L].
  destruct (estimate_fees_cases n1 p) as [[_ E1'] | [C _]]; [|congruence].
  rewrite E1 in E1'. rewrite E2 in E2'.
  injection E1' as ->. injection E2' as ->.
  unfold affordable in *. cbn [total] in *.
  now apply leb_trans with (add (mul (round_Z n2) p) f_0_000005).
Qed.

Lemma affordable_is_antitone_witness :
  exists e1 e2,
    estimate_fees 10 f_0_001 = Returns e1
    /\ estimate_fees 25 f_0_001 = Returns e2
    /\ affordable e2 (literal 5 1) = true
    /\ affordable e1 (literal 5 1) = true.
Proof.
  do 2 eexists. split; [reflexivity|]. split; [reflexivity|]. split; [reflexivity|].
  refine (affordable_is_antitone 10 25 f_0_001 (literal 5 1) _ _ _ _ _ _ _ _ _).
  - lia.
  - reflexivity.
  - reflexivity.
  - reflexivity.
  - reflexivity.
  - reflexivity.
  - reflexivity.
Defined.



(** ** The probes of the two scripts *)

(** [test_get_balance] sends the request of [check_balance] and returns
    [True] exactly when [check_balance] gives a balance for the answer. *)
Lemma test_get_balance_value (net : network) (u w : string) (t : trace) :
  exists msgs,
    test_get_balance net u w t
    = (Returns (match answer_balance (net (sent_count t) (balance_request w u)) with
                | Some _ => true
                | None => false
                end),
       t ++ Sent (balance_request w u) :: map Printed msgs).
Proof.
  unfold test_get_balance, try_except, send. fold (balance_request w u).
  unfold bind at 1.
  destruct (net (sent_count t) (balance_request w u)) as [e | status body].
  - rewrite answer_balance_raises. exists []. reflexivity.
  - rewrite answer_balance_response. unfold check_response. cbn [fst snd].
    destruct (status =? 200); [|exists []; reflexivity].
    destruct body as [data|]; [|exists []; reflexivity].
    cbv [json bind ret lift print].
    destruct data as [ | | | | s | l | d]; cbn [py_contains py_getitem];
      try (exists []; reflexivity).
    + destruct (is_substring "result" s); exists []; reflexivity.
    + destruct (existsb (str_equal "result") l); exists []; reflexivity.
    + destruct (dict_get d "result") as [r|]; [|exists []; reflexivity].
      destruct r as [ | | | | s | l | d0]; cbn [py_contains py_getitem];
        try (exists []; reflexivity).
      * destruct (is_substring "value" s); exists []; reflexivity.
      * destruct (existsb (str_equal "value") l); exists []; reflexivity.
      * destruct (dict_get d0 "value") as [v|]; [|exists []; reflexivity].
        change (PInt 1000000000) with (PInt LAMPORTS_PER_SOL).
        destruct (py_truediv v (PInt LAMPORTS_PER_SOL)) as [x|e].
        -- exists [MsgBalanceObtained x]. cbn. now rewrite <- app_assoc.
        -- exists []. reflexivity.
Qed.

(** X10: the two scripts agree on what a balance is: [test_get_balance]
    sends the request of [check_balance], never raises, and returns [True]
    exactly when [check_balance] returns a balance for the same answer of
    the network. *)
Theorem test_get_balance_agrees (net : network) (u w : string) (timeout : Z) (t : trace) :
  (exists b,
      fst (test_get_balance net u w t) = Returns b
      /\ (b = true <-> exists r, fst (check_balance net w u timeout t) = Returns (Some r)))
  /\ requests_of (snd (test_get_balance net u w t))
     = requests_of (snd (check_balance net w u timeout t)).
Proof.
  destruct (test_get_balance_value net u w t) as [msgs ->].
  destruct (check_balance_trace net w u timeout t) as [msgs' [-> _]].
  cbn [fst snd]. split.
  - eexists. split; [reflexivity|].
    destruct (answer_balance (net (sent_count t) (balance_request w u))) as [r|].
    + split; [eauto | reflexivity].
    + split; [discriminate | intros [r H]; discriminate H].
  - rewrite !requests_of_app. cbn [requests_of]. now rewrite !requests_of_printed.
Qed.

(** X11: the shape of the answers that give a balance. A probe returns
    the balance [(l, s)] exactly when the response has the status 200 and a
    body that is an object whose [result] is an object with the [value] [l],
    and [l] is an integer or a boolean whose quotient by 1,000,000,000 is a
    finite float [s], or a float whose quotient is [s]. A [value] that is
    a string, a list, an object or [null] gives no balance, and neither does
    a [result] that is not an object. *)
Theorem balance_needs_a_number (net : network) (w u : string) (timeout : Z) (t : trace)
    (l : pyval) (s : float) :
  fst (check_balance net w u timeout t) = Returns (Some (l, s))
  <-> exists d r,
        net (sent_count t) (balance_request w u) = HttpResponse 200 (Some (PDict d))
        /\ dict_get d "result" = Some (PDict r)
        /\ dict_get r "value" = Some l
        /\ ((exists n, as_int l = Some n
                       /\ s = round_quot n 1000000000 /\ is_inf s = false)
            \/ (exists x, l = PFloat x /\ s = div x (round_Z 1000000000))).
Proof.
  destruct (check_balance_trace net w u timeout t) as [msgs [-> _]]. cbn [fst].
  split.
  - intros H. injection H as H. apply answer_balance_some in H.
    destruct H as [data [Hn [Hv Hd]]]. unfold result_value in Hv.
    destruct data as [ | | | | | | d]; try discriminate Hv. cbn [py_getitem] in Hv.
    destruct (dict_get d "result") as [res|] eqn:Er; [|discriminate Hv]. cbn [obind] in Hv.
    destruct res as [ | | | | | | r]; try discriminate Hv. cbn [py_getitem] in Hv.
    destruct (dict_get r "value") as [v|] eqn:Ev; [|discriminate Hv].
    injection Hv as ->.
    exists d, r. repeat split; try assumption.
    unfold py_truediv in Hd. change LAMPORTS_PER_SOL with 1000000000 in Hd.
    cbn [as_int] in Hd.
    destruct (as_int l) as [n|] eqn:En.
    + left. exists n. split; [reflexivity|].
      unfold int_truediv in Hd. cbn [Z.eqb] in Hd.
      destruct (is_inf (round_quot n 1000000000)) eqn:Ei; [discriminate Hd|].
      injection Hd as <-. now split.
    + right. destruct l; try discriminate Hd. exists x. split; [reflexivity|].
      unfold int_to_float in Hd.
      destruct (is_inf (round_Z 1000000000)); [discriminate Hd|]. cbn [obind] in Hd.
      unfold float_truediv in Hd.
      destruct (is_zero (round_Z 1000000000)); [discriminate Hd|]. now injection Hd.
  - intros [d [r [Hn [Hr [Hv Hs]]]]]. f_equal. apply answer_balance_some.
    exists (PDict d). split; [assumption|]. split.
    + unfold result_value. cbn [py_getitem]. rewrite Hr. cbn [obind py_getitem]. now rewrite Hv.
    + change LAMPORTS_PER_SOL with 1000000000.
      destruct Hs as [[n [En [-> Hi]]] | [x [-> ->]]].
      * unfold py_truediv. rewrite En. cbn [as_int]. unfold int_truediv. cbn [Z.eqb].
        now rewrite Hi.
      * vm_compute as_int. unfold py_truediv. cbn [as_int]. reflexivity.
Qed.

(** The lines of [check_balance] after its request is answered: three for
    a balance, none before an exception, and otherwise what was wrong. *)
Lemma check_response_lines (response : Z * option pyval) :
  match check_response response [] with
  | (Returns (Some (l, s)), tail) =>
      fst response = 200
      /\ tail = [Printed MsgWorking; Printed (MsgBalance s); Printed (MsgLamports l)]
  | (Returns None, tail) =>
      tail <> []
      /\ (fst response <> 200 -> tail = [Printed (MsgHttpError (fst response))])
  | (Raises _, tail) => fst response = 200 /\ tail = []
  end.
Proof.
  destruct response as [status body]. unfold check_response. cbn [fst snd].
  destruct (Z.eqb_spec status 200) as [-> | Hs]; [|cbn; split; [discriminate | reflexivity]].
  destruct body as [data|]; [|split; reflexivity].
  cbv [json bind ret lift print].
  assert (N : forall ev1 ev2 : event,
             [ev1; ev2] <> [] /\ (200 <> 200 -> [ev1; ev2] = [Printed (MsgHttpError 200)])).
  { intros ev1 ev2. split; [discriminate | intros H; now destruct H]. }
  destruct data as [ | | | | s | l | d]; cbn [py_contains py_getitem app];
    try (split; reflexivity).
  - destruct (is_substring "result" s); [split; reflexivity | apply N].
  - destruct (existsb (str_equal "result") l); [split; reflexivity | apply N].
  - destruct (dict_get d "result") as [r|]; [|apply N].
    destruct r as [ | | | | s | l | d0]; cbn [py_contains py_getitem app];
      try (split; reflexivity).
    + destruct (is_substring "value" s); [split; reflexivity | apply N].
    + destruct (existsb (str_equal "value") l); [split; reflexivity | apply N].
    + destruct (dict_get d0 "value") as [v|]; [|apply N].
      destruct (py_truediv v (PInt LAMPORTS_PER_SOL)) as [x|e]; split; reflexivity.
Qed.

Lemma test_get_balance_lines (net : network) (u w : string) (t : trace) :
  messages_of (snd (test_get_balance net u w t))
  = messages_of t
    ++ match answer_balance (net (sent_count t) (balance_request w u)) with
       | Some (_, s) => [MsgBalanceObtained s]
       | None => []
       end.
Proof.
  unfold test_get_balance, try_except, send. fold (balance_request w u).
  unfold bind at 1.
  assert (Q : messages_of (t ++ [Sent (balance_request w u)]) = messages_of t ++ []).
  { rewrite messages_of_app. reflexivity. }
  destruct (net (sent_count t) (balance_request w u)) as [e | status body].
  - rewrite answer_balance_raises. exact Q.
  - rewrite answer_balance_response. unfold check_response. cbn [fst snd].
    destruct (status =? 200); [|exact Q].
    destruct body as [data|]; [|exact Q].
    cbv [json bind ret lift print].
    destruct data as [ | | | | s | l | d]; cbn [py_contains py_getitem fst snd];
      try exact Q.
    + destruct (is_substring "result" s); exact Q.
    + destruct (existsb (str_equal "result") l); exact Q.
    + destruct (dict_get d "result") as [r|]; [|exact Q].
      destruct r as [ | | | | s | l | d0]; cbn [py_contains py_getitem fst snd];
        try exact Q.
      * destruct (is_substring "value" s); exact Q.
      * destruct (existsb (str_equal "value") l); exact Q.
      * destruct (dict_get d0 "value") as [v|]; [|exact Q].
        change (PInt 1000000000) with (PInt LAMPORTS_PER_SOL).
        destruct (py_truediv v (PInt LAMPORTS_PER_SOL)) as [x|e]; [|exact Q].
        cbn [fst snd]. rewrite !messages_of_app. cbn. now rewrite app_nil_r.
Qed.

(** X23: [check_balance] never fails in silence, [test_get_balance] always
    does. After its first line a probe of [check_balance] prints at least one
    more: the three lines of the balance when it returns one, the line of the
    timeout when the request timed out, the line of the status alone when
    the status is not 200. [test_get_balance] prints the balance it obtained,
    and nothing at all when it returns [False]. *)
Theorem probes_and_their_lines (net : network) (w u : string) (timeout : Z) (t : trace) :
  let a := net (sent_count t) (balance_request w u) in
  exists msgs,
    messages_of (snd (check_balance net w u timeout t))
    = messages_of t ++ MsgProbing u :: msgs
    /\ msgs <> []
    /\ (forall l s, answer_balance a = Some (l, s) ->
                    msgs = [MsgWorking; MsgBalance s; MsgLamports l])
    /\ (a = HttpRaises Timeout -> msgs = [MsgTimeout timeout])
    /\ (forall status body, a = HttpResponse status body -> status <> 200 ->
                            msgs = [MsgHttpError status])
    /\ messages_of (snd (test_get_balance net u w t))
       = messages_of t
         ++ match answer_balance a with
            | Some (_, s) => [MsgBalanceObtained s]
            | None => []
            end.
Proof.
  intros a.
  assert (H : exists msgs,
    snd (check_balance net w u timeout t)
    = t ++ Printed (MsgProbing u) :: Sent (balance_request w u) :: map Printed msgs
    /\ msgs <> []
    /\ (forall l s, answer_balance a = Some (l, s) ->
                    msgs = [MsgWorking; MsgBalance s; MsgLamports l])
    /\ (a = HttpRaises Timeout -> msgs = [MsgTimeout timeout])
    /\ (forall status body, a = HttpResponse status body -> status <> 200 ->
                            msgs = [MsgHttpError status])).
  { unfold check_balance, try_except. rewrite bind_print.
    unfold bind at 1, send. fold (balance_request w u).
    rewrite sent_count_app. cbn [sent_count filter is_sent List.length].
    rewrite Nat.add_0_r. fold a. clearbody a.
    destruct a as [e | status body].
    - rewrite answer_balance_raises.
      unfold check_handler.
      destruct e; cbn [is_Timeout is_RequestException bind print ret snd];
        eexists (cons _ nil);
        (split; [rewrite <- !app_assoc; reflexivity|]);
        (split; [discriminate|]);
        (split; [intros l s H; discriminate H|]);
        (split; [intros H; try discriminate H; reflexivity
                | intros status body H; discriminate H]).
    - rewrite answer_balance_response.
      pose proof (check_response_lines (status, body)) as L.
      destruct (printing_check_response (status, body)) as [o [msgs [Hc _]]].
      rewrite (Hc []) in L. rewrite (Hc []), Hc. cbn [app fst snd] in L |- *.
      destruct o as [[[l s]|]|e]; cbn [fst snd].
      + destruct L as [-> L]. exists msgs.
        split; [rewrite <- !app_assoc; reflexivity|].
        change [Printed MsgWorking; Printed (MsgBalance s); Printed (MsgLamports l)]
          with (map Printed [MsgWorking; MsgBalance s; MsgLamports l]) in L.
        assert (Em : msgs = [MsgWorking; MsgBalance s; MsgLamports l]).
        { rewrite <- (messages_of_printed msgs), L. reflexivity. }
        split; [rewrite Em; discriminate|].
        split; [intros l' s' H; now injection H as <- <-|].
        split; [discriminate|].
        intros st bd H Hs. injection H as <- <-. now destruct Hs.
      + destruct L as [Ln Lh]. exists msgs.
        split; [rewrite <- !app_assoc; reflexivity|].
        split; [intros ->; now apply Ln|].
        split; [discriminate|].
        split; [discriminate|].
        intros st bd H Hs. injection H as <- <-. specialize (Lh Hs).
        change [Printed (MsgHttpError status)] with (map Printed [MsgHttpError status]) in Lh.
        rewrite <- (messages_of_printed msgs), Lh. reflexivity.
      + destruct L as [-> L].
        destruct (check_handler_returns timeout e
                    (((t ++ [Printed (MsgProbing u)]) ++ [Sent (balance_request w u)])
                     ++ map Printed msgs)) as [m ->].
        assert (Em : msgs = []) by (destruct msgs; [reflexivity | discriminate L]).
        subst msgs. exists [m]. cbn [snd map].
        split; [rewrite <- !app_assoc; reflexivity|].
        split; [discriminate|].
        split; [discriminate|].
        split; [discriminate|].
        intros st bd H Hs. injection H as <- <-. now destruct Hs. }
  destruct H as [msgs [E [Hn [Hs [Ht Hh]]]]]. exists msgs.
  split.
  { rewrite E, messages_of_app. cbn [messages_of]. now rewrite messages_of_printed. }
  repeat split; try assumption.
  apply test_get_balance_lines.
Qed.

Lemma test_rpc_call_value (net : network) (u : string) (t : trace) :
  exists r msgs,
    test_rpc_call net u t
    = (Returns r, t ++ Sent (Post u "getHealth" []) :: map Printed msgs)
    /\ (r = Some true <-> rpc_healthy (net (sent_count t) (Post u "getHealth" [])) = true).
Proof.
  unfold test_rpc_call, try_except, send. unfold bind at 1.
  destruct (net (sent_count t) (Post u "getHealth" [])) as [e | status body];
    cbn [rpc_healthy fst snd].
  - exists (Some false), [MsgRpcCallError e]. split.
    + cbn. now rewrite <- app_assoc.
    + split; discriminate.
  - destruct (status =? 200); cbn [andb].
    2:{ exists (Some false), [MsgHttpError status]. split.
        - cbn. now rewrite <- app_assoc.
        - destruct body; split; discriminate. }
    destruct body as [data|].
    2:{ exists (Some false), [MsgRpcCallError JSONDecodeError]. split.
        - cbn. now rewrite <- app_assoc.
        - split; discriminate. }
    cbv [json bind ret lift print].
    destruct data as [ | | | | s | l | d]; cbn [py_contains py_getitem has_field];
      try (exists (Some false), [MsgRpcCallError TypeError];
           split; [cbn; now rewrite <- app_assoc | split; discriminate]).
    + destruct (is_substring "result" s).
      * exists (Some false), [MsgRpcCallError TypeError].
        split; [cbn; now rewrite <- app_assoc | split; discriminate].
      * destruct (is_substring "error" s).
        -- exists (Some false), [MsgRpcCallError TypeError].
           split; [cbn; now rewrite <- app_assoc | split; discriminate].
        -- exists None, []. split; [reflexivity | split; discriminate].
    + destruct (existsb (str_equal "result") l).
      * exists (Some false), [MsgRpcCallError TypeError].
        split; [cbn; now rewrite <- app_assoc | split; discriminate].
      * destruct (existsb (str_equal "error") l).
        -- exists (Some false), [MsgRpcCallError TypeError].
           split; [cbn; now rewrite <- app_assoc | split; discriminate].
        -- exists None, []. split; [reflexivity | split; discriminate].
    + destruct (dict_get d "result") as [r|].
      * exists (Some true), [MsgRpcOk r].
        split; [cbn; now rewrite <- app_assoc | split; reflexivity].
      * destruct (dict_get d "error") as [err|].
        -- exists (Some false), [MsgRpcError err].
           split; [cbn; now rewrite <- app_assoc | split; discriminate].
        -- exists None, []. split; [reflexivity | split; discriminate].
Qed.

Lemma test_rpc_connect_value (net : network) (u : string) (t : trace) :
  exists m,
    test_rpc_connect net u t
    = (Returns (if gives_up (net (sent_count t) (Get u)) then Some false else None),
       t ++ [Sent (Get u); Printed m]).
Proof.
  unfold test_rpc_connect, try_except, bind, send.
  destruct (net (sent_count t) (Get u)) as [e | status body]; cbn [gives_up].
  - destruct (is_Timeout e); [|destruct (is_ConnectionError e)];
      cbn [print ret orb]; rewrite <- app_assoc; eexists; reflexivity.
  - cbn [print ret fst]. rewrite <- app_assoc. eexists; reflexivity.
Qed.

(** The run of [test_rpc_basic]: its verdict, its requests and its lines. *)
Lemma test_rpc_basic_run (net : network) (u : string) (t : trace) :
  exists r tail,
    test_rpc_basic net u t = (Returns r, t ++ tail)
    /\ requests_of tail
       = Get u :: (if gives_up (net (sent_count t) (Get u)) then []
                   else [Post u "getHealth" []])
    /\ pauses tail = O
    /\ (r = Some true
        <-> gives_up (net (sent_count t) (Get u)) = false
            /\ rpc_healthy (net (S (sent_count t)) (Post u "getHealth" [])) = true).
Proof.
  unfold test_rpc_basic. rewrite bind_print.
  destruct (test_rpc_connect_value net u (t ++ [Printed (MsgProbing u)])) as [m E].
  assert (C0 : sent_count (t ++ [Printed (MsgProbing u)]) = sent_count t)
    by (rewrite sent_count_app; apply Nat.add_0_r).
  rewrite C0 in E. rewrite (bind_returns _ _ _ _ _ E).
  destruct (gives_up (net (sent_count t) (Get u))).
  - exists (Some false), [Printed (MsgProbing u); Sent (Get u); Printed m].
    split; [unfold ret; now rewrite <- app_assoc|].
    split; [reflexivity|]. split; [reflexivity|].
    split; [discriminate | intros [H _]; discriminate H].
  - destruct (test_rpc_call_value net u
                ((t ++ [Printed (MsgProbing u)]) ++ [Sent (Get u); Printed m]))
      as [r [msgs [E' V]]].
    assert (C : sent_count ((t ++ [Printed (MsgProbing u)]) ++ [Sent (Get u); Printed m])
                = S (sent_count t)).
    { rewrite !sent_count_app. cbn. lia. }
    rewrite C in V. rewrite E'.
    exists r, (Printed (MsgProbing u) :: Sent (Get u) :: Printed m
               :: Sent (Post u "getHealth" []) :: map Printed msgs).
    split; [now rewrite <- !app_assoc|].
    split; [cbn [requests_of]; now rewrite requests_of_printed|].
    split; [apply (pauses_printed msgs)|].
    rewrite V. tauto.
Qed.

(** X12: [test_rpc_basic] never raises and sends at most two requests: a
    [GET], then the [getHealth] call unless the [GET] timed out or could
    not connect. It returns [True] exactly when the [GET] did not end it
    and the call is answered with the status 200 and an object that has a
    [result]; the status of the answer to the [GET] plays no part, and any
    other exception of the [GET] lets the test go on. *)
Theorem test_rpc_basic_verdict (net : network) (u : string) (t : trace) :
  exists r t',
    test_rpc_basic net u t = (Returns r, t')
    /\ requests_of t'
       = requests_of t
         ++ Get u :: (if gives_up (net (sent_count t) (Get u)) then []
                      else [Post u "getHealth" []])
    /\ (r = Some true
        <-> gives_up (net (sent_count t) (Get u)) = false
            /\ rpc_healthy (net (S (sent_count t)) (Post u "getHealth" [])) = true).
Proof.
  destruct (test_rpc_basic_run net u t) as [r [tail [E [R [_ V]]]]].
  exists r, (t ++ tail). split; [assumption|]. split; [|assumption].
  now rewrite requests_of_app, R.
Qed.

Lemma subseq_skip (l m : list string) (y : string) : subseq l m -> subseq l (y :: m).
Proof. destruct l as [|x l]; cbn; auto. Qed.

Lemma subseq_kept_basic (net : network) (endpoints : list string) :
  forall k, subseq (kept_basic net k endpoints) endpoints.
Proof.
  induction endpoints as [|u rest IH]; intros k; cbn [kept_basic]; [exact I|].
  destruct (gives_up _); [apply subseq_skip, IH|].
  destruct (rpc_healthy _); [|apply subseq_skip, IH].
  cbn [subseq]. left. split; [reflexivity | apply IH].
Qed.

(** The first loop of the diagnostic script. *)
Lemma basic_tests_run (net : network) (endpoints : list string) :
  forall (working_rpcs : list string) (t : trace),
  exists tail,
    basic_tests net endpoints working_rpcs t
    = (Returns (working_rpcs ++ kept_basic net (sent_count t) endpoints), t ++ tail)
    /\ pauses tail = List.length endpoints
    /\ (List.length endpoints <= List.length (requests_of tail)
        <= 2 * List.length endpoints)%nat.
Proof.
  induction endpoints as [|u rest IH]; intros working_rpcs t.
  - exists []. cbn. unfold ret. rewrite !app_nil_r. repeat split; lia.
  - cbn [basic_tests kept_basic].
    destruct (test_rpc_basic_run net u t) as [r [tail0 [E [R [P V]]]]].
    rewrite (bind_returns _ _ _ _ _ E). unfold bind at 1, sleep at 1.
    set (g := gives_up (net (sent_count t) (Get u))) in *.
    set (h := rpc_healthy (net (S (sent_count t)) (Post u "getHealth" []))) in *.
    assert (C : sent_count ((t ++ tail0) ++ [Slept])
                = if g then S (sent_count t) else S (S (sent_count t))).
    { rewrite !sent_count_app, (sent_count_requests tail0), R.
      destruct g; cbn; lia. }
    assert (L : (1 <= List.length (requests_of tail0) <= 2)%nat).
    { rewrite R. destruct g; cbn; lia. }
    assert (H : forall add,
      exists tail,
        basic_tests net rest (working_rpcs ++ add) ((t ++ tail0) ++ [Slept])
        = (Returns (working_rpcs ++ add
                    ++ kept_basic net (if g then S (sent_count t) else S (S (sent_count t)))
                         rest),
           t ++ tail)
        /\ pauses tail = List.length (u :: rest)
        /\ (List.length (u :: rest) <= List.length (requests_of tail)
            <= 2 * List.length (u :: rest))%nat).
    { intros add.
      destruct (IH (working_rpcs ++ add) ((t ++ tail0) ++ [Slept])) as [tail [E' [P' L']]].
      rewrite C in E'.
      exists (tail0 ++ [Slept] ++ tail). rewrite E'.
      split; [now rewrite <- !app_assoc|].
      split; [rewrite !pauses_app, P, P'; reflexivity|].
      rewrite !requests_of_app, !length_app. cbn [requests_of List.length]. lia. }
    assert (Hr : r = Some true <-> g = false /\ h = true) by exact V.
    destruct r as [[|]|].
    + destruct (proj1 Hr eq_refl) as [-> ->].
      destruct (H [u]) as [tail [E' [P' L']]]. exists tail. auto.
    + destruct (H []) as [tail [E' [P' L']]]. exists tail. split; [|auto].
      cbn [app] in E'. rewrite app_nil_r in E'. rewrite E'.
      destruct g; [reflexivity|]. destruct h; [|reflexivity].
      destruct Hr as [_ Hr]. discriminate Hr. auto.
    + destruct (H []) as [tail [E' [P' L']]]. exists tail. split; [|auto].
      cbn [app] in E'. rewrite app_nil_r in E'. rewrite E'.
      destruct g; [reflexivity|]. destruct h; [|reflexivity].
      destruct Hr as [_ Hr]. discriminate Hr. auto.
Qed.

(** X13: the first loop of the diagnostic script never raises; it pauses
    once after every endpoint, working or not, and sends one or two requests
    for each. It keeps, in order, the endpoints whose test returned [True]:
    those whose [GET] did not time out or fail to connect and whose
    [getHealth] call was answered with the status 200 by an object that has
    a [result]. *)
Theorem basic_tests_pause_after_every_endpoint (net : network) (endpoints : list string)
    (t : trace) :
  exists t',
    basic_tests net endpoints [] t = (Returns (kept_basic net (sent_count t) endpoints), t')
    /\ subseq (kept_basic net (sent_count t) endpoints) endpoints
    /\ pauses t' = (pauses t + List.length endpoints)%nat
    /\ (sent_count t + List.length endpoints <= sent_count t'
        <= sent_count t + 2 * List.length endpoints)%nat.
Proof.
  destruct (basic_tests_run net endpoints [] t) as [tail [E [P L]]].
  exists (t ++ tail). split; [assumption|]. split; [apply subseq_kept_basic|].
  split; [now rewrite pauses_app, P|].
  rewrite sent_count_app, (sent_count_requests tail). lia.
Qed.

(** ** The conversion of the lamports *)

Lemma rneq_scale (n d c : Z) : 0 < d -> 0 < c -> rneq (n * c) (d * c) = rneq n d.
Proof.
  intros Hd Hc. unfold rneq.
  rewrite Z.div_mul_cancel_r by lia.
  rewrite Z.mul_mod_distr_r by lia.
  pose proof (Z.mod_pos_bound n d Hd) as Hb.
  destruct (Z.ltb_spec (2 * (n mod d)) d) as [H1 | H1];
    destruct (Z.ltb_spec (2 * (n mod d * c)) (d * c)) as [H2 | H2]; try nia; try reflexivity.
  destruct (Z.ltb_spec d (2 * (n mod d))) as [H3 | H3];
    destruct (Z.ltb_spec (d * c) (2 * (n mod d * c))) as [H4 | H4]; try nia; reflexivity.
Qed.

Lemma rneq_mono (n1 n2 d : Z) : 0 <= n1 <= n2 -> 0 < d -> rneq n1 d <= rneq n2 d.
Proof.
  intros Hn Hd.
  destruct (rneq_bounds n1 d ltac:(lia) Hd) as [[L1 U1] _].
  destruct (rneq_bounds n2 d ltac:(lia) Hd) as [[L2 U2] _].
  assert (Hq : n1 / d <= n2 / d) by (apply Z.div_le_mono; lia).
  destruct (Z.eq_dec (n1 / d) (n2 / d)) as [E | E]; [|lia].
  pose proof (Z.div_mod n1 d ltac:(lia)) as E1.
  pose proof (Z.div_mod n2 d ltac:(lia)) as E2.
  assert (Hr : n1 mod d <= n2 mod d) by nia.
  unfold rneq. rewrite <- E.
  destruct (Z.ltb_spec (2 * (n1 mod d)) d); destruct (Z.ltb_spec (2 * (n2 mod d)) d);
    destruct (Z.ltb_spec d (2 * (n1 mod d))); destruct (Z.ltb_spec d (2 * (n2 mod d)));
    destruct (Z.even (n1 / d)); lia.
Qed.

(** The exponent of the quotient grows with the dividend. *)
Lemma quot_exp_mono (a1 a2 b : Z) :
  0 < a1 <= a2 -> 0 < b -> quot_exp a1 b <= quot_exp a2 b.
Proof.
  intros Ha Hb.
  destruct (quot_digits a1 b ltac:(lia) Hb) as [Hs1 [HE1 HL1]].
  destruct (quot_digits a2 b ltac:(lia) Hb) as [Hs2 [HE2 HL2]].
  unfold quot_exp in *. rewrite !fexp_eq in *.
  set (s1 := quot_shift a1 b) in *. set (s2 := quot_shift a2 b) in *.
  set (q1 := a1 * 2 ^ s1 / b) in *. set (q2 := a2 * 2 ^ s2 / b) in *.
  pose proof (pow2_pos s1 ltac:(lia)) as P1. pose proof (pow2_pos s2 ltac:(lia)) as P2.
  assert (Q1 : 0 <= q1) by (apply Z.div_pos; nia).
  assert (Q2 : 0 <= q2) by (apply Z.div_pos; nia).
  destruct (Z.le_gt_cases (Zdigits2 q1 - s1) (Zdigits2 q2 - s2)) as [H | H]; [lia|].
  destruct (Z.le_gt_cases (Zdigits2 q1 - s1 - 53) (-1074)) as [H0 | H0]; [lia|].
  exfalso.
  pose proof (digits_nonneg q2) as D2.
  assert (Hq1 : 0 < q1) by (destruct q1; simpl in *; lia).
  pose proof (digits_pos_bounds q1 Hq1) as [B1 _].
  assert (B2 : q2 < 2 ^ Zdigits2 q2).
  { destruct (Z.eq_dec q2 0) as [-> | N]; [reflexivity|].
    apply (digits_pos_bounds q2 ltac:(lia)). }
  set (L1 := Zdigits2 q1) in *. set (L2 := Zdigits2 q2) in *.
  assert (L1 >= 1) by (unfold L1; destruct q1; simpl in *; lia).
  assert (A1 : 2 ^ (L1 - 1) * b <= a1 * 2 ^ s1).
  { pose proof (Z.mul_div_le (a1 * 2 ^ s1) b Hb). unfold q1 in B1. nia. }
  assert (A2 : a2 * 2 ^ s2 < 2 ^ L2 * b).
  { pose proof (Z.mod_pos_bound (a2 * 2 ^ s2) b Hb).
    pose proof (Z.div_mod (a2 * 2 ^ s2) b ltac:(lia)). unfold q2 in B2. nia. }
  assert (A3 : 2 ^ (L2 + s1) <= 2 ^ (L1 - 1 + s2)) by (apply Z.pow_le_mono_r; lia).
  rewrite !Z.pow_add_r in A3 by lia.
  pose proof (pow2_pos L2 ltac:(lia)). pose proof (pow2_pos (L1 - 1) ltac:(lia)).
  assert (a2 * 2 ^ s2 * 2 ^ s1 < a1 * 2 ^ s1 * 2 ^ s2) by nia.
  nia.
Qed.

(** The quotient as a float of the format: its mantissa and exponent before
    the carry of the rounding. *)
Lemma round_quot_pack (a b : Z) :
  0 < a -> 0 < b ->
  let M := rneq (a * 2 ^ quot_shift a b) (b * 2 ^ (quot_exp a b + quot_shift a b)) in
  0 <= M <= 2 ^ 53
  /\ (-1074 < quot_exp a b -> 2 ^ 52 <= M)
  /\ exists M' E',
       round_quot a b = pack M' E' /\ canon M' E'
       /\ M' * 2 ^ (E' + bias) = M * 2 ^ (quot_exp a b + bias).
Proof.
  intros Ha Hb. rewrite round_quot_spec by assumption.
  destruct (quot_digits a b Ha Hb) as [Hs [HE HE']].
  set (s := quot_shift a b) in *. set (E := quot_exp a b) in *.
  set (k := E + s) in *.
  pose proof (pow2_pos s ltac:(lia)) as Ps.
  pose proof (pow2_pos k ltac:(lia)) as Pk.
  set (n := a * 2 ^ s). set (q := n / b).
  assert (Hn : 0 < n) by (unfold n; nia).
  assert (Hq0 : 0 <= q) by (apply Z.div_pos; lia).
  assert (HEq : E = Z.max (Zdigits2 q - s - 53) (-1074))
    by (unfold E, quot_exp; now rewrite fexp_eq).
  pose proof (digits_nonneg q) as Hdq.
  destruct (rneq_bounds n (b * 2 ^ k) ltac:(lia) ltac:(nia)) as [[Rl Ru] _].
  set (M := rneq n (b * 2 ^ k)) in *.
  assert (Hdiv : n / (b * 2 ^ k) = q / 2 ^ k) by (unfold q; now rewrite Z.div_div by lia).
  rewrite Hdiv in Rl, Ru.
  assert (Hq2 : 0 <= q / 2 ^ k) by (apply Z.div_pos; lia).
  assert (Hup : q / 2 ^ k < 2 ^ 53).
  { apply Z.div_lt_upper_bound; [lia|].
    destruct (Z.eq_dec q 0) as [-> | Hq]; [apply Z.mul_pos_pos; [lia | reflexivity]|].
    pose proof (digits_pos_bounds q ltac:(lia)) as [_ Qu].
    eapply Z.lt_le_trans; [exact Qu|].
    rewrite <- Z.pow_add_r by lia. apply Z.pow_le_mono_r; lia. }
  assert (Hlo : -1074 < E -> 2 ^ 52 <= q / 2 ^ k).
  { intros H.
    assert (Hk : k = Zdigits2 q - 53) by lia.
    assert (Hq : 0 < q) by (destruct q; simpl in *; lia).
    pose proof (digits_pos_bounds q Hq) as [Ql _].
    apply Z.div_le_lower_bound; [lia|].
    rewrite <- Z.pow_add_r by lia. now replace (k + 52) with (Zdigits2 q - 1) by lia. }
  cbv zeta. split; [lia|]. split; [intros H; specialize (Hlo H); lia|].
  destruct (Z.eq_dec M (2 ^ 53)) as [HM | HM].
  - exists (2 ^ 52), (E + 1). rewrite HM, finish_carry by lia.
    split; [reflexivity|]. split; [unfold canon; lia|].
    replace (E + 1 + bias) with (1 + (E + bias)) by lia.
    rewrite Z.pow_add_r by (unfold bias; lia).
    change (2 ^ 53) with (2 ^ 52 * 2 ^ 1). ring.
  - exists M, E. rewrite finish_small by lia.
    split; [reflexivity|]. split; [unfold canon; lia | reflexivity].
Qed.

(** The rounded quotient is monotone in the dividend. *)
Lemma round_quot_mono (a1 a2 b : Z) :
  0 <= a1 <= a2 -> 0 < b -> value (round_quot a1 b) <= value (round_quot a2 b).
Proof.
  intros Ha Hb.
  destruct (Z.eq_dec a1 0) as [-> | N1].
  { cbn [round_quot value]. apply (round_quot_nonneg a2 b); lia. }
  destruct (round_quot_pack a1 b ltac:(lia) Hb) as [B1 [Lo1 [M1 [E1 [-> [C1 V1]]]]]].
  destruct (round_quot_pack a2 b ltac:(lia) Hb) as [B2 [Lo2 [M2 [E2 [-> [C2 V2]]]]]].
  apply pack_mono; try assumption. rewrite V1, V2. clear V1 V2 C1 C2 M1 E1 M2 E2.
  destruct (quot_digits a1 b ltac:(lia) Hb) as [Hs1 [HE1 HL1]].
  destruct (quot_digits a2 b ltac:(lia) Hb) as [Hs2 [HE2 HL2]].
  pose proof (quot_exp_mono a1 a2 b ltac:(lia) Hb) as HE.
  set (s1 := quot_shift a1 b) in *. set (s2 := quot_shift a2 b) in *.
  set (e1 := quot_exp a1 b) in *. set (e2 := quot_exp a2 b) in *.
  pose proof (pow2_pos (e1 + bias) ltac:(unfold bias; lia)) as P1.
  destruct (Z.eq_dec e1 e2) as [Ee | Ne].
  - rewrite <- Ee in *. apply Z.mul_le_mono_nonneg_r; [lia|].
    set (s := Z.max s1 s2).
    pose proof (pow2_pos (s - s1) ltac:(lia)) as Q1.
    pose proof (pow2_pos (s - s2) ltac:(lia)) as Q2.
    pose proof (pow2_pos (e1 + s1) ltac:(lia)) as Q3.
    pose proof (pow2_pos (e1 + s2) ltac:(lia)) as Q4.
    rewrite <- (rneq_scale (a1 * 2 ^ s1) (b * 2 ^ (e1 + s1)) (2 ^ (s - s1))) by nia.
    rewrite <- (rneq_scale (a2 * 2 ^ s2) (b * 2 ^ (e1 + s2)) (2 ^ (s - s2))) by nia.
    rewrite <- !Z.mul_assoc, <- !Z.pow_add_r by lia.
    replace (s1 + (s - s1)) with s by lia. replace (s2 + (s - s2)) with s by lia.
    replace (e1 + s1 + (s - s1)) with (e1 + s) by lia.
    replace (e1 + s2 + (s - s2)) with (e1 + s) by lia.
    pose proof (pow2_pos s ltac:(lia)). pose proof (pow2_pos (e1 + s) ltac:(lia)).
    apply rneq_mono; nia.
  - specialize (Lo2 ltac:(lia)).
    apply Z.le_trans with (2 ^ 53 * 2 ^ (e1 + bias)); [nia|].
    apply Z.le_trans with (2 ^ 52 * 2 ^ (e2 + bias)).
    + rewrite <- !Z.pow_add_r by (unfold bias; lia).
      apply Z.pow_le_mono_r; unfold bias; lia.
    + pose proof (pow2_pos (e2 + bias) ltac:(unfold bias; lia)). nia.
Qed.

(** The quotient is not zero when the exact quotient is above [2 ^ -1075]. *)
Lemma round_quot_not_zero (a b : Z) :
  0 < a -> 0 < b -> b < a * 2 ^ 1075 ->
  is_zero (round_quot a b) = false.
Proof.
  intros Ha Hb Hlt.
  destruct (round_quot_nearest a b Ha Hb) as [M [E [-> [[HM [HE Hn]] Hbr]]]].
  unfold pack. destruct M as [|m|m]; try reflexivity; [exfalso | now destruct (E <=? emax - prec)].
  assert (E = -1074) by (destruct (Z.eq_dec E (-1074)); [assumption | specialize (Hn ltac:(lia)); lia]).
  subst E.
  pose proof (pow2_pos bias ltac:(unfold bias; lia)) as P2.
  assert (Hbr' : 2 * (a * 2 ^ bias) <= b * 2 ^ (-1074 + bias)).
  { assert (0 < a * 2 ^ bias) by nia. lia. }
  clear Hbr. rename Hbr' into Hbr.
  assert (P : 2 ^ bias = 2 ^ 1074 * 2 ^ (-1074 + bias)).
  { rewrite <- Z.pow_add_r by (unfold bias; lia). f_equal; lia. }
  pose proof (pow2_pos (-1074 + bias) ltac:(unfold bias; lia)) as P3.
  rewrite P in Hbr.
  assert (2 * a * 2 ^ 1074 <= b) by nia.
  change (2 ^ 1075) with (2 * 2 ^ 1074) in Hlt. lia.
Qed.

Lemma round_quot_leb (a1 a2 b : Z) :
  0 <= a1 <= a2 -> 0 < b -> leb (round_quot a1 b) (round_quot a2 b) = true.
Proof.
  intros Ha Hb.
  destruct (round_quot_nonneg a1 b ltac:(lia) Hb) as [V1 N1].
  destruct (round_quot_nonneg a2 b ltac:(lia) Hb) as [V2 N2].
  apply leb_value; try assumption. now apply round_quot_mono.
Qed.

Lemma is_inf_value (x : float) : nonneg x -> (is_inf x = true <-> 2 ^ (emax + bias) <= value x).
Proof.
  intros N. split.
  - destruct x as [|[]| |]; try discriminate; intros _.
    destruct N as [_ N]. cbn [value] in N. lia.
  - intros H. now rewrite (value_inf x N H).
Qed.

(** The integers that have no float. *)
Lemma round_Z_inf (n : Z) : 0 <= n -> (is_inf (round_Z n) = true <-> float_limit <= n).
Proof.
  intros Hn. rewrite (is_inf_value _ (round_Z_nonneg n Hn)). split.
  - intros H. destruct (Z.le_gt_cases float_limit n) as [L | L]; [assumption | exfalso].
    assert (Hm : value (round_Z n) <= value (round_Z (float_limit - 1))).
    { apply round_Z_mono. lia. }
    assert (Hc : value (round_Z (float_limit - 1)) < 2 ^ (emax + bias))
      by (vm_compute; reflexivity).
    lia.
  - intros H.
    assert (Hm : value (round_Z float_limit) <= value (round_Z n)).
    { apply round_Z_mono. split; [vm_compute; discriminate | assumption]. }
    assert (Hc : value (round_Z float_limit) = 2 ^ (emax + bias))
      by (vm_compute; reflexivity).
    lia.
Qed.

(** The quotients by [LAMPORTS_PER_SOL] that have no float. *)
Lemma round_quot_inf (n : Z) :
  0 <= n ->
  (is_inf (round_quot n LAMPORTS_PER_SOL) = true <-> float_limit * LAMPORTS_PER_SOL <= n).
Proof.
  intros Hn.
  assert (Hb : 0 < LAMPORTS_PER_SOL) by reflexivity.
  rewrite (is_inf_value _ (round_quot_nonneg n _ Hn Hb)). split.
  - intros H.
    destruct (Z.le_gt_cases (float_limit * LAMPORTS_PER_SOL) n) as [L | L];
      [assumption | exfalso].
    assert (Hm : value (round_quot n LAMPORTS_PER_SOL)
                 <= value (round_quot (float_limit * LAMPORTS_PER_SOL - 1) LAMPORTS_PER_SOL)).
    { apply round_quot_mono; lia. }
    assert (Hc : value (round_quot (float_limit * LAMPORTS_PER_SOL - 1) LAMPORTS_PER_SOL)
                 < 2 ^ (emax + bias))
      by (vm_compute; reflexivity).
    lia.
  - intros H.
    assert (Hm : value (round_quot (float_limit * LAMPORTS_PER_SOL) LAMPORTS_PER_SOL)
                 <= value (round_quot n LAMPORTS_PER_SOL)).
    { apply round_quot_mono; [|assumption]. split; [vm_compute; discriminate | assumption]. }
    assert (Hc : value (round_quot (float_limit * LAMPORTS_PER_SOL) LAMPORTS_PER_SOL)
                 = 2 ^ (emax + bias))
      by (vm_compute; reflexivity).
    lia.
Qed.

(** What a probe makes of the answer that reports [n] lamports. *)
Lemma answer_balance_integer (n : Z) :
  answer_balance (balance_answer n)
  = match int_truediv n LAMPORTS_PER_SOL with
    | Returns s => Some (PInt n, s)
    | Raises _ => None
    end.
Proof.
  destruct (int_truediv n LAMPORTS_PER_SOL) as [s|e] eqn:E.
  - apply answer_balance_some. eexists. split; [reflexivity|]. split; [reflexivity|].
    exact E.
  - destruct (answer_balance (balance_answer n)) as [[l s]|] eqn:A; [exfalso | reflexivity].
    apply answer_balance_some in A. destruct A as [data [Hd [Hv Hq]]].
    injection Hd as <-. vm_compute in Hv. injection Hv as <-.
    cbn [py_truediv as_int] in Hq. congruence.
Qed.

(** X14: the probe of an endpoint that reports [n >= 0] lamports, an
    integer. Below 1,000,000,000 times the least integer without a float
    (so for every 64-bit amount) the probe returns the balance with the
    correctly rounded quotient, a finite float that is not negative, and zero
    only for 0 lamports; from that bound on the division raises, and the
    probe returns [None] as for a failed request. *)
Theorem integer_lamports_balance (net : network) (w u : string) (timeout : Z) (t : trace)
    (n : Z) :
  0 <= n ->
  net (sent_count t) (balance_request w u) = balance_answer n ->
  (n < float_limit * 1000000000 ->
   fst (check_balance net w u timeout t)
   = Returns (Some (PInt n, round_quot n 1000000000))
   /\ nonneg (round_quot n 1000000000)
   /\ is_inf (round_quot n 1000000000) = false
   /\ (is_zero (round_quot n 1000000000) = true <-> n = 0))
  /\ (float_limit * 1000000000 <= n ->
      fst (check_balance net w u timeout t) = Returns None)
  /\ 2 ^ 64 < float_limit * 1000000000.
Proof.
  intros Hn Hnet.
  destruct (check_balance_trace net w u timeout t) as [msgs [-> _]]. cbn [fst].
  rewrite Hnet, answer_balance_integer. unfold int_truediv.
  change LAMPORTS_PER_SOL with 1000000000. cbn [Z.eqb].
  pose proof (round_quot_inf n Hn) as I. change LAMPORTS_PER_SOL with 1000000000 in I.
  split; [|split].
  - intros H.
    destruct (is_inf (round_quot n 1000000000)) eqn:Ei; [pose proof (proj1 I eq_refl); lia|].
    split; [reflexivity|]. split; [apply round_quot_nonneg; lia|]. split; [reflexivity|].
    split.
    + intros Z0. destruct (Z.eq_dec n 0) as [-> | N]; [reflexivity | exfalso].
      rewrite round_quot_not_zero in Z0; [discriminate | lia | lia |].
      assert (1000000000 < 1 * 2 ^ 1075) by (vm_compute; reflexivity).
      pose proof (pow2_pos 1075 ltac:(lia)). nia.
    + intros ->. reflexivity.
  - intros H. apply I in H. now rewrite H.
  - vm_compute. reflexivity.
Qed.

Lemma integer_lamports_balance_witness :
  fst (check_balance (always (balance_answer 18446744073709551615)) some_wallet
         "https://rpc.ankr.com/solana" 10 [])
  = Returns (Some (PInt 18446744073709551615, round_quot 18446744073709551615 1000000000)).
Proof.
  refine (proj1 (proj1 (integer_lamports_balance
            (always (balance_answer 18446744073709551615)) some_wallet
            "https://rpc.ankr.com/solana" 10 [] 18446744073709551615 _ _) _)).
  - lia.
  - reflexivity.
  - vm_compute. reflexivity.
Defined.

(** X15: more lamports never give fewer SOL: of two probes that return
    balances with the integer lamports [0 <= n1 <= n2], the SOL amount of
    the first is at most that of the second. *)
Theorem sol_grows_with_lamports (net1 net2 : network) (w1 w2 u1 u2 : string)
    (timeout1 timeout2 : Z) (t1 t2 : trace) (n1 n2 : Z) (s1 s2 : float) :
  0 <= n1 <= n2 ->
  fst (check_balance net1 w1 u1 timeout1 t1) = Returns (Some (PInt n1, s1)) ->
  fst (check_balance net2 w2 u2 timeout2 t2) = Returns (Some (PInt n2, s2)) ->
  leb s1 s2 = true.
Proof.
  intros Hn H1 H2.
  destruct (check_balance_trace net1 w1 u1 timeout1 t1) as [msgs1 [E1 _]].
  destruct (check_balance_trace net2 w2 u2 timeout2 t2) as [msgs2 [E2 _]].
  rewrite E1 in H1. rewrite E2 in H2. cbn [fst] in H1, H2.
  injection H1 as H1. injection H2 as H2.
  apply answer_balance_some in H1. destruct H1 as [_ [_ [_ Q1]]].
  apply answer_balance_some in H2. destruct H2 as [_ [_ [_ Q2]]].
  cbn [py_truediv as_int] in Q1, Q2.
  apply int_truediv_returns in Q1. destruct Q1 as [_ ->].
  apply int_truediv_returns in Q2. destruct Q2 as [_ ->].
  apply round_quot_leb; [assumption | reflexivity].
Qed.

Lemma sol_grows_with_lamports_witness :
  leb (round_quot 100000000 1000000000) (round_quot 1500000000 1000000000) = true.
Proof.
  refine (sol_grows_with_lamports
            (always (balance_answer 100000000)) (always (balance_answer 1500000000))
            some_wallet some_wallet "https://rpc.ankr.com/solana" "https://rpc.ankr.com/solana"
            10 10 [] [] 100000000 1500000000 _ _ _ _ _).
  - lia.
  - vm_compute. reflexivity.
  - vm_compute. reflexivity.
Defined.

(** X16: the quantities for which [estimate_fees] raises: a quantity
    [n >= 0] has an estimate exactly when it is below the least integer
    without a float, [2 ^ 1024 - 2 ^ 970], whatever the price is; from there
    on the product raises [OverflowError]. *)
Theorem estimate_fees_overflow (n : Z) (p : float) :
  0 <= n ->
  (estimate_fees n p = Raises OverflowError <-> float_limit <= n)
  /\ ((exists e, estimate_fees n p = Returns e) <-> n < float_limit).
Proof.
  intros Hn. pose proof (round_Z_inf n Hn) as I.
  destruct (estimate_fees_cases n p) as [[Hi ->] | [Hi ->]].
  - assert (n < float_limit).
    { destruct (Z.le_gt_cases float_limit n) as [L | L]; [|assumption].
      apply I in L. congruence. }
    split; split; try discriminate; try lia; eauto.
  - apply I in Hi. split; split; try reflexivity; try lia.
    intros [e He]. discriminate He.
Qed.

Lemma estimate_fees_overflow_witness :
  exists e, estimate_fees 100 f_0_001 = Returns e.
Proof.
  refine (proj2 (proj2 (estimate_fees_overflow 100 f_0_001 _)) _).
  - lia.
  - vm_compute. reflexivity.
Defined.

(** ** The top level of the diagnostic script *)

(** In this section the names are those of the diagnostic script: [script]
    and [RPC_ENDPOINTS] are its own. *)
Section TopLevel.

Import Avanzado.

Variable net : network.
Variable dns : string -> option exn.

Lemma base_app (t u : log) : base (t ++ u) = base t ++ base u.
Proof. induction t as [|[ev|l|h] t IH]; simpl; congruence. Qed.

Lemma lines_of_app (t u : log) : lines_of (t ++ u) = lines_of t ++ lines_of u.
Proof. induction t as [|[ev|l|h] t IH]; simpl; congruence. Qed.

Lemma lookups_of_app (t u : log) : lookups_of (t ++ u) = lookups_of t ++ lookups_of u.
Proof. induction t as [|[ev|l|h] t IH]; simpl; congruence. Qed.

Lemma base_steps (tail : trace) : base (map Base tail) = tail.
Proof. induction tail; simpl; congruence. Qed.

Lemma lines_of_steps (tail : trace) : lines_of (map Base tail) = [].
Proof. induction tail; simpl; congruence. Qed.

Lemma lookups_of_steps (tail : trace) : lookups_of (map Base tail) = [].
Proof. induction tail; simpl; congruence. Qed.

Lemma base_said (ls : list line) : base (map Said ls) = [].
Proof. induction ls; simpl; congruence. Qed.

Lemma lines_of_said (ls : list line) : lines_of (map Said ls) = ls.
Proof. induction ls; simpl; congruence. Qed.

Lemma lookups_of_said (ls : list line) : lookups_of (map Said ls) = [].
Proof. induction ls; simpl; congruence. Qed.

Lemma base_say (t : log) (l : line) : base (t ++ [Said l]) = base t.
Proof. rewrite base_app. apply app_nil_r. Qed.

(** A call whose steps follow the trace adds them to the log. *)
Lemma run_appends {A} (c : M A) (t : log) (o : outcome A) (tail : trace) :
  c (base t) = (o, base t ++ tail) -> run c t = (o, t ++ map Base tail).
Proof.
  intros H. unfold run. rewrite H. now rewrite skipn_app, skipn_all, Nat.sub_diag.
Qed.

Lemma dbind_say {B} (l : line) (f : unit -> D B) (t : log) :
  dbind (say l) f t = f tt (t ++ [Said l]).
Proof. reflexivity. Qed.

Lemma dbind_returns {A B} (c : D A) (f : A -> D B) (t t' : log) (a : A) :
  c t = (Returns a, t') -> dbind c f t = f a t'.
Proof. intros H. unfold dbind. now rewrite H. Qed.

Lemma say_each_run (working_rpcs : list string) :
  forall t, say_each working_rpcs t = (Returns tt, t ++ map Said (map LnWorkingRpc working_rpcs)).
Proof.
  induction working_rpcs as [|rpc rest IH]; intros t; cbn [say_each map].
  - unfold dret. now rewrite app_nil_r.
  - rewrite dbind_say, IH. now rewrite <- app_assoc.
Qed.

(** The loop of the second test. *)
Lemma balance_tests_run (w : string) (working_rpcs : list string) :
  forall t,
  exists tail,
    balance_tests net w working_rpcs t = (Returns tt, t ++ tail)
    /\ requests_of (base tail)
       = map (balance_request w) (asked net w (sent_count (base t)) working_rpcs)
    /\ pauses (base tail) = O
    /\ lookups_of tail = []
    /\ forallb loop_line (lines_of tail) = true
    /\ filter is_obtained (lines_of tail)
       = (if obtains net w (sent_count (base t)) working_rpcs then [LnObtained] else [])
    /\ List.length (filter is_failed (lines_of tail))
       = (List.length (asked net w (sent_count (base t)) working_rpcs)
          - (if obtains net w (sent_count (base t)) working_rpcs then 1 else 0))%nat.
Proof.
  induction working_rpcs as [|rpc rest IH]; intros t.
  - exists []. cbn. unfold dret. now rewrite app_nil_r.
  - cbn [balance_tests asked obtains]. rewrite dbind_say.
    destruct (test_get_balance_value net rpc w (base (t ++ [Said (LnUsing (substring 0 50 rpc))])))
      as [msgs E].
    rewrite base_say in E.
    set (tail0 := Sent (balance_request w rpc) :: map Printed msgs) in *.
    assert (E' : test_get_balance net rpc w (base (t ++ [Said (LnUsing (substring 0 50 rpc))]))
                 = (Returns (match answer_balance (net (sent_count (base t))
                                                     (balance_request w rpc)) with
                             | Some _ => true
                             | None => false
                             end),
                    base (t ++ [Said (LnUsing (substring 0 50 rpc))]) ++ tail0)).
    { now rewrite base_say. }
    apply run_appends in E'. rewrite (dbind_returns _ _ _ _ _ E').
    assert (Rq : requests_of tail0 = [balance_request w rpc]).
    { unfold tail0. cbn [requests_of]. now rewrite requests_of_printed. }
    assert (Pq : pauses tail0 = O) by apply (pauses_printed msgs).
    clear E. clearbody tail0.
    destruct (answer_balance (net (sent_count (base t)) (balance_request w rpc))) as [r|].
    + exists (Said (LnUsing (substring 0 50 rpc)) :: map Base tail0 ++ [Said LnObtained]).
      split; [unfold say; now rewrite <- !app_assoc|].
      cbn [base lines_of lookups_of].
      rewrite base_app, lines_of_app, lookups_of_app, base_steps, lines_of_steps,
        lookups_of_steps.
      cbn. rewrite app_nil_r, Rq, Pq. repeat split.
    + destruct (IH (((t ++ [Said (LnUsing (substring 0 50 rpc))]) ++ map Base tail0)
                    ++ [Said LnFailed]))
        as [tail [Et [Rt [Pt [Lt [Ft [Ot Nt]]]]]]].
      assert (C : sent_count (base (((t ++ [Said (LnUsing (substring 0 50 rpc))])
                                     ++ map Base tail0) ++ [Said LnFailed]))
                  = S (sent_count (base t))).
      { rewrite base_say, base_app, base_say, base_steps, sent_count_app.
        rewrite (sent_count_requests tail0), Rq. cbn. lia. }
      rewrite C in *.
      exists (Said (LnUsing (substring 0 50 rpc)) :: map Base tail0 ++ [Said LnFailed] ++ tail).
      split; [rewrite dbind_say, Et; now rewrite <- !app_assoc|].
      cbn [base lines_of lookups_of].
      rewrite !base_app, !lines_of_app, !lookups_of_app, base_steps, lines_of_steps,
        lookups_of_steps.
      cbn [base lines_of lookups_of app].
      rewrite requests_of_app, pauses_app, Rq, Pq, Rt, Pt, Lt.
      cbn [forallb loop_line filter is_obtained is_failed andb map app List.length].
      rewrite Ft, Ot, Nt.
      repeat split.
      destruct (obtains net w (S (sent_count (base t))) rest) eqn:Ob; [|lia].
      assert (1 <= List.length (asked net w (S (sent_count (base t))) rest))%nat; [|lia].
      destruct rest as [|r0 rest0]; [discriminate Ob|].
      cbn [asked]. destruct (answer_balance _); cbn; lia.
Qed.

Lemma results_run (working_rpcs : list string) (t : log) :
  exists ls,
    results working_rpcs t = (Returns tt, t ++ map Said ls)
    /\ forallb (fun l => negb (advice_line l)) ls = true.
Proof.
  unfold results. rewrite dbind_say.
  destruct working_rpcs as [|rpc rest]; cbn [nonempty].
  - exists [LnResults; LnNoneWorks]. split; [unfold say; now rewrite <- app_assoc|].
    reflexivity.
  - rewrite dbind_say, say_each_run.
    exists (LnResults :: LnWorkingCount (List.length (rpc :: rest)) (List.length RPC_ENDPOINTS)
            :: map LnWorkingRpc (rpc :: rest)).
    split; [now rewrite <- !app_assoc|].
    cbn [forallb advice_line negb andb].
    induction (rpc :: rest) as [|r l IH]; [reflexivity | exact IH].
Qed.

Lemma test_dns_run (t : log) :
  test_dns dns t
  = (Returns tt,
     t ++ [Said LnDnsTest; Looked "api.mainnet-beta.solana.com";
           Said (match dns "api.mainnet-beta.solana.com" with
                 | None => LnDnsOk
                 | Some _ => LnDnsProblem
                 end)]).
Proof.
  unfold test_dns. rewrite dbind_say. unfold dtry, dbind, gethostbyname, say.
  destruct (dns "api.mainnet-beta.solana.com"); now rewrite <- !app_assoc.
Qed.

Lemma run_send (r : request) (t : log) :
  run (send net r) t
  = (match net (sent_count (base t)) r with
     | HttpRaises e => Raises e
     | HttpResponse status body => Returns (status, body)
     end,
     t ++ [Base (Sent r)]).
Proof.
  apply (run_appends (send net r) t _ [Sent r]). unfold send.
  now destruct (net (sent_count (base t)) r).
Qed.

Lemma test_http_run (t : log) :
  test_http net t
  = (Returns tt,
     t ++ [Said LnHttpTest; Base (Sent (Get "https://www.google.com"));
           Said (match net (sent_count (base t)) (Get "https://www.google.com") with
                 | HttpRaises _ => LnHttpProblem
                 | HttpResponse _ _ => LnHttpOk
                 end)]).
Proof.
  unfold test_http. rewrite dbind_say. unfold dtry, dbind. rewrite run_send, base_say.
  destruct (net (sent_count (base t)) (Get "https://www.google.com"));
    unfold say; now rewrite <- !app_assoc.
Qed.

Lemma test_configuration_run (t : log) :
  test_configuration net t
  = (Returns tt,
     t ++ [Said LnConfiguration; Base (Sent (Get "https://api.ipify.org?format=json"));
           Said (match net (sent_count (base t)) (Get "https://api.ipify.org?format=json") with
                 | HttpResponse _ (Some (PDict d)) =>
                     LnPublicIp (match dict_get d "ip" with
                                 | Some ip => ip
                                 | None => PStr "Desconocida"
                                 end)
                 | _ => LnNoNetworkInfo
                 end)]).
Proof.
  unfold test_configuration. rewrite dbind_say. unfold dtry. unfold dbind at 1.
  rewrite run_send, base_say.
  destruct (net (sent_count (base t)) (Get "https://api.ipify.org?format=json"))
    as [e | status body].
  - unfold say. now rewrite <- !app_assoc.
  - cbn [snd]. destruct body as [data|].
    + assert (R : run (json (Some data))
                      ((t ++ [Said LnConfiguration])
                       ++ [Base (Sent (Get "https://api.ipify.org?format=json"))])
                  = (Returns data,
                     ((t ++ [Said LnConfiguration])
                      ++ [Base (Sent (Get "https://api.ipify.org?format=json"))]) ++ map Base [])).
      { apply run_appends. cbn [json]. unfold ret. now rewrite app_nil_r. }
      rewrite (dbind_returns _ _ _ _ _ R). cbn [map]. rewrite app_nil_r.
      unfold dbind, dlift, say.
      destruct data; cbn [py_get]; now rewrite <- !app_assoc.
    + assert (R : run (json None)
                      ((t ++ [Said LnConfiguration])
                       ++ [Base (Sent (Get "https://api.ipify.org?format=json"))])
                  = (Raises JSONDecodeError,
                     ((t ++ [Said LnConfiguration])
                      ++ [Base (Sent (Get "https://api.ipify.org?format=json"))]) ++ map Base [])).
      { apply run_appends. cbn [json]. unfold raise. now rewrite app_nil_r. }
      unfold dbind at 1. rewrite R. cbn [map]. rewrite app_nil_r.
      unfold say. now rewrite <- !app_assoc.
Qed.

Lemma loop_not_advice (ls : list line) :
  forallb loop_line ls = true -> forallb (fun l => negb (advice_line l)) ls = true.
Proof.
  induction ls as [|l ls IH]; [reflexivity|]. cbn [forallb].
  intros H. apply andb_prop in H. destruct H as [Hl Hr].
  rewrite (IH Hr), andb_true_r. now destruct l.
Qed.

(** The second test: nothing is asked for an empty wallet or an empty list
    of endpoints. *)
Lemma test2_run (wallet_line : string) (working_rpcs : list string) (t : log) :
  exists tail,
    test2 net wallet_line working_rpcs t = (Returns tt, t ++ tail)
    /\ requests_of (base tail)
       = map (balance_request (strip wallet_line))
           (if blank wallet_line then []
            else asked net (strip wallet_line) (sent_count (base t)) working_rpcs)
    /\ pauses (base tail) = O
    /\ lookups_of tail = []
    /\ forallb (fun l => negb (advice_line l)) (lines_of tail) = true.
Proof.
  unfold test2. rewrite dbind_say. rewrite strip_blank.
  destruct (blank wallet_line); cbn [negb andb].
  - exists [Said LnTest2]. unfold dret. repeat split.
  - destruct working_rpcs as [|rpc rest]; cbn [nonempty].
    + exists [Said LnTest2]. unfold dret. repeat split.
    + rewrite dbind_say.
      destruct (balance_tests_run (strip wallet_line) (rpc :: rest)
                  ((t ++ [Said LnTest2]) ++ [Said LnTrying]))
        as [tail [E [R [P [L [F _]]]]]].
      rewrite !base_say in R.
      exists (Said LnTest2 :: Said LnTrying :: tail).
      split; [rewrite E; now rewrite <- !app_assoc|].
      cbn [base lines_of lookups_of forallb advice_line negb andb].
      repeat split; try assumption. now apply loop_not_advice.
Qed.

Lemma recommendations_run (working_rpcs : list string) (t : log) :
  recommendations working_rpcs t = (Returns tt, t ++ map Said (advice working_rpcs)).
Proof.
  unfold recommendations, advice. rewrite dbind_say.
  destruct (negb (nonempty working_rpcs)); rewrite !dbind_say; unfold say;
    now rewrite <- !app_assoc.
Qed.

(** A run of the script: the first loop, then the steps up to the
    recommendations, then these. *)
Lemma script_run (wallet_line : string) (t : log) :
  let working_rpcs := kept_basic net (sent_count (base t)) RPC_ENDPOINTS in
  exists tail1 head,
    basic_tests net RPC_ENDPOINTS [] (base t) = (Returns working_rpcs, base t ++ tail1)
    /\ script net dns wallet_line t
       = (Returns working_rpcs, t ++ head ++ map Said (advice working_rpcs))
    /\ requests_of (base head)
       = requests_of tail1
         ++ map (balance_request (strip wallet_line))
              (if blank wallet_line then []
               else asked net (strip wallet_line) (sent_count (base t ++ tail1)) working_rpcs)
         ++ [Get "https://www.google.com"; Get "https://api.ipify.org?format=json"]
    /\ pauses (base head) = 4%nat
    /\ lookups_of head = ["api.mainnet-beta.solana.com"%string]
    /\ forallb (fun l => negb (advice_line l)) (lines_of head) = true.
Proof.
  cbv zeta. unfold script. rewrite !dbind_say.
  destruct (basic_tests_run net RPC_ENDPOINTS [] (base t)) as [tail1 [E1 [P1 _]]].
  cbn [app] in E1. set (ws := kept_basic net (sent_count (base t)) RPC_ENDPOINTS) in *.
  exists tail1.
  assert (E1' : run (basic_tests net RPC_ENDPOINTS []) ((t ++ [Said LnBanner]) ++ [Said LnTest1])
                = (Returns ws, ((t ++ [Said LnBanner]) ++ [Said LnTest1]) ++ map Base tail1)).
  { apply run_appends. now rewrite !base_say. }
  rewrite (dbind_returns _ _ _ _ _ E1').
  set (ta := ((t ++ [Said LnBanner]) ++ [Said LnTest1]) ++ map Base tail1).
  assert (Ba : base ta = base t ++ tail1).
  { unfold ta. now rewrite base_app, !base_say, base_steps. }
  destruct (results_run ws ta) as [ls [E2 F2]].
  rewrite (dbind_returns _ _ _ _ _ E2).
  destruct (test2_run wallet_line ws (ta ++ map Said ls)) as [tail3 [E3 [R3 [P3 [L3 F3]]]]].
  rewrite base_app, base_said, app_nil_r, Ba in R3.
  rewrite (dbind_returns _ _ _ _ _ E3).
  rewrite dbind_say.
  rewrite (dbind_returns _ _ _ _ _ (test_dns_run _)).
  rewrite (dbind_returns _ _ _ _ _ (test_http_run _)).
  rewrite (dbind_returns _ _ _ _ _ (test_configuration_run _)).
  rewrite (dbind_returns _ _ _ _ _ (recommendations_run _ _)).
  unfold dret.
  assert (Gh : forall a : http_result,
             negb (advice_line match a with
                               | HttpRaises _ => LnHttpProblem
                               | HttpResponse _ _ => LnHttpOk
                               end) = true) by (now intros []).
  assert (Gi : forall a : http_result,
             negb (advice_line match a with
                               | HttpResponse _ (Some (PDict d)) =>
                                   LnPublicIp (match dict_get d "ip" with
                                               | Some ip => ip
                                               | None => PStr "Desconocida"
                                               end)
                               | _ => LnNoNetworkInfo
                               end) = true)
    by (intros [e | status [[ | | | | | | d]|]]; reflexivity).
  assert (Gd : forall o : option exn,
             negb (advice_line match o with
                               | Some _ => LnDnsProblem
                               | None => LnDnsOk
                               end) = true) by (now intros []).
  match goal with
  | |- context [Said LnHttpTest :: _ :: Said ?l :: nil] =>
      set (l_http := l); pose proof (Gh _ : negb (advice_line l_http) = true) as Fh
  end.
  match goal with
  | |- context [Said LnConfiguration :: _ :: Said ?l :: nil] =>
      set (l_ip := l); pose proof (Gi _ : negb (advice_line l_ip) = true) as Fi
  end.
  match goal with
  | |- context [Said LnDnsTest :: _ :: Said ?l :: nil] =>
      set (l_dns := l); pose proof (Gd _ : negb (advice_line l_dns) = true) as Fd
  end.
  clearbody l_http l_ip l_dns.
  exists ([Said LnBanner; Said LnTest1] ++ map Base tail1 ++ map Said ls ++ tail3
          ++ [Said LnTest3]
          ++ [Said LnDnsTest; Looked "api.mainnet-beta.solana.com"; Said l_dns]
          ++ [Said LnHttpTest; Base (Sent (Get "https://www.google.com")); Said l_http]
          ++ [Said LnConfiguration; Base (Sent (Get "https://api.ipify.org?format=json"));
              Said l_ip]).
  split; [assumption|]. split.
  { unfold ta. repeat (rewrite <- app_assoc; cbn [app]). reflexivity. }
  cbn [app base lines_of lookups_of].
  rewrite !base_app, !lines_of_app, !lookups_of_app.
  rewrite base_steps, lines_of_steps, lookups_of_steps, base_said, lines_of_said,
    lookups_of_said.
  cbn [app base lines_of lookups_of].
  rewrite !requests_of_app, !pauses_app, R3, P3, L3, P1.
  cbn [forallb advice_line negb andb]. rewrite !forallb_app, F2, F3.
  cbn [forallb advice_line negb andb]. rewrite Fh, Fi, Fd.
  repeat split.
Qed.

Lemma asked_prefix (w : string) (working_rpcs : list string) :
  forall k,
  exists rest,
    working_rpcs = asked net w k working_rpcs ++ rest
    /\ (obtains net w k working_rpcs = false -> rest = []).
Proof.
  induction working_rpcs as [|rpc l IH]; intros k; cbn [asked obtains].
  - exists []. auto.
  - destruct (answer_balance (net k (balance_request w rpc))).
    + exists l. split; [reflexivity | discriminate].
    + destruct (IH (S k)) as [rest [E H]]. exists rest. split; [|assumption].
      cbn [app]. now rewrite <- E.
Qed.

(** X17: the loop of the second test asks the working endpoints in order
    and leaves at the first balance obtained: the endpoints after it are not
    asked, and when none gives a balance all are asked. It prints that a
    balance was obtained at most once, and that an endpoint failed once for
    every other endpoint asked. It never raises and never pauses. *)
Theorem balance_tests_stop_at_first_balance (w : string) (working_rpcs : list string)
    (t : log) :
  let k := sent_count (base t) in
  exists tail rest,
    balance_tests net w working_rpcs t = (Returns tt, t ++ tail)
    /\ requests_of (base tail) = map (balance_request w) (asked net w k working_rpcs)
    /\ working_rpcs = asked net w k working_rpcs ++ rest
    /\ (obtains net w k working_rpcs = false -> rest = [])
    /\ pauses (base tail) = O
    /\ filter is_obtained (lines_of tail)
       = (if obtains net w k working_rpcs then [LnObtained] else [])
    /\ List.length (filter is_failed (lines_of tail))
       = (List.length (asked net w k working_rpcs)
          - (if obtains net w k working_rpcs then 1 else 0))%nat.
Proof.
  intros k.
  destruct (balance_tests_run w working_rpcs t) as [tail [E [R [P [_ [_ [O N]]]]]]].
  destruct (asked_prefix w working_rpcs k) as [rest [A B]].
  exists tail, rest. repeat split; assumption.
Qed.

(** X18: a run of the script on a line of ASCII characters never raises,
    whatever the network and the name service do. It returns the endpoints
    that the first loop kept; it sends the requests of that loop, then those
    of the second test, none when the line read holds only white space or no
    endpoint was kept, then the two requests of the third test, always; it
    looks one host up, and it pauses four times, once for each endpoint of
    the first loop. *)
Theorem script_requests (wallet_line : string) (t : log) :
  ascii_only wallet_line = true ->
  let working_rpcs := kept_basic net (sent_count (base t)) RPC_ENDPOINTS in
  exists tail1 t',
    basic_tests net RPC_ENDPOINTS [] (base t) = (Returns working_rpcs, base t ++ tail1)
    /\ script net dns wallet_line t = (Returns working_rpcs, t')
    /\ requests_of (base t')
       = requests_of (base t) ++ requests_of tail1
         ++ map (balance_request (strip wallet_line))
              (if blank wallet_line then []
               else asked net (strip wallet_line) (sent_count (base t ++ tail1)) working_rpcs)
         ++ [Get "https://www.google.com"; Get "https://api.ipify.org?format=json"]
    /\ pauses (base t') = (pauses (base t) + 4)%nat
    /\ lookups_of t' = lookups_of t ++ ["api.mainnet-beta.solana.com"%string].
Proof.
  intros _ ws.
  destruct (script_run wallet_line t) as [tail1 [head [E1 [E [R [P [L _]]]]]]].
  fold ws in E1, E, R.
  exists tail1, (t ++ head ++ map Said (advice ws)).
  split; [assumption|]. split; [assumption|].
  rewrite !base_app, !lookups_of_app, base_said, lookups_of_said, !app_nil_r.
  rewrite requests_of_app, pauses_app, R, P, L. repeat split.
Qed.

(** X19: the third test does not look at the status of the answers. The
    test of HTTP succeeds exactly when its request is answered, with any
    status; the public address is printed exactly when the request is
    answered, with any status, by a body that is a JSON object: its [ip], or
    the default when the object has none. Neither test raises. *)
Theorem network_tests_ignore_the_status (t : log) :
  let k := sent_count (base t) in
  (exists l,
      test_http net t
      = (Returns tt,
         t ++ [Said LnHttpTest; Base (Sent (Get "https://www.google.com")); Said l])
      /\ (l = LnHttpOk
          <-> exists status body,
                net k (Get "https://www.google.com") = HttpResponse status body)
      /\ (l = LnHttpProblem
          <-> exists e, net k (Get "https://www.google.com") = HttpRaises e))
  /\ (exists l,
        test_configuration net t
        = (Returns tt,
           t ++ [Said LnConfiguration;
                 Base (Sent (Get "https://api.ipify.org?format=json")); Said l])
        /\ (forall ip,
              l = LnPublicIp ip
              <-> exists status d,
                    net k (Get "https://api.ipify.org?format=json")
                    = HttpResponse status (Some (PDict d))
                    /\ ip = match dict_get d "ip" with
                            | Some v => v
                            | None => PStr "Desconocida"
                            end)
        /\ (l = LnNoNetworkInfo
            <-> forall status d,
                  net k (Get "https://api.ipify.org?format=json")
                  <> HttpResponse status (Some (PDict d)))).
Proof.
  intros k. split.
  - eexists. split; [apply test_http_run|]. fold k.
    destruct (net k (Get "https://www.google.com")) as [e | status body].
    + split; [split; [discriminate | intros [s [b H]]; discriminate H]
             | split; [intros _; eauto | reflexivity]].
    + split; [split; [intros _; eauto | reflexivity]
             | split; [discriminate | intros [e H]; discriminate H]].
  - eexists. split; [apply test_configuration_run|]. fold k.
    destruct (net k (Get "https://api.ipify.org?format=json"))
      as [e | status [[ | | | | | | d]|]]; cbv beta iota; split;
      try (intros ip; split; [discriminate | intros [st [d' [H _]]]; discriminate H]);
      try (split; [intros _ st d' H; discriminate H | reflexivity]).
    + intros ip. split.
      * intros H. injection H as <-. exists status, d. split; reflexivity.
      * intros [st [d' [H ->]]]. injection H as _ <-. reflexivity.
    + split; [discriminate|]. intros H. now destruct (H status d).
Qed.

Lemma advice_only (l : line) (ls : list line) :
  advice_line l = true -> forallb (fun l => negb (advice_line l)) ls = true -> ~ In l ls.
Proof.
  intros Hl F I. rewrite forallb_forall in F. specialize (F l I). rewrite Hl in F. discriminate.
Qed.

(** X20: the two blocks of recommendations follow the first loop alone: a
    run that kept no endpoint prints the critical block and the advice on the
    network, a run that kept one prints the other two, whatever the second
    and third tests found. *)
Theorem recommendations_follow_first_loop (wallet_line : string) :
  let working_rpcs := kept_basic net 0 RPC_ENDPOINTS in
  exists t',
    script net dns wallet_line [] = (Returns working_rpcs, t')
    /\ (In LnCritical (lines_of t') <-> working_rpcs = [])
    /\ (In LnNextNetwork (lines_of t') <-> working_rpcs = [])
    /\ (In (LnSomeWork (List.length working_rpcs) (List.length RPC_ENDPOINTS)) (lines_of t')
        <-> working_rpcs <> [])
    /\ (In LnNextBrowser (lines_of t') <-> working_rpcs <> []).
Proof.
  intros ws.
  destruct (script_run wallet_line []) as [tail1 [head [_ [E [_ [_ [_ F]]]]]]].
  change (kept_basic net (sent_count (base [])) RPC_ENDPOINTS) with ws in E.
  exists ([] ++ head ++ map Said (advice ws)). split; [assumption|].
  cbn [app]. rewrite lines_of_app, lines_of_said.
  assert (H : forall l, advice_line l = true ->
                        (In l (lines_of head ++ advice ws) <-> In l (advice ws))).
  { intros l Hl. rewrite in_app_iff. split; [|auto].
    intros [I | I]; [|assumption]. now apply (advice_only l) in I. }
  rewrite !H by reflexivity. unfold advice. clearbody ws.
  destruct ws as [|rpc rest]; cbn [nonempty negb In]; repeat split;
    try discriminate; try tauto;
    intros I; repeat (destruct I as [I | I]; try discriminate I); contradiction.
Qed.

End TopLevel.

Lemma script_requests_witness :
  exists tail1 t',
    basic_tests net_down Avanzado.RPC_ENDPOINTS [] [] = (Returns [], tail1)
    /\ Avanzado.script net_down Avanzado.no_dns some_wallet [] = (Returns [], t')
    /\ requests_of (Avanzado.base t')
       = requests_of tail1
         ++ map (balance_request some_wallet)
              (Avanzado.asked net_down some_wallet (sent_count tail1) [])
         ++ [Get "https://www.google.com"; Get "https://api.ipify.org?format=json"]
    /\ pauses (Avanzado.base t') = 4%nat
    /\ Avanzado.lookups_of t' = ["api.mainnet-beta.solana.com"%string].
Proof.
  refine (script_requests net_down Avanzado.no_dns some_wallet [] _).
  reflexivity.
Defined.
